(** * Minus80: the persistence layer (Freezable) and the catalog (Cohort)

    A shallow embedding of [minus80/Freezable.py] and [minus80/Cohort.py].
    The embedded SQL engine is modelled by its tables (lists of rows, in
    row order) and by the statements the two files execute; a Python
    object is modelled by the record of the state its methods read and
    write; a Python exception by the [Raise] outcome of a computation
    that keeps the state reached so far. *)

From Stdlib Require Import ZArith List String Ascii Bool Lia.
From Stdlib Require Import DecimalString DecimalZ Permutation.
Import ListNotations.

#[local] Open Scope string_scope.
#[local] Open Scope Z_scope.

(* ================================================================== *)
(** ** Python outcomes *)

(** The exception classes the two files raise, catch or let through.
    [ConstraintError] and [SQLError] are the engine binding's own
    classes. *)
Inductive exn : Set :=
| NameError | TypeError | ValueError | IOError | OverflowError
| ConstraintError | SQLError | KeyError
| KeyboardInterrupt | SystemExit | GeneratorExit.

(** [isinstance(e, Exception)]: the last three classes derive from
    [BaseException] only. *)
Definition is_Exception (e : exn) : bool :=
  match e with
  | KeyboardInterrupt | SystemExit | GeneratorExit => false
  | _ => true
  end.

Inductive result (A : Type) : Type :=
| Ok (a : A)
| Raise (e : exn).
Arguments Ok {A} a.
Arguments Raise {A} e.

(** The integers that the engine binding takes as a parameter of a
    statement: the signed 64-bit ones.  Binding any other [int] raises
    [OverflowError]. *)
Definition fits_int64 (n : Z) : bool :=
  (- 2 ^ 63 <=? n) && (n <? 2 ^ 63).
Arguments fits_int64 : simpl never.

(* ================================================================== *)
(** ** Text *)

(** The engine's rendering of an INTEGER as text (TEXT affinity applied
    to an integer operand): the canonical decimal numeral. *)
Definition text_of_int (n : Z) : string :=
  NilZero.string_of_int (Z.to_int n).

(** SQLite folds the 26 upper case ASCII letters for [LIKE]. *)
Definition ascii_fold (c : ascii) : ascii :=
  let n := nat_of_ascii c in
  if (Nat.leb 65 n && Nat.leb n 90)%bool then ascii_of_nat (n + 32) else c.

Definition is_percent (c : ascii) : bool := Ascii.eqb c "%"%char.
Definition is_underscore (c : ascii) : bool := Ascii.eqb c "_"%char.

(** [text LIKE pattern] with the engine's defaults: [%] matches any run
    of characters, [_] any one character, every other character matches
    itself up to ASCII case; there is no escape character. *)
Fixpoint like (p t : string) {struct p} : bool :=
  match p with
  | EmptyString => match t with EmptyString => true | String _ _ => false end
  | String c p' =>
      if is_percent c then
        (fix skip (u : string) : bool :=
           like p' u
           || match u with
              | EmptyString => false
              | String _ u' => skip u'
              end) t
      else
        match t with
        | EmptyString => false
        | String d t' =>
            (is_underscore c || Ascii.eqb (ascii_fold c) (ascii_fold d))
            && like p' t'
        end
  end.

(** Case-sensitive literal containment, [s in t] on Python strings. *)
Fixpoint prefix_of (s t : string) : bool :=
  match s, t with
  | EmptyString, _ => true
  | String _ _, EmptyString => false
  | String a s', String b t' => Ascii.eqb a b && prefix_of s' t'
  end.

Fixpoint contains (s t : string) : bool :=
  prefix_of s t
  || match t with
     | EmptyString => false
     | String _ t' => contains s t'
     end.

(** The same, up to ASCII case. *)
Fixpoint prefix_ci (s t : string) : bool :=
  match s, t with
  | EmptyString, _ => true
  | String _ _, EmptyString => false
  | String a s', String b t' =>
      Ascii.eqb (ascii_fold a) (ascii_fold b) && prefix_ci s' t'
  end.

Fixpoint contains_ci (s t : string) : bool :=
  prefix_ci s t
  || match t with
     | EmptyString => false
     | String _ t' => contains_ci s t'
     end.

Fixpoint no_wildcard (s : string) : bool :=
  match s with
  | EmptyString => true
  | String c s' => negb (is_percent c) && negb (is_underscore c) && no_wildcard s'
  end.

(* ================================================================== *)
(** ** What the code takes from outside the two files *)

(** The Python builtins and the engine conversions whose full definition
    lies outside the repository.  [numeric_of_text s = Some n] when the
    engine, applying NUMERIC affinity to the text operand [s] of a
    comparison with an INTEGER column, obtains the integer [n];
    [real_to_text] is TEXT affinity applied to a REAL ([None]: the value
    is stored as NULL); [py_int] and [py_float] are [int(str)] and
    [float(str)] ([None]: [ValueError]); [expanduser] is
    [os.path.expanduser]. *)
Class Environment : Type := {
  float : Type;
  real_to_text : float -> option string;
  py_float : string -> option float;
  py_int : string -> option Z;
  numeric_of_text : string -> option Z;
  expanduser : string -> string;
  py_int_decimal :
    forall n, - 2 ^ 63 <= n < 2 ^ 63 -> py_int (text_of_int n) = Some n
}.

(* ================================================================== *)
(** ** Accession *)

(** Modelled from the spec: the class [Accession] ([minus80/Accession.py])
    is not among the source files.  The two files build it as
    [Accession(name, files=files, **metadata)] and read [.name],
    [.files] and [.metadata.items()]; the spec describes it as a record
    with a unique name, metadata and files.  A metadata value is text,
    or the integer that [__getitem__] stores under the key [AID]. *)
Module Accession.

Inductive mval : Set :=
| MText (s : string)
| MInt (n : Z).

Record t : Set := make {
  name : string;
  files : list string;
  metadata : list (string * mval)
}.

Definition mval_eq_dec (a b : mval) : {a = b} + {a <> b}.
Proof. decide equality; [apply string_dec | apply Z.eq_dec]. Defined.

Definition eq_dec (a b : t) : {a = b} + {a <> b}.
Proof.
  decide equality.
  - apply list_eq_dec. decide equality;
      [apply mval_eq_dec | apply string_dec].
  - apply list_eq_dec, string_dec.
  - apply string_dec.
Defined.

(** TEXT affinity applied to a value: the text that the [val TEXT]
    column keeps for it once it is bound. *)
Definition as_text (v : mval) : string :=
  match v with
  | MText s => s
  | MInt n => text_of_int n
  end.

(** Binding a value for the [val TEXT] column: the binding takes text
    and signed 64-bit integers. *)
Definition stored (v : mval) : result string :=
  match v with
  | MText s => Ok s
  | MInt n => if fits_int64 n then Ok (text_of_int n) else Raise OverflowError
  end.

(** The values that the binding takes. *)
Definition bindable (v : mval) : bool :=
  match v with
  | MText _ => true
  | MInt n => fits_int64 n
  end.

End Accession.

(** Python [dict] as an association list with one entry per key:
    assignment overwrites in place or appends. *)
Fixpoint dict_set {V : Type} (k : string) (v : V) (d : list (string * V))
  : list (string * V) :=
  match d with
  | [] => [(k, v)]
  | (k', v') :: d' =>
      if String.eqb k k' then (k, v) :: d' else (k', v') :: dict_set k v d'
  end.

Fixpoint dict_get {V : Type} (k : string) (d : list (string * V)) : option V :=
  match d with
  | [] => None
  | (k', v') :: d' => if String.eqb k k' then Some v' else dict_get k d'
  end.

(** [{k: v for k, v in rows}] *)
Definition dict_of_rows {V : Type} (rows : list (string * V))
  : list (string * V) :=
  fold_left (fun d kv => dict_set (fst kv) (snd kv) d) rows [].

Definition dict_keys {V : Type} (d : list (string * V)) : list string :=
  map fst d.

(** Two dicts are equal when they bind the same keys to the same values. *)
Definition dict_equal {V : Type} (d1 d2 : list (string * V)) : Prop :=
  forall k, dict_get k d1 = dict_get k d2.

(** Two file lists are equal as sets. *)
Definition same_set (l1 l2 : list string) : Prop :=
  forall x, In x l1 <-> In x l2.

(* ================================================================== *)
(** ** The relational store *)

(** The tables of [db.sqlite], each a list of rows in row order.
    [aid_seq] is the [sqlite_sequence] entry that AUTOINCREMENT keeps for
    [accessions]. *)
Record Database : Type := mkDatabase {
  globals : list (string * option string * string); (* key, val, type *)
  accessions : list (Z * string);                   (* AID, name *)
  aid_seq : Z;
  aliases : list (string * Z);                      (* alias, AID *)
  metadata : list (Z * string * string);            (* AID, key, val *)
  raw_files : list (Z * string);                    (* FID, path *)
  aid_files : list (Z * Z * Z)                      (* AID, FID, verified *)
}.

Definition empty_db : Database := mkDatabase [] [] 0 [] [] [] [].

Definition set_globals g (d : Database) : Database :=
  mkDatabase g (accessions d) (aid_seq d) (aliases d) (metadata d)
    (raw_files d) (aid_files d).
Definition set_aliases a (d : Database) : Database :=
  mkDatabase (globals d) (accessions d) (aid_seq d) a (metadata d)
    (raw_files d) (aid_files d).
Definition set_metadata m (d : Database) : Database :=
  mkDatabase (globals d) (accessions d) (aid_seq d) (aliases d) m
    (raw_files d) (aid_files d).
Definition set_raw_files r (d : Database) : Database :=
  mkDatabase (globals d) (accessions d) (aid_seq d) (aliases d) (metadata d)
    r (aid_files d).

Definition max_list (l : list Z) : Z := fold_right Z.max 0 l.

(** [SELECT AID FROM accessions WHERE name = ?] then [fetchone()]. *)
Definition select_AID_by_name (name : string) (d : Database) : option Z :=
  option_map fst (find (fun r => String.eqb (snd r) name) (accessions d)).

(** [SELECT AID FROM aliases WHERE alias = ?] then [fetchone()]. *)
Definition select_AID_by_alias (alias : string) (d : Database) : option Z :=
  option_map snd (find (fun r => String.eqb (fst r) alias) (aliases d)).

(** [SELECT AID FROM accessions WHERE AID = ?] then [fetchone()]. *)
Definition select_AID_by_AID (n : Z) (d : Database) : option Z :=
  option_map fst (find (fun r => Z.eqb (fst r) n) (accessions d)).

(** [SELECT name FROM accessions WHERE AID = ?] then [fetchone()]. *)
Definition select_name_by_AID (n : Z) (d : Database) : option string :=
  option_map snd (find (fun r => Z.eqb (fst r) n) (accessions d)).

(** [SELECT key, val FROM metadata WHERE AID = ?] *)
Definition select_metadata (n : Z) (d : Database) : list (string * string) :=
  map (fun r => (snd (fst r), snd r))
      (filter (fun r => Z.eqb (fst (fst r)) n) (metadata d)).

(** [SELECT val, AID FROM metadata WHERE key = ?] *)
Definition select_column (key : string) (d : Database) : list (string * Z) :=
  map (fun r => (snd r, fst (fst r)))
      (filter (fun r => String.eqb (snd (fst r)) key) (metadata d)).

(** The view [files]: [aid_files JOIN raw_files ON aid_files.FID =
    raw_files.FID], and [SELECT path FROM files WHERE AID = ?]. *)
Definition select_files (n : Z) (d : Database) : list string :=
  flat_map
    (fun l =>
       if Z.eqb (fst (fst l)) n then
         map snd (filter (fun r => Z.eqb (fst r) (snd (fst l))) (raw_files d))
       else [])
    (aid_files d).

(** [INSERT OR IGNORE INTO accessions (name) VALUES (?)]: a name already
    present is left alone; a new one takes the next AUTOINCREMENT id. *)
Definition insert_or_ignore_accession (name : string) (d : Database)
  : Database :=
  if existsb (fun r => String.eqb (snd r) name) (accessions d) then d
  else
    let aid := 1 + Z.max (aid_seq d) (max_list (map fst (accessions d))) in
    mkDatabase (globals d) (accessions d ++ [(aid, name)]) aid (aliases d)
      (metadata d) (raw_files d) (aid_files d).

Definition metadata_row_eqb (r1 r2 : Z * string * string) : bool :=
  Z.eqb (fst (fst r1)) (fst (fst r2))
  && String.eqb (snd (fst r1)) (snd (fst r2))
  && String.eqb (snd r1) (snd r2).

(** [INSERT OR REPLACE INTO metadata (AID, key, val) VALUES (?, ?, ?)]:
    the table is UNIQUE(AID, key, val), so only an identical row is
    replaced. *)
Definition insert_or_replace_metadata (row : Z * string * string)
  (d : Database) : Database :=
  set_metadata
    (filter (fun r => negb (metadata_row_eqb r row)) (metadata d) ++ [row]) d.

(** [INSERT OR IGNORE INTO raw_files (path) VALUES (?)] *)
Definition insert_or_ignore_raw_file (path : string) (d : Database)
  : Database :=
  if existsb (fun r => String.eqb (snd r) path) (raw_files d) then d
  else
    set_raw_files
      (raw_files d ++ [(1 + max_list (map fst (raw_files d)), path)]) d.

(** [INSERT INTO aliases (alias, AID) VALUES (?, ?)]: [alias] is UNIQUE. *)
Definition insert_alias (row : string * Z) (d : Database) : result Database :=
  if existsb (fun r => String.eqb (fst r) (fst row)) (aliases d)
  then Raise ConstraintError
  else Ok (set_aliases (aliases d ++ [row]) d).

(** [DELETE FROM accessions WHERE AID = ?; DELETE FROM metadata WHERE
    AID = ?; DELETE FROM aid_files WHERE AID = ?;] *)
Definition delete_accession (n : Z) (d : Database) : Database :=
  mkDatabase (globals d)
    (filter (fun r => negb (Z.eqb (fst r) n)) (accessions d))
    (aid_seq d)
    (aliases d)
    (filter (fun r => negb (Z.eqb (fst (fst r)) n)) (metadata d))
    (raw_files d)
    (filter (fun r => negb (Z.eqb (fst (fst r)) n)) (aid_files d)).

(** [INSERT OR REPLACE INTO globals (key, val, type) VALUES (?, ?, ?)]
    under the unique index on [key]. *)
Definition upsert_global (row : string * option string * string)
  (d : Database) : Database :=
  set_globals
    (filter (fun r => negb (String.eqb (fst (fst r)) (fst (fst row))))
            (globals d) ++ [row]) d.

(** [SELECT type, val FROM globals WHERE key = ?] then [fetchone()]. *)
Definition select_global (key : string) (d : Database)
  : option (string * option string) :=
  option_map (fun r => (snd r, snd (fst r)))
    (find (fun r => String.eqb (fst (fst r)) key) (globals d)).

(* ================================================================== *)
(** ** The columnar store *)

Inductive cell : Set :=
| CInt (n : Z)
| CText (s : string).

Record column : Set := mkColumn {
  cname : string;
  cdtype : string;
  cvalues : list cell
}.

(** A pandas DataFrame: its index (values, dtype, name) and its columns. *)
Module DataFrame.

Record t : Set := make {
  index : list cell;
  index_dtype : string;
  index_name : option string;
  columns : list column
}.

(** [df.empty]: some axis has length zero. *)
Definition empty (df : t) : bool :=
  match index df, columns df with
  | [], _ | _, [] => true
  | _, _ => false
  end.

(** [pd.DataFrame()] *)
Definition new : t := make [] "object" None [].

Definition has_column (n : string) (df : t) : bool :=
  existsb (fun c => String.eqb (cname c) n) (columns df).

(** [df[n] = values]: overwrite the column in place, or append it. *)
Fixpoint assign (c : column) (cols : list column) : list column :=
  match cols with
  | [] => [c]
  | c' :: cols' =>
      if String.eqb (cname c') (cname c) then c :: cols'
      else c' :: assign c cols'
  end.

(** [df.set_index(n, drop=True, inplace=True)] then
    [df.index.name = None]. *)
Definition set_index_unnamed (n : string) (df : t) : t :=
  match find (fun c => String.eqb (cname c) n) (columns df) with
  | Some c =>
      make (cvalues c) (cdtype c) None
        (filter (fun c' => negb (String.eqb (cname c') n)) (columns df))
  | None => df
  end.

End DataFrame.

(** What bcolz keeps under a root directory: the zero-length [int32]
    carray written by [bcz.fromiter((), ..., count=0)], or the ctable
    written by [bcz.ctable.fromdataframe], which keeps the columns of
    the frame and not its index. *)
Inductive payload : Set :=
| EmptyCarray
| CTable (cols : list column).

(** [len(payload)] *)
Definition payload_len (p : payload) : nat :=
  match p with
  | EmptyCarray => 0
  | CTable [] => 0
  | CTable (c :: _) => List.length (cvalues c)
  end.

(** [ctable.todataframe()]: the columns under a fresh [0 .. n-1] index. *)
Definition todataframe (p : payload) : DataFrame.t :=
  match p with
  | EmptyCarray => DataFrame.new
  | CTable cols =>
      DataFrame.make
        (map (fun i => CInt (Z.of_nat i)) (seq 0 (payload_len p)))
        "int64" None cols
  end.

(** [os.path.join(a, b)] *)
Definition starts_with_slash (s : string) : bool :=
  match s with
  | String c _ => Ascii.eqb c "/"%char
  | EmptyString => false
  end.

Fixpoint ends_with_slash (s : string) : bool :=
  match s with
  | EmptyString => false
  | String c EmptyString => Ascii.eqb c "/"%char
  | String _ s' => ends_with_slash s'
  end.

Definition path_join (a b : string) : string :=
  if starts_with_slash b then b
  else if (String.eqb a "" || ends_with_slash a)%bool then a ++ b
  else a ++ "/" ++ b.

(* ================================================================== *)
(** ** The object *)

(** What [_get_AID] accepts: a name or an alias, an AID, an Accession. *)
Inductive ident : Set :=
| IStr (s : string)
| IInt (n : Z)
| IAcc (a : Accession.t).

Definition ident_eq_dec (a b : ident) : {a = b} + {a <> b}.
Proof.
  decide equality;
    [apply string_dec | apply Z.eq_dec | apply Accession.eq_dec].
Defined.

(** The transaction-control statements of [bulk_transaction]. *)
Inductive stmt : Set :=
| PragmaSynchronousOff
| PragmaJournalMemory
| Savepoint
| RollbackTo
| Release.

Definition stmt_eq_dec (a b : stmt) : {a = b} + {a <> b}.
Proof. decide equality. Defined.

(** The state a [Cohort] instance reads and writes: the attributes that
    [Freezable.__init__] sets, the connection [_db] (the tables, the open
    save-points named [bulk_transaction], innermost first, and the
    transaction-control statements executed so far), the columnar
    subtree on disk, the [lru_cache] of [_get_AID], most recent first,
    and the warnings logged.

    [_m80_type] is read by [_get_dbpath] and [_bcolz]; no statement of
    the source files assigns it ([__init__] assigns [_m80_dtype]), so it
    is a field of its own. *)
Record Cohort : Type := mkCohort {
  _m80_name : string;
  _m80_dtype : string;
  _m80_type : string;
  _basedir : string;
  _db : Database;
  savepoints : list Database;
  executed : list stmt;
  bcolz : list (string * payload);
  cache : list (ident * Z);
  warnings : list string
}.

Definition with_db (d : Database) (c : Cohort) : Cohort :=
  mkCohort (_m80_name c) (_m80_dtype c) (_m80_type c) (_basedir c) d
    (savepoints c) (executed c) (bcolz c) (cache c) (warnings c).
Definition with_savepoints (s : list Database) (c : Cohort) : Cohort :=
  mkCohort (_m80_name c) (_m80_dtype c) (_m80_type c) (_basedir c) (_db c)
    s (executed c) (bcolz c) (cache c) (warnings c).
Definition with_executed (x : list stmt) (c : Cohort) : Cohort :=
  mkCohort (_m80_name c) (_m80_dtype c) (_m80_type c) (_basedir c) (_db c)
    (savepoints c) x (bcolz c) (cache c) (warnings c).
Definition with_bcolz (b : list (string * payload)) (c : Cohort) : Cohort :=
  mkCohort (_m80_name c) (_m80_dtype c) (_m80_type c) (_basedir c) (_db c)
    (savepoints c) (executed c) b (cache c) (warnings c).
Definition with_cache (k : list (ident * Z)) (c : Cohort) : Cohort :=
  mkCohort (_m80_name c) (_m80_dtype c) (_m80_type c) (_basedir c) (_db c)
    (savepoints c) (executed c) (bcolz c) k (warnings c).
Definition with_warnings (w : list string) (c : Cohort) : Cohort :=
  mkCohort (_m80_name c) (_m80_dtype c) (_m80_type c) (_basedir c) (_db c)
    (savepoints c) (executed c) (bcolz c) (cache c) w.

(** [Cohort(name)] under the configured base directory, over a store
    that holds the tables [d]. *)
Definition open_cohort (basedir name m80type : string) (d : Database)
  : Cohort :=
  mkCohort name "Cohort" m80type
    (path_join (path_join basedir "databases") ("Cohort." ++ name)) d
    [] [] [] [] [].

(** A method: the state it leaves and what it returns or raises. *)
Definition M (A : Type) : Type := Cohort -> Cohort * result A.

Definition ret {A : Type} (a : A) : M A := fun c => (c, Ok a).
Definition raise {A : Type} (e : exn) : M A := fun c => (c, Raise e).

Definition bind {A B : Type} (m : M A) (f : A -> M B) : M B :=
  fun c =>
    match m c with
    | (c', Ok a) => f a c'
    | (c', Raise e) => (c', Raise e)
    end.

Notation "x <- m ;; k" := (bind m (fun x => k))
  (at level 61, m at next level, right associativity).
Notation "m ;; k" := (bind m (fun _ => k))
  (at level 61, right associativity).

Definition get_db : M Database := fun c => (c, Ok (_db c)).
Definition modify_db (f : Database -> Database) : M unit :=
  fun c => (with_db (f (_db c)) c, Ok tt).
Definition warning (msg : string) : M unit :=
  fun c => (with_warnings (warnings c ++ [msg]) c, Ok tt).

(** [try: m  except Exception as e: h e] *)
Definition try_except_Exception {A : Type} (m : M A) (h : exn -> M A) : M A :=
  fun c =>
    match m c with
    | (c', Ok a) => (c', Ok a)
    | (c', Raise e) => if is_Exception e then h e c' else (c', Raise e)
    end.

(** [try: m  finally: f] *)
Definition try_finally {A : Type} (m : M A) (f : M unit) : M A :=
  fun c =>
    match m c with
    | (c', r) =>
        match f c' with
        | (c'', Ok _) => (c'', r)
        | (c'', Raise e) => (c'', Raise e)
        end
    end.

(** [for x in l: f x] *)
Fixpoint for_each {A : Type} (f : A -> M unit) (l : list A) : M unit :=
  match l with
  | [] => ret tt
  | x :: l' => f x ;; for_each f l'
  end.

(* ================================================================== *)
(** ** Freezable *)

(** [cur.execute] of a transaction-control statement.  With a
    save-point open the connection is inside a transaction, where the
    engine refuses to change the safety level: [PRAGMA synchronous]
    raises [SQLError]. *)
Definition execute (s : stmt) : M unit :=
  fun c =>
    let done c' := (with_executed (executed c ++ [s]) c', Ok tt) in
    match s with
    | PragmaSynchronousOff =>
        match savepoints c with
        | [] => done c
        | _ :: _ => (c, Raise SQLError)
        end
    | PragmaJournalMemory => done c
    | Savepoint => done (with_savepoints (_db c :: savepoints c) c)
    | RollbackTo =>
        match savepoints c with
        | [] => (c, Raise SQLError)
        | d :: _ => done (with_db d c)
        end
    | Release =>
        match savepoints c with
        | [] => (c, Raise SQLError)
        | _ :: sp => done (with_savepoints sp c)
        end
    end.

(** [Freezable.bulk_transaction], a [@contextmanager]; [body] is the
    block under [with]. *)
Definition bulk_transaction {A : Type} (body : M A) : M A :=
  execute PragmaSynchronousOff ;;
  execute PragmaJournalMemory ;;
  execute Savepoint ;;
  try_finally
    (try_except_Exception body
       (fun e => execute RollbackTo ;; raise e))
    (execute Release).

(** Modelled from the spec: [Cohort] enters its transactions through
    [self._bulk_transaction()], a name that no source file defines
    ([Freezable.py] defines [bulk_transaction]).  The spec has the add
    operations wrap themselves "in the same transaction primitive", the
    scoped bulk transaction of the relational store. *)
Definition _bulk_transaction {A : Type} (body : M A) : M A :=
  bulk_transaction body.

(** [Freezable._get_dbpath(extension)], both keywords left at [None]. *)
Definition _get_dbpath `{Environment} (extension : string) (c : Cohort)
  : string :=
  expanduser
    (path_join
       (path_join (_basedir c) (_m80_type c ++ "." ++ _m80_name c))
       extension).

Section Freezable.
Context `{Env : Environment}.

(** A value handed to the key-value store: an [int], a [float], a
    [str], or an object of another class, given by the dotted name that
    [str(object.__class__)] shows. *)
Inductive pyval : Type :=
| PyInt (n : Z)
| PyFloat (f : float)
| PyStr (s : string)
| PyObj (cls : string).

Definition class_name (v : pyval) : string :=
  match v with
  | PyInt _ => "int"
  | PyFloat _ => "float"
  | PyStr _ => "str"
  | PyObj cls => cls
  end.

(** [s.split('.')[-1]] *)
Fixpoint last_component (s : string) : string :=
  match s with
  | EmptyString => EmptyString
  | String c s' =>
      if contains "." s' then last_component s'
      else if Ascii.eqb c "."%char then s'
      else String c s'
  end.

(** [Freezable.guess_type] *)
Definition guess_type (object : pyval) : string :=
  last_component (class_name object).

(** Binding [val] for the [val TEXT] column of [globals]: the binding
    takes signed 64-bit integers, reals and text; TEXT affinity then
    turns a number into its text. *)
Definition bind_val (v : pyval) : result (option string) :=
  match v with
  | PyInt n =>
      if ((- 2 ^ 63 <=? n) && (n <? 2 ^ 63))%bool
      then Ok (Some (text_of_int n))
      else Raise OverflowError
  | PyFloat f => Ok (real_to_text f)
  | PyStr s => Ok (Some s)
  | PyObj _ => Raise TypeError
  end.

(** [int(value)], [float(value)], [str(value)] on a fetched column. *)
Definition decode (valtype : string) (value : option string)
  : result (option pyval) :=
  if String.eqb valtype "int" then
    match value with
    | None => Raise TypeError
    | Some t =>
        match py_int t with
        | Some n => Ok (Some (PyInt n))
        | None => Raise ValueError
        end
    end
  else if String.eqb valtype "float" then
    match value with
    | None => Raise TypeError
    | Some t =>
        match py_float t with
        | Some f => Ok (Some (PyFloat f))
        | None => Raise ValueError
        end
    end
  else if String.eqb valtype "str" then
    match value with
    | None => Ok (Some (PyStr "None"))
    | Some t => Ok (Some (PyStr t))
    end
  else Ok None.

Definition lift {A : Type} (r : result A) : M A := fun c => (c, r).

(** [Freezable._dict(key, val=None)]; the result is what the call
    returns, [None] included. *)
Definition _dict (key : string) (val : option pyval) : M (option pyval) :=
  fun c =>
    let body : M (option pyval) :=
      match val with
      | Some v =>
          let val_type := guess_type v in
          if negb (existsb (String.eqb val_type) ["int"; "float"; "str"])
          then raise TypeError
          else
            t <- lift (bind_val v) ;;
            modify_db (upsert_global (key, t, val_type)) ;;
            ret None
      | None =>
          d <- get_db ;;
          match select_global key d with
          | None => raise TypeError
          | Some (valtype, value) => lift (decode valtype value)
          end
      end
    in
    match body c with
    | (c', Raise TypeError) => (c', Raise ValueError)
    | other => other
    end.

(** [Freezable._bcolz(tblname, df=None)] with [blaze=False]: the
    getter when [df] is [None], the setter otherwise. *)
Definition _bcolz (tblname : string) (df : option DataFrame.t)
  : M (option DataFrame.t) :=
  fun c =>
    let path := _get_dbpath "bcz" c in
    match df with
    | None =>
        match
          find (fun e => String.eqb (fst e) (path_join path tblname))
               (bcolz c)
        with
        | None => (c, Raise IOError)
        | Some (_, p) =>
            let df :=
              if Nat.eqb (payload_len p) 0 then DataFrame.new
              else todataframe p in
            let df :=
              if DataFrame.has_column "idx" df
              then DataFrame.set_index_unnamed "idx" df
              else df in
            (c, Ok (Some df))
        end
    | Some df =>
        let df :=
          if (negb (String.eqb (DataFrame.index_dtype df) "int64")
              && negb (DataFrame.empty df))%bool
          then
            DataFrame.make (DataFrame.index df) (DataFrame.index_dtype df)
              (DataFrame.index_name df)
              (DataFrame.assign
                 (mkColumn "idx" (DataFrame.index_dtype df)
                    (DataFrame.index df))
                 (DataFrame.columns df))
          else df in
        let path := path_join path tblname in
        let p :=
          if DataFrame.empty df then EmptyCarray
          else CTable (DataFrame.columns df) in
        (with_bcolz
           ((path, p)
              :: filter (fun e => negb (String.eqb (fst e) path)) (bcolz c))
           c,
         Ok None)
    end.

End Freezable.

(* ================================================================== *)
(** ** Cohort *)

(** [functools.lru_cache(maxsize=32768)]: a hit becomes the most recent
    entry; a miss that returns is stored, evicting the least recent
    entry of a full cache; a call that raises stores nothing. *)
Definition cache_maxsize : Z := 32768.

Definition cache_find (i : ident) (k : list (ident * Z)) : option Z :=
  option_map snd
    (find (fun e => if ident_eq_dec (fst e) i then true else false) k).

Definition cache_remove (i : ident) (k : list (ident * Z))
  : list (ident * Z) :=
  filter (fun e => if ident_eq_dec (fst e) i then false else true) k.

Definition cache_touch (i : ident) (a : Z) (k : list (ident * Z))
  : list (ident * Z) :=
  (i, a) :: cache_remove i k.

Definition cache_store (i : ident) (a : Z) (k : list (ident * Z))
  : list (ident * Z) :=
  if Z.of_nat (List.length k) <? cache_maxsize then (i, a) :: k
  else (i, a) :: removelast k.

(** [invalidates_cache]: run the method, then [cache_clear()]. *)
Definition invalidates_cache {A : Type} (fn : M A) : M unit :=
  fn ;; (fun c => (with_cache [] c, Ok tt)).

(** [Cohort.search_names] *)
Definition search_names (name : string) (c : Cohort) : list string :=
  let name := "%" ++ name ++ "%" in
  let names := filter (like name) (map snd (accessions (_db c))) in
  let aliases := filter (like name) (map fst (aliases (_db c))) in
  names ++ aliases.

(** The property [Cohort.names] *)
Definition names (c : Cohort) : list string := search_names "%" c.

(** [Cohort.__len__] *)
Definition __len__ (c : Cohort) : Z :=
  Z.of_nat (List.length (accessions (_db c))).

(** [Counter(l)]: the count of each element, in order of first
    occurrence. *)
Definition Counter (l : list string) : list (string * Z) :=
  fold_left
    (fun d k =>
       dict_set k (1 + match dict_get k d with Some n => n | None => 0 end) d)
    l [].

Section Catalog.
Context `{Env : Environment}.

(** The body of [Cohort._get_AID]: by name, then by alias, then by
    AID.  The [name] column has no declared type and holds text, so an
    integer operand matches no name; [alias] is TEXT, so an integer
    operand is compared as its text; [AID] is INTEGER, so a text
    operand is compared as the number it converts to, if any.  An
    [int] outside 64 bits is not bound: the first query raises
    [OverflowError], which no [except TypeError] catches. *)
Definition get_AID_body (name : ident) (d : Database) : result Z :=
  let name :=
    match name with
    | IAcc a => IStr (Accession.name a)
    | other => other
    end in
  let by_name :=
    match name with
    | IStr s => select_AID_by_name s d
    | _ => None
    end in
  let by_alias :=
    match name with
    | IStr s => select_AID_by_alias s d
    | IInt n => select_AID_by_alias (text_of_int n) d
    | IAcc _ => None
    end in
  let by_AID :=
    match name with
    | IStr s =>
        match numeric_of_text s with
        | Some n => select_AID_by_AID n d
        | None => None
        end
    | IInt n => select_AID_by_AID n d
    | IAcc _ => None
    end in
  let bound :=
    match name with
    | IInt n => fits_int64 n
    | _ => true
    end in
  if bound then
    match by_name with
    | Some aid => Ok aid
    | None =>
        match by_alias with
        | Some aid => Ok aid
        | None =>
            match by_AID with
            | Some aid => Ok aid
            | None => Raise NameError
            end
        end
    end
  else Raise OverflowError.

(** The identifiers that the binding takes. *)
Definition bound (name : ident) : bool :=
  match name with
  | IInt n => fits_int64 n
  | _ => true
  end.

(** [Cohort._get_AID] under its [lru_cache]. *)
Definition _get_AID (name : ident) : M Z :=
  fun c =>
    match cache_find name (cache c) with
    | Some aid => (with_cache (cache_touch name aid (cache c)) c, Ok aid)
    | None =>
        match get_AID_body name (_db c) with
        | Ok aid =>
            (with_cache (cache_store name aid (cache c)) c, Ok aid)
        | Raise e => (c, Raise e)
        end
    end.

(** [Cohort.__getitem__].  Unpacking [fetchone()] raises [TypeError]
    when no row has the AID; so does the call of [Accession] when a
    metadata key repeats one of its own keywords. *)
Definition __getitem__ (name : ident) : M Accession.t :=
  AID <- _get_AID name ;;
  d <- get_db ;;
  match select_name_by_AID AID d with
  | None => raise TypeError
  | Some name =>
      let metadata :=
        dict_of_rows
          (map (fun kv => (fst kv, Accession.MText (snd kv)))
               (select_metadata AID d)) in
      let metadata := dict_set "AID" (Accession.MInt AID) metadata in
      let files := select_files AID d in
      if existsb (fun k => String.eqb k "name" || String.eqb k "files")
           (dict_keys metadata)
      then raise TypeError
      else ret (Accession.make name files metadata)
  end.

(** [Cohort.__delitem__], decorated with [invalidates_cache]. *)
Definition __delitem__ (name : ident) : M unit :=
  invalidates_cache
    (AID <- _get_AID name ;;
     modify_db (delete_accession AID)).

(** [Cohort.drop_aliases], decorated with [invalidates_cache]. *)
Definition drop_aliases : M unit :=
  invalidates_cache (modify_db (set_aliases [])).

(** [Cohort.__contains__] *)
Definition __contains__ (item : ident) : M bool :=
  fun c =>
    let name :=
      match item with
      | IAcc a => IStr (Accession.name a)
      | other => other
      end in
    match _get_AID name c with
    | (c', Ok _) => (c', Ok true)
    | (c', Raise NameError) => (c', Ok false)
    | (c', Raise e) => (c', Raise e)
    end.

(** [Cohort.add_accession].  [executemany] binds and runs the rows one
    after the other. *)
Definition add_accession (accession : Accession.t) : M Accession.t :=
  _bulk_transaction
    (modify_db (insert_or_ignore_accession (Accession.name accession)) ;;
     AID <- _get_AID (IAcc accession) ;;
     for_each
       (fun kv =>
          val <- lift (Accession.stored (snd kv)) ;;
          modify_db (insert_or_replace_metadata (AID, fst kv, val)))
       (Accession.metadata accession) ;;
     for_each
       (fun file => modify_db (insert_or_ignore_raw_file file))
       (Accession.files accession)) ;;
  __getitem__ (IAcc accession).

(** [Cohort.alias_column] *)
Definition alias_column (colname : string) (min_alias_length : Z)
  : M unit :=
  fun c =>
    let cur_names := names c in
    _bulk_transaction
      (d <- get_db ;;
       let alias_dict := dict_of_rows (select_column colname d) in
       let alias_counts := Counter (dict_keys alias_dict) in
       unique_aliases <-
         fold_left
           (fun (acc : M (list (string * Z))) (item : string * Z) =>
              unique_aliases <- acc ;;
              let (alias, count) := item in
              if (1 <? count)
                 || existsb (String.eqb alias) cur_names
              then
                warning ("Cannot use " ++ alias ++ " as it is not unique") ;;
                ret unique_aliases
              else if Z.of_nat (String.length alias) <? min_alias_length
              then
                warning ("Skipping " ++ alias ++ " as it is too short (<"
                           ++ text_of_int min_alias_length ++ ")") ;;
                ret unique_aliases
              else
                match dict_get alias alias_dict with
                | Some aid => ret (unique_aliases ++ [(alias, aid)])%list
                | None => raise KeyError
                end)
           alias_counts (ret []) ;;
       for_each
         (fun row =>
            d <- get_db ;;
            d' <- lift (insert_alias row d) ;;
            modify_db (fun _ => d'))
         unique_aliases)
      c.

(** [Cohort.random_accession]; [r] stands for the draw of
    [ORDER BY RANDOM() LIMIT 1].  [fetchone()[0]] raises [TypeError]
    on an empty table. *)
Definition random_accession (r : nat) : M Accession.t :=
  d <- get_db ;;
  match accessions d with
  | [] => raise TypeError
  | row :: rows =>
      let name :=
        snd (nth (Nat.modulo r (List.length (row :: rows)))
               (row :: rows) row) in
      __getitem__ (IStr name)
  end.

(** The rows of [ORDER BY RANDOM()], the draws taken from [rnd]. *)
Fixpoint shuffle {A : Type} (rnd : nat -> nat) (k fuel : nat) (l : list A)
  : list A :=
  match fuel, l with
  | S fuel', x :: _ =>
      let i := Nat.modulo (rnd k) (List.length l) in
      nth i l x :: shuffle rnd (S k) fuel' (firstn i l ++ skipn (S i) l)
  | _, _ => []
  end.

(** [LIMIT n]: a negative [n] is no limit. *)
Definition limit {A : Type} (n : Z) (l : list A) : list A :=
  if n <? 0 then l else firstn (Z.to_nat n) l.

(** [Cohort.random_accessions].  What it returns is a generator: the
    accessions are fetched when the caller iterates it; the query of
    the first branch is run, and [n] bound to its [LIMIT ?], when the
    generator is made. *)
Definition random_accessions (rnd : nat -> nat) (n : Z) (replace : bool)
  : M (list (M Accession.t)) :=
  fun c =>
    if negb replace then
      if __len__ c <? n then (c, Raise ValueError)
      else if negb (fits_int64 n) then (c, Raise OverflowError)
      else
        let rows :=
          limit n
            (shuffle rnd 0 (List.length (accessions (_db c)))
               (map snd (accessions (_db c)))) in
        (c, Ok (map (fun name => __getitem__ (IStr name)) rows))
    else
      (c, Ok (map (fun k => random_accession (rnd k))
                  (seq 0 (Z.to_nat n)))).

(** [list(generator)] *)
Fixpoint consume {A : Type} (g : list (M A)) : M (list A) :=
  match g with
  | [] => ret []
  | m :: g' => x <- m ;; xs <- consume g' ;; ret (x :: xs)
  end.

End Catalog.

(* ================================================================== *)
(** ** A reference environment *)

(** Decimal integer numerals: an optional minus sign and digits. *)
Definition decimal_of_text (s : string) : option Z :=
  option_map Z.of_int (NilZero.int_of_string s).

(** [s] without a final [".0"], if it has one. *)
Fixpoint strip_point_zero (s : string) : option string :=
  match s with
  | EmptyString => None
  | String c s' =>
      if String.eqb s ".0" then Some EmptyString
      else option_map (String c) (strip_point_zero s')
  end.

(** An environment to run the model in: texts convert to numbers when
    they are decimal integer numerals, and the floats are those of
    integral value, written [n.0]. *)
Definition reference_env : Environment.
Proof.
  refine
    {| float := Z;
       real_to_text := fun z => Some (text_of_int z ++ ".0");
       py_float := fun s =>
         match strip_point_zero s with
         | Some t => decimal_of_text t
         | None => None
         end;
       py_int := decimal_of_text;
       numeric_of_text := decimal_of_text;
       expanduser := fun s => s;
       py_int_decimal := _ |}.
  intros n _. unfold decimal_of_text, text_of_int.
  assert (Hnil : forall p, Pos.to_uint p <> Decimal.Nil).
  { intros p H. pose proof (DecimalPos.Unsigned.of_to p) as E.
    rewrite H in E. discriminate E. }
  rewrite NilZero.isi.
  - simpl. now rewrite DecimalZ.of_to.
  - destruct n; simpl; try discriminate.
    intros [= H]. now apply Hnil in H.
  - destruct n; simpl; try discriminate.
    intros [= H]. now apply Hnil in H.
Defined.

(* ================================================================== *)
(** ** The vocabulary of the properties *)

(** The state in which the block under [with] starts, when it is
    entered: the three statements before it have run. *)
Definition entered (c : Cohort) : Cohort :=
  with_executed
    (executed c ++ [PragmaSynchronousOff; PragmaJournalMemory; Savepoint])
    (with_savepoints (_db c :: savepoints c) c).

(** The search as the spec words it: the names, then the aliases, that
    contain the substring literally and case-sensitively. *)
Definition search_names_spec (s : string) (c : Cohort) : list string :=
  filter (contains s) (map snd (accessions (_db c)))
  ++ filter (contains s) (map fst (aliases (_db c))).

(** A catalog that holds the accession [S1]. *)
Definition cohort_S1 : Cohort :=
  open_cohort "" "c" "Cohort"
    (mkDatabase [] [(1, "S1")] 1 [] [(1, "age", "23")] [] []).

(** The index that [todataframe] gives a table of [n] rows. *)
Definition default_index (n : nat) : list cell :=
  map (fun i => CInt (Z.of_nat i)) (seq 0 n).

(** Every column of a frame is as long as its index. *)
Definition well_formed (d : DataFrame.t) : Prop :=
  Forall (fun col => List.length (cvalues col) = List.length (DataFrame.index d))
         (DataFrame.columns d).

(** The frames that the store gives back as they were: not empty, no
    column named [idx], an unnamed index that is either not of dtype
    [int64] or the default one. *)
Definition index_preserving (d : DataFrame.t) : Prop :=
  well_formed d
  /\ DataFrame.empty d = false
  /\ DataFrame.has_column "idx" d = false
  /\ DataFrame.index_name d = None
  /\ (DataFrame.index_dtype d <> "int64"
      \/ DataFrame.index d = default_index (List.length (DataFrame.index d))).

(** The payload that the setter writes for a frame. *)
Definition stored_payload (d : DataFrame.t) : payload :=
  if DataFrame.empty d then EmptyCarray
  else if String.eqb (DataFrame.index_dtype d) "int64"
       then CTable (DataFrame.columns d)
       else CTable
              (DataFrame.assign
                 (mkColumn "idx" (DataFrame.index_dtype d) (DataFrame.index d))
                 (DataFrame.columns d)).

(** What the getter makes of a payload. *)
Definition loaded_frame (p : payload) : DataFrame.t :=
  let df := if Nat.eqb (payload_len p) 0 then DataFrame.new else todataframe p in
  if DataFrame.has_column "idx" df
  then DataFrame.set_index_unnamed "idx" df
  else df.

(** A frame indexed by strings, and a frame with an [int64] index that
    is not the default one. *)
Definition frame_by_name : DataFrame.t :=
  DataFrame.make [CText "a"; CText "b"] "object" None
    [mkColumn "x" "int64" [CInt 1; CInt 2]].

Definition frame_by_number : DataFrame.t :=
  DataFrame.make [CInt 10; CInt 20] "int64" None
    [mkColumn "x" "int64" [CInt 1; CInt 2]].

(** The schema's keys on [accessions]: [AID] is the primary key and
    [name] is UNIQUE. *)
Definition accessions_keyed (d : Database) : Prop :=
  NoDup (map fst (accessions d)) /\ NoDup (map snd (accessions d)).

(** [_get_AID] changes the cache and nothing else. *)
Definition same_but_cache (c c' : Cohort) : Prop :=
  exists k, c' = with_cache k c.

(** A catalog with the Accession [S1], AID 1, and its alias [23]. *)
Definition cohort_S1_aliased : Cohort :=
  open_cohort "" "c" "Cohort"
    (mkDatabase [] [(1, "S1")] 1 [("23", 1)] [(1, "age", "23")] [] []).

(** The AID that AUTOINCREMENT gives the next new name. *)
Definition next_AID (d : Database) : Z :=
  1 + Z.max (aid_seq d) (max_list (map fst (accessions d))).

(** No metadata row carries an AID that was never assigned. *)
Definition metadata_assigned (d : Database) : Prop :=
  forall r, In r (metadata d) -> fst (fst r) < next_AID d.

(** The rows that [add_accession] writes for the metadata of an
    Accession, and the metadata that [__getitem__] builds from them. *)
Definition metadata_rows (aid : Z) (m : list (string * Accession.mval))
  : list (Z * string * string) :=
  map (fun kv => (aid, fst kv, Accession.as_text (snd kv))) m.

Definition metadata_read (aid : Z) (m : list (string * Accession.mval))
  : list (string * Accession.mval) :=
  (map (fun kv => (fst kv, Accession.MText (Accession.as_text (snd kv)))) m
   ++ [("AID", Accession.MInt aid)])%list.

(** The tables after the block of [add_accession], when every metadata
    value was bound. *)
Definition added (accession : Accession.t) (aid : Z) (d : Database)
  : Database :=
  fold_left (fun d file => insert_or_ignore_raw_file file d)
    (Accession.files accession)
    (fold_left
       (fun d kv =>
          insert_or_replace_metadata
            (aid, fst kv, Accession.as_text (snd kv)) d)
       (Accession.metadata accession)
       (insert_or_ignore_accession (Accession.name accession) d)).

(** Every metadata value of the dict is one that the binding takes. *)
Definition all_bindable (m : list (string * Accession.mval)) : bool :=
  forallb (fun kv => Accession.bindable (snd kv)) m.

(** What [__getitem__] builds once the AID is known. *)
Definition accession_of (AID : Z) (d : Database) : result Accession.t :=
  match select_name_by_AID AID d with
  | None => Raise TypeError
  | Some name =>
      let metadata :=
        dict_set "AID" (Accession.MInt AID)
          (dict_of_rows
             (map (fun kv => (fst kv, Accession.MText (snd kv)))
                (select_metadata AID d))) in
      if existsb (fun k => String.eqb k "name" || String.eqb k "files")
           (dict_keys metadata)
      then Raise TypeError
      else Ok (Accession.make name (select_files AID d) metadata)
  end.

(** The keywords that the call of [Accession] passes itself, and the
    key that [__getitem__] sets. *)
Definition free_keys (m : list (string * Accession.mval)) : Prop :=
  forall k, In k (map fst m) -> k <> "name" /\ k <> "files" /\ k <> "AID".

(** The state after the block of [add_accession], before the final
    [self[accession]]. *)
Definition after_block (accession : Accession.t) (c : Cohort) : Cohort :=
  with_executed
    (executed c
     ++ [PragmaSynchronousOff; PragmaJournalMemory; Savepoint; Release])
    (with_cache (cache_store (IAcc accession) (next_AID (_db c)) (cache c))
       (with_db (added accession (next_AID (_db c)) (_db c)) c)).

(** The Accession of the spec's scenario. *)
Definition accession_S1 : Accession.t :=
  Accession.make "S1" ["a.fastq"] [("age", Accession.MText "23")].

(** No metadata key repeats a keyword of the call of [Accession], so
    every Accession of the catalog can be built. *)
Definition readable (d : Database) : Prop :=
  forall r, In r (metadata d) ->
            snd (fst r) <> "name" /\ snd (fst r) <> "files".

Section Vocabulary.
Context `{Env : Environment}.


(** The cache agrees with the tables: every entry is what the body of
    [_get_AID] returns on the tables as they are. *)
Definition cache_coherent (c : Cohort) : Prop :=
  forall i a, In (i, a) (cache c) -> get_AID_body i (_db c) = Ok a.

End Vocabulary.

(* ================================================================== *)
(** ** More of Cohort *)

(** The property [Cohort.files]: [SELECT path FROM raw_files]. *)
Definition files (c : Cohort) : list string := map snd (raw_files (_db c)).

(** [SELECT DISTINCT ...]: each value once, at its first row. *)
Fixpoint distinct (l : list string) : list string :=
  match l with
  | [] => []
  | x :: l' => x :: filter (fun y => negb (String.eqb y x)) (distinct l')
  end.

(** The property [Cohort.columns]: [SELECT DISTINCT(key) FROM metadata]. *)
Definition columns (c : Cohort) : list string :=
  distinct (map (fun r => snd (fst r)) (metadata (_db c))).

Section Iteration.
Context `{Env : Environment}.

(** [Cohort.__iter__], a generator: the names are fetched when the
    iteration starts, each Accession when it is asked for. *)
Definition __iter__ (c : Cohort) : list (M Accession.t) :=
  map (fun name => __getitem__ (IStr name)) (map snd (accessions (_db c))).

End Iteration.

(** The [sqlite_sequence] entry of [accessions] is at least every AID
    in the table, as AUTOINCREMENT keeps it. *)
Definition sequence_ok (d : Database) : Prop :=
  0 <= aid_seq d
  /\ forall a, In a (map fst (accessions d)) -> a <= aid_seq d.

(** The candidates that [alias_column] accepts: the values of the
    column, each once, that are no name or alias yet and are long
    enough, each with the AID of the last row that proposes it. *)
Definition accepted_aliases (colname : string) (min_alias_length : Z)
  (c : Cohort) : list (string * Z) :=
  let alias_dict := dict_of_rows (select_column colname (_db c)) in
  filter
    (fun row =>
       negb (existsb (String.eqb (fst row)) (names c))
       && negb (Z.of_nat (String.length (fst row)) <? min_alias_length))
    alias_dict.

(** The warnings that [alias_column] logs, one per candidate it skips. *)
Definition alias_warnings (colname : string) (min_alias_length : Z)
  (c : Cohort) : list string :=
  let alias_dict := dict_of_rows (select_column colname (_db c)) in
  flat_map
    (fun row =>
       if existsb (String.eqb (fst row)) (names c) then
         ["Cannot use " ++ fst row ++ " as it is not unique"]
       else if Z.of_nat (String.length (fst row)) <? min_alias_length then
         ["Skipping " ++ fst row ++ " as it is too short (<"
            ++ text_of_int min_alias_length ++ ")"]
       else [])
    alias_dict.

(** An Accession with a metadata integer outside 64 bits, after a
    value that is bound. *)
Definition accession_big_int : Accession.t :=
  Accession.make "S8" []
    [("age", Accession.MText "23"); ("reads", Accession.MInt (2 ^ 63))].

(** An Accession with a metadata key named [files]. *)
Definition accession_with_files_key : Accession.t :=
  Accession.make "S9" [] [("files", Accession.MText "x")].

(** One turn of the loop of [alias_column] over [alias_counts]. *)
Definition alias_step (cur_names : list string) (min_alias_length : Z)
  (alias_dict : list (string * Z))
  (acc : M (list (string * Z))) (item : string * Z) : M (list (string * Z)) :=
  unique_aliases <- acc ;;
  let (alias, count) := item in
  if (1 <? count) || existsb (String.eqb alias) cur_names
  then
    warning ("Cannot use " ++ alias ++ " as it is not unique") ;;
    ret unique_aliases
  else if Z.of_nat (String.length alias) <? min_alias_length
  then
    warning ("Skipping " ++ alias ++ " as it is too short (<"
               ++ text_of_int min_alias_length ++ ")") ;;
    ret unique_aliases
  else
    match dict_get alias alias_dict with
    | Some aid => ret (unique_aliases ++ [(alias, aid)])%list
    | None => raise KeyError
    end.

(** The test and the warning of one turn, on a candidate that is
    proposed once. *)
Definition alias_ok (cur_names : list string) (min_alias_length : Z)
  (row : string * Z) : bool :=
  negb (existsb (String.eqb (fst row)) cur_names)
  && negb (Z.of_nat (String.length (fst row)) <? min_alias_length).

Definition alias_warn (cur_names : list string) (min_alias_length : Z)
  (row : string * Z) : list string :=
  if existsb (String.eqb (fst row)) cur_names then
    ["Cannot use " ++ fst row ++ " as it is not unique"]
  else if Z.of_nat (String.length (fst row)) <? min_alias_length then
    ["Skipping " ++ fst row ++ " as it is too short (<"
       ++ text_of_int min_alias_length ++ ")"]
  else [].

(** An empty frame that has columns, and a frame with a column named
    [idx]. *)
Definition frame_no_rows : DataFrame.t :=
  DataFrame.make [] "object" None [mkColumn "x" "int64" []].

Definition frame_with_idx : DataFrame.t :=
  DataFrame.make [CInt 0; CInt 1] "int64" None
    [mkColumn "idx" "int64" [CInt 7; CInt 8];
     mkColumn "x" "int64" [CInt 1; CInt 2]].

(** The same columns under an index of strings. *)
Definition frame_named_with_idx : DataFrame.t :=
  DataFrame.make [CText "a"; CText "b"] "object" None
    [mkColumn "idx" "int64" [CInt 7; CInt 8];
     mkColumn "x" "int64" [CInt 1; CInt 2]].

(* ================================================================== *)
(** * Properties *)

(** ** The scoped bulk transaction *)

Lemma bulk_transaction_entry {A : Type} (body : M A) (c : Cohort) :
  savepoints c = [] ->
  bulk_transaction body c =
  try_finally
    (try_except_Exception body (fun e => execute RollbackTo ;; raise e))
    (execute Release) (entered c).
Proof.
  intros Hsp.
  unfold bulk_transaction, bind, execute, entered; simpl.
  destruct c; unfold with_executed, with_savepoints; simpl in *.
  subst. simpl. now rewrite <- !app_assoc.
Qed.

(** With a save-point open the first statement of [bulk_transaction]
    fails: the block is not entered and the state is as it was. *)
Lemma bulk_transaction_nested {A : Type} (body : M A) (c : Cohort) :
  savepoints c <> [] ->
  bulk_transaction body c = (c, Raise SQLError).
Proof.
  intros Hsp. unfold bulk_transaction, bind, execute.
  destruct (savepoints c) as [| d sp]; [now destruct Hsp | reflexivity].
Qed.

(** C3, as amended.  With a save-point open, [bulk_transaction] raises
    [SQLError] at its first statement: the block does not run and the
    state is as it was.  With none open, let the block leave the stack
    of open save-points as it found it.  Then the outcome of
    [bulk_transaction] is the outcome of the block (an exception is
    raised again); the save-point it opened is released, once, as the
    last statement, so the stack is that of the start; when the block
    raises an exception of class [Exception] the tables are those of
    the start and the release follows the rollback; when the block
    returns, or raises an exception outside [Exception], no rollback is
    executed and the tables are those the block left. *)
Theorem bulk_transaction_exits {A : Type} (body : M A) (c : Cohort) :
  (savepoints c <> [] -> bulk_transaction body c = (c, Raise SQLError))
  /\ (savepoints c = [] ->
      savepoints (fst (body (entered c))) = savepoints (entered c) ->
      let c2 := fst (body (entered c)) in
      let r := snd (body (entered c)) in
      let rolled_back :=
        match r with
        | Raise e => is_Exception e
        | Ok _ => false
        end in
      let exit_statements :=
        if rolled_back then [RollbackTo; Release] else [Release] in
      let c' := fst (bulk_transaction body c) in
      snd (bulk_transaction body c) = r
      /\ savepoints c' = savepoints c
      /\ executed c' = (executed c2 ++ exit_statements)%list
      /\ count_occ stmt_eq_dec exit_statements Release = 1%nat
      /\ _db c' = (if rolled_back then _db c else _db c2)
      /\ cache c' = cache c2
      /\ warnings c' = warnings c2).
Proof.
  split; [apply bulk_transaction_nested |].
  intros Hnone Hsp. rewrite (bulk_transaction_entry body c Hnone).
  unfold try_finally, try_except_Exception.
  destruct (body (entered c)) as [c2 [a | e]] eqn:Hbody; simpl in Hsp |- *.
  - unfold execute. rewrite Hsp. simpl.
    repeat split; try reflexivity; now rewrite Hnone.
  - destruct (is_Exception e) eqn:He.
    + unfold bind, execute, raise. rewrite Hsp. simpl. rewrite Hsp. simpl.
      repeat split; try reflexivity; try (now rewrite Hnone).
      now rewrite <- app_assoc.
    + unfold execute. rewrite Hsp. simpl.
      repeat split; try reflexivity; now rewrite Hnone.
Qed.

(** An instance: a block that writes a key and raises [ValueError],
    outside a transaction and nested in another block. *)
Lemma bulk_transaction_exits_witness :
  let c := open_cohort "" "c" "Cohort" empty_db in
  let body : M unit :=
    modify_db (upsert_global ("k", Some "v", "str")) ;; raise ValueError in
  savepoints c = []
  /\ savepoints (fst (body (entered c))) = savepoints (entered c)
  /\ snd (bulk_transaction body c) = Raise ValueError
  /\ _db (fst (bulk_transaction body c)) = empty_db
  /\ savepoints (entered c) <> []
  /\ bulk_transaction body (entered c) = (entered c, Raise SQLError).
Proof.
  intros c body.
  split; [reflexivity |]. split; [reflexivity |].
  pose proof (proj2 (bulk_transaction_exits body c) eq_refl eq_refl) as H.
  simpl in H. destruct H as (Hr & _ & _ & _ & Hdb & _).
  split; [exact Hr |]. split; [exact Hdb |].
  assert (Hopen : savepoints (entered c) <> []) by discriminate.
  split; [exact Hopen |].
  exact (proj1 (bulk_transaction_exits body (entered c)) Hopen).
Defined.

(** C3, as stated, fails: a block interrupted by [KeyboardInterrupt]
    keeps its partial write, although the exception escapes the block. *)
Lemma bulk_transaction_interrupt_keeps_writes :
  let c := open_cohort "" "c" "Cohort" empty_db in
  let body : M unit :=
    modify_db (upsert_global ("k", Some "v", "str")) ;;
    raise KeyboardInterrupt in
  snd (bulk_transaction body c) = Raise KeyboardInterrupt
  /\ globals (_db c) = []
  /\ globals (_db (fst (bulk_transaction body c))) = [("k", Some "v", "str")]
  /\ executed (fst (bulk_transaction body c)) =
       [PragmaSynchronousOff; PragmaJournalMemory; Savepoint; Release].
Proof. repeat split. Qed.

(* ================================================================== *)
(** ** The key-value store *)

Lemma find_app_none {A : Type} (f : A -> bool) (l1 l2 : list A) :
  find f l1 = None -> find f (l1 ++ l2) = find f l2.
Proof.
  induction l1 as [| x l1 IH]; simpl; [reflexivity |].
  destruct (f x); [discriminate | exact IH].
Qed.



Section KeyValue.
Context `{Env : Environment}.




(** C8: what the code does with a value of any other class.  The
    [TypeError] raised for it is caught by the [except TypeError] of the
    same method, so the caller sees [ValueError]; nothing is stored. *)
Theorem dict_rejects_with_ValueError (key cls : string) (c : Cohort) :
  _dict key (Some (PyObj cls)) c = (c, Raise ValueError).
Proof.
  unfold _dict, bind, lift, raise; simpl.
  destruct (negb _); reflexivity.
Qed.

End KeyValue.



(** C8 at a list: [ValueError], not [TypeError]. *)
Lemma dict_list_value :
  let c := open_cohort "" "c" "Cohort" empty_db in
  @_dict reference_env "k" (Some (PyObj "list")) c = (c, Raise ValueError)
  /\ guess_type (@PyObj reference_env "list") = "list".
Proof. split; reflexivity. Qed.

(* ================================================================== *)
(** ** Search *)

Lemma like_percent (p t : string) :
  like (String "%" p) t =
  (like p t
   || match t with
      | EmptyString => false
      | String _ t' => like (String "%" p) t'
      end)%bool.
Proof. destruct t; reflexivity. Qed.

Lemma like_percent_only (t : string) : like "%" t = true.
Proof.
  induction t as [| a t IH]; [reflexivity |].
  rewrite like_percent. rewrite IH. apply orb_true_r.
Qed.

Lemma like_literal_percent (s t : string) :
  no_wildcard s = true -> like (s ++ "%") t = prefix_ci s t.
Proof.
  revert t. induction s as [| a s IH]; intros t Hs.
  - simpl. rewrite like_percent_only. now destruct t.
  - simpl in Hs.
    apply andb_prop in Hs as [Ha Hs]. apply andb_prop in Ha as [Hp Hu].
    apply negb_true_iff in Hp, Hu.
    simpl. rewrite Hp. destruct t as [| b t]; [reflexivity |].
    rewrite Hu. simpl. now rewrite IH.
Qed.

Lemma like_contains_ci (s t : string) :
  no_wildcard s = true -> like ("%" ++ s ++ "%") t = contains_ci s t.
Proof.
  intros Hs. change ("%" ++ s ++ "%") with (String "%" (s ++ "%")).
  induction t as [| b t IH].
  - rewrite like_percent, like_literal_percent by exact Hs. reflexivity.
  - rewrite like_percent, like_literal_percent by exact Hs.
    rewrite IH. reflexivity.
Qed.

(** C6, as amended.  [search_names] returns the accession names that
    match the pattern [%s%] under [LIKE], followed by the aliases that
    match it; when [s] has no [%] and no [_], these are the names and
    the aliases that contain [s] up to the case of ASCII letters. *)
Theorem search_names_like (s : string) (c : Cohort) :
  search_names s c =
    (filter (like ("%" ++ s ++ "%")) (map snd (accessions (_db c)))
     ++ filter (like ("%" ++ s ++ "%")) (map fst (aliases (_db c))))%list
  /\ (no_wildcard s = true ->
      search_names s c =
        (filter (contains_ci s) (map snd (accessions (_db c)))
         ++ filter (contains_ci s) (map fst (aliases (_db c))))%list).
Proof.
  split; [reflexivity |].
  intros Hs. unfold search_names.
  f_equal; apply filter_ext; intros t; now apply like_contains_ci.
Qed.

Lemma search_names_like_witness :
  no_wildcard "s" = true
  /\ search_names "s" cohort_S1 = ["S1"].
Proof.
  split; [reflexivity |].
  rewrite (proj2 (search_names_like "s" cohort_S1) eq_refl).
  reflexivity.
Defined.

(** C6, as stated, fails: the search for [s1] returns the name [S1],
    which does not contain [s1]; the search for [_] returns it too. *)
Lemma search_names_folds_case :
  search_names "s1" cohort_S1 = ["S1"]
  /\ contains "s1" "S1" = false
  /\ search_names_spec "s1" cohort_S1 = []
  /\ search_names "_" cohort_S1 = ["S1"]
  /\ search_names_spec "_" cohort_S1 = [].
Proof. repeat split. Qed.

(* ================================================================== *)
(** ** The columnar store *)

Lemma assign_fresh (col : column) (cols : list column) :
  existsb (fun c => String.eqb (cname c) (cname col)) cols = false ->
  DataFrame.assign col cols = (cols ++ [col])%list.
Proof.
  induction cols as [| c cols IH]; simpl; [reflexivity |].
  intros H. apply orb_false_iff in H as [H1 H2].
  rewrite H1. now rewrite IH.
Qed.

Lemma find_fresh_last (n : string) (col : column) (cols : list column) :
  existsb (fun c => String.eqb (cname c) n) cols = false ->
  cname col = n ->
  find (fun c => String.eqb (cname c) n) (cols ++ [col]) = Some col.
Proof.
  intros H Hn. induction cols as [| c cols IH]; simpl.
  - now rewrite Hn, String.eqb_refl.
  - simpl in H. apply orb_false_iff in H as [H1 H2].
    rewrite H1. now apply IH.
Qed.

Lemma filter_fresh_last (n : string) (col : column) (cols : list column) :
  existsb (fun c => String.eqb (cname c) n) cols = false ->
  cname col = n ->
  filter (fun c => negb (String.eqb (cname c) n)) (cols ++ [col]) = cols.
Proof.
  intros H Hn. induction cols as [| c cols IH]; simpl.
  - now rewrite Hn, String.eqb_refl.
  - simpl in H. apply orb_false_iff in H as [H1 H2].
    rewrite H1. simpl. now rewrite IH.
Qed.

Lemma existsb_app_single (n : string) (col : column) (cols : list column) :
  cname col = n ->
  existsb (fun c => String.eqb (cname c) n) (cols ++ [col]) = true.
Proof.
  intros Hn. rewrite existsb_app. simpl.
  rewrite Hn, String.eqb_refl. now rewrite orb_true_r.
Qed.

Section ColumnStore.
Context `{Env : Environment}.

Lemma bcolz_put (tblname : string) (d : DataFrame.t) (c : Cohort) :
  _bcolz tblname (Some d) c =
  (with_bcolz
     ((path_join (_get_dbpath "bcz" c) tblname, stored_payload d)
        :: filter
             (fun e =>
                negb (String.eqb (fst e)
                        (path_join (_get_dbpath "bcz" c) tblname)))
             (bcolz c))
     c,
   Ok None).
Proof.
  unfold _bcolz, stored_payload.
  destruct (String.eqb (DataFrame.index_dtype d) "int64") eqn:Hd; simpl.
  - reflexivity.
  - destruct (DataFrame.empty d) eqn:He; simpl.
    + now rewrite He.
    + unfold DataFrame.empty in *; simpl.
      destruct (DataFrame.index d); [discriminate |].
      destruct (DataFrame.columns d) as [| col0 cols]; [discriminate |].
      simpl. now destruct (String.eqb (cname col0) "idx").
Qed.

Lemma bcolz_get (tblname : string) (p : payload) (c : Cohort) :
  find (fun e => String.eqb (fst e) (path_join (_get_dbpath "bcz" c) tblname))
       (bcolz c) = Some (path_join (_get_dbpath "bcz" c) tblname, p) ->
  _bcolz tblname None c = (c, Ok (Some (loaded_frame p))).
Proof. intros H. unfold _bcolz. now rewrite H. Qed.

Lemma loaded_stored (d : DataFrame.t) :
  index_preserving d -> loaded_frame (stored_payload d) = d.
Proof.
  intros (Hwf & Hne & Hidx & Hname & Hshape).
  destruct d as [idx dty nm cols]; simpl in *. subst nm.
  unfold DataFrame.has_column in Hidx; simpl in Hidx.
  unfold stored_payload. rewrite Hne. simpl DataFrame.index_dtype.
  unfold DataFrame.empty in Hne; simpl in Hne.
  destruct idx as [| i0 idx]; [discriminate |].
  destruct cols as [| col0 cols]; [discriminate |].
  assert (Hlen : List.length (cvalues col0) = S (List.length idx)).
  { unfold well_formed in Hwf; simpl in Hwf. now inversion Hwf. }
  destruct (String.eqb dty "int64") eqn:Hd.
  - (* an int64 index: the default one *)
    apply String.eqb_eq in Hd. subst dty.
    destruct Hshape as [Hshape | Hshape]; [congruence |].
    unfold loaded_frame. simpl DataFrame.columns. simpl payload_len.
    rewrite Hlen. simpl Nat.eqb. cbv iota.
    unfold DataFrame.has_column, todataframe. simpl payload_len.
    rewrite Hlen. simpl DataFrame.columns. rewrite Hidx.
    unfold default_index in Hshape. simpl List.length in Hshape.
    now rewrite <- Hshape.
  - (* another dtype: saved as [idx], put back as the index *)
    simpl DataFrame.columns. simpl DataFrame.index.
    rewrite (assign_fresh (mkColumn "idx" dty (i0 :: idx)) (col0 :: cols))
      by exact Hidx.
    unfold loaded_frame. simpl payload_len. rewrite Hlen.
    simpl Nat.eqb. cbv iota.
    unfold DataFrame.has_column, todataframe. simpl DataFrame.columns.
    change (col0 :: (cols ++ [mkColumn "idx" dty (i0 :: idx)])%list)
      with ((col0 :: cols) ++ [mkColumn "idx" dty (i0 :: idx)])%list.
    rewrite existsb_app_single by reflexivity.
    unfold DataFrame.set_index_unnamed. simpl DataFrame.columns.
    rewrite !app_comm_cons.
    rewrite find_fresh_last by (exact Hidx || reflexivity).
    rewrite filter_fresh_last by (exact Hidx || reflexivity).
    reflexivity.
Qed.

(** C9, as amended.  A frame that is not empty, has no column named
    [idx] and has an unnamed index that is either of a dtype other than
    [int64] (saved as the column [idx] and put back as the index) or the
    default index [0 .. n-1] is read back as it was stored; a stored
    payload of zero rows is read back as the empty frame. *)
Theorem bcolz_put_then_get (tblname : string) (d : DataFrame.t) (c : Cohort) :
  (index_preserving d ->
   let c1 := fst (_bcolz tblname (Some d) c) in
   snd (_bcolz tblname (Some d) c) = Ok None
   /\ _bcolz tblname None c1 = (c1, Ok (Some d)))
  /\ (forall p,
        find (fun e =>
                String.eqb (fst e) (path_join (_get_dbpath "bcz" c) tblname))
             (bcolz c) = Some (path_join (_get_dbpath "bcz" c) tblname, p) ->
        payload_len p = 0%nat ->
        _bcolz tblname None c = (c, Ok (Some DataFrame.new))).
Proof.
  split.
  - intros Hd. rewrite bcolz_put. simpl fst. simpl snd.
    split; [reflexivity |].
    erewrite bcolz_get.
    + now rewrite loaded_stored.
    + simpl. now rewrite String.eqb_refl.
  - intros p Hfind Hlen. rewrite (bcolz_get _ _ _ Hfind).
    unfold loaded_frame. now rewrite Hlen.
Qed.

End ColumnStore.

Lemma bcolz_put_then_get_witness :
  let c := open_cohort "" "c" "Cohort" empty_db in
  let c1 := fst (@_bcolz reference_env "t" (Some frame_by_name) c) in
  let c2 := fst (@_bcolz reference_env "e" (Some DataFrame.new) c) in
  index_preserving frame_by_name
  /\ @_bcolz reference_env "t" None c1 = (c1, Ok (Some frame_by_name))
  /\ @_bcolz reference_env "e" None c2 = (c2, Ok (Some DataFrame.new)).
Proof.
  intros c c1 c2.
  assert (H : index_preserving frame_by_name).
  { repeat split.
    - repeat constructor.
    - left. discriminate. }
  split; [exact H |]. split.
  - exact (proj2 (proj1 (@bcolz_put_then_get reference_env "t"
                           frame_by_name c) H)).
  - exact (proj2 (@bcolz_put_then_get reference_env "e" DataFrame.new c2)
             EmptyCarray eq_refl eq_refl).
Defined.

(** C9, as stated, fails: an index of dtype [int64] that is not
    sequential is not saved; the frame comes back under [0, 1]. *)
Lemma bcolz_loses_int64_index :
  let c := open_cohort "" "c" "Cohort" empty_db in
  let c1 := fst (@_bcolz reference_env "t" (Some frame_by_number) c) in
  bcolz c1 = [("databases/Cohort.c/Cohort.c/bcz/t",
               CTable [mkColumn "x" "int64" [CInt 1; CInt 2]])]
  /\ @_bcolz reference_env "t" None c1 =
       (c1, Ok (Some (DataFrame.make [CInt 0; CInt 1] "int64" None
                        [mkColumn "x" "int64" [CInt 1; CInt 2]])))
  /\ DataFrame.index frame_by_number <> [CInt 0; CInt 1].
Proof. repeat split. discriminate. Qed.

(* ================================================================== *)
(** ** Identity resolution and deletion *)

Lemma find_filter_none {A : Type} (f g : A -> bool) (l : list A) :
  (forall x, In x l -> f x = true -> g x = false) ->
  find f (filter g l) = None.
Proof.
  induction l as [| x l IH]; simpl; intros H; [reflexivity |].
  destruct (g x) eqn:Hg.
  - simpl. destruct (f x) eqn:Hf.
    + rewrite (H x (or_introl eq_refl) Hf) in Hg. discriminate.
    + apply IH. intros y Hy. apply H. now right.
  - apply IH. intros y Hy. apply H. now right.
Qed.

Lemma find_filter_same {A : Type} (f g : A -> bool) (l : list A) :
  (forall x, In x l -> f x = true -> g x = true) ->
  find f (filter g l) = find f l.
Proof.
  induction l as [| x l IH]; simpl; intros H; [reflexivity |].
  destruct (g x) eqn:Hg; simpl.
  - destruct (f x); [reflexivity |].
    apply IH. intros y Hy. apply H. now right.
  - destruct (f x) eqn:Hf.
    + rewrite (H x (or_introl eq_refl) Hf) in Hg. discriminate.
    + apply IH. intros y Hy. apply H. now right.
Qed.

Lemma find_none_filter {A : Type} (f g : A -> bool) (l : list A) :
  find f l = None -> find f (filter g l) = None.
Proof.
  intros H. apply find_filter_none. intros x Hx Hf.
  now rewrite (find_none _ _ H x Hx) in Hf.
Qed.

Lemma unique_name_row (l : list (Z * string)) (a a' : Z) (s : string) :
  NoDup (map snd l) -> In (a, s) l -> In (a', s) l -> a = a'.
Proof.
  induction l as [| [b t] l IH]; simpl; intros Hnd H1 H2; [contradiction |].
  inversion Hnd as [| ? ? Hnin Hnd']; subst.
  destruct H1 as [H1 | H1], H2 as [H2 | H2].
  - congruence.
  - injection H1 as -> ->. exfalso. apply Hnin.
    now apply (in_map snd l (a', s)).
  - injection H2 as -> ->. exfalso. apply Hnin.
    now apply (in_map snd l (a, s)).
  - now apply IH.
Qed.

Lemma select_AID_by_name_deleted (s : string) (a : Z) (d : Database) :
  NoDup (map snd (accessions d)) ->
  select_AID_by_name s d = Some a ->
  select_AID_by_name s (delete_accession a d) = None.
Proof.
  unfold select_AID_by_name, delete_accession; simpl. intros Hnd Hsel.
  destruct (find _ (accessions d)) as [[a0 s0] |] eqn:Hf; [| discriminate].
  injection Hsel as ->.
  apply find_some in Hf as [Hin Heq]. simpl in Heq.
  apply String.eqb_eq in Heq. subst s0.
  rewrite find_filter_none; [reflexivity |].
  intros [a' s'] Hin' Hs'. simpl in *.
  apply String.eqb_eq in Hs'. subst s'.
  rewrite (unique_name_row _ _ _ _ Hnd Hin' Hin).
  now rewrite Z.eqb_refl.
Qed.

Lemma select_AID_by_name_absent (s : string) (a : Z) (d : Database) :
  select_AID_by_name s d = None ->
  select_AID_by_name s (delete_accession a d) = None.
Proof.
  unfold select_AID_by_name, delete_accession; simpl. intros H.
  destruct (find _ (accessions d)) eqn:Hf; [discriminate |].
  now rewrite find_none_filter.
Qed.

Lemma select_AID_by_AID_deleted (n a : Z) (d : Database) :
  select_AID_by_AID n (delete_accession a d) =
  if Z.eqb n a then None else select_AID_by_AID n d.
Proof.
  unfold select_AID_by_AID, delete_accession; simpl.
  destruct (Z.eqb_spec n a) as [-> | Hne].
  - rewrite find_filter_none; [reflexivity |].
    intros [b t] _ Hb. simpl in *. now rewrite Hb.
  - rewrite find_filter_same; [reflexivity |].
    intros [b t] _ Hb. simpl in *.
    apply Z.eqb_eq in Hb. subst b.
    apply negb_true_iff. now apply Z.eqb_neq.
Qed.

Lemma select_name_by_AID_deleted (a : Z) (d : Database) :
  select_name_by_AID a (delete_accession a d) = None.
Proof.
  unfold select_name_by_AID, delete_accession; simpl.
  rewrite find_filter_none; [reflexivity |].
  intros [b t] _ Hb. simpl in *. now rewrite Hb.
Qed.

Lemma cache_find_In (i : ident) (a : Z) (k : list (ident * Z)) :
  cache_find i k = Some a -> In (i, a) k.
Proof.
  unfold cache_find. intros H.
  destruct (find _ k) as [[j b] |] eqn:Hf; [| discriminate].
  injection H as <-. apply find_some in Hf as [Hin Heq]. simpl in Heq.
  destruct (ident_eq_dec j i); [now subst | discriminate].
Qed.

Lemma In_removelast {A : Type} (x : A) (l : list A) :
  In x (removelast l) -> In x l.
Proof.
  induction l as [| y l IH]; simpl; [trivial |].
  destruct l as [| z l]; [contradiction |].
  intros [H | H]; [now left | right; now apply IH].
Qed.

Lemma cache_store_In (i j : ident) (a b : Z) (k : list (ident * Z)) :
  In (j, b) (cache_store i a k) -> (j, b) = (i, a) \/ In (j, b) k.
Proof.
  unfold cache_store.
  destruct (_ <? _); simpl; intros [H | H]; auto.
  right. now apply In_removelast.
Qed.

Lemma cache_touch_In (i j : ident) (a b : Z) (k : list (ident * Z)) :
  In (j, b) (cache_touch i a k) -> (j, b) = (i, a) \/ In (j, b) k.
Proof.
  unfold cache_touch, cache_remove. simpl. intros [H | H]; auto.
  right. now apply filter_In in H as [H _].
Qed.

Section Resolution.
Context `{Env : Environment}.

Lemma get_AID_frame (i : ident) (c : Cohort) :
  same_but_cache c (fst (_get_AID i c)).
Proof.
  unfold _get_AID.
  destruct (cache_find i (cache c)); simpl.
  - eexists; reflexivity.
  - destruct (get_AID_body i (_db c)); simpl.
    + eexists; reflexivity.
    + exists (cache c). now destruct c.
Qed.

Lemma get_AID_coherent (i : ident) (c : Cohort) :
  cache_coherent c ->
  snd (_get_AID i c) = get_AID_body i (_db c)
  /\ cache_coherent (fst (_get_AID i c)).
Proof.
  intros Hc. unfold _get_AID.
  destruct (cache_find i (cache c)) as [a |] eqn:Hf; simpl.
  - apply cache_find_In in Hf. split.
    + symmetry. now apply Hc.
    + intros j b Hin. simpl in *.
      apply cache_touch_In in Hin as [[= -> ->] | Hin]; auto.
  - destruct (get_AID_body i (_db c)) as [a | e] eqn:Hb; simpl.
    + split; [reflexivity |].
      intros j b Hin. simpl in *.
      apply cache_store_In in Hin as [[= -> ->] | Hin]; auto.
    + split; [reflexivity | exact Hc].
Qed.

Lemma get_AID_empty_cache (i : ident) (c : Cohort) :
  cache c = [] ->
  snd (_get_AID i c) = get_AID_body i (_db c)
  /\ _db (fst (_get_AID i c)) = _db c.
Proof.
  intros Hk. unfold _get_AID. rewrite Hk. simpl.
  destruct (get_AID_body i (_db c)); simpl; auto.
Qed.

(** What [__delitem__] leaves when it returns: the tables without the
    rows of the AID it resolved, and an empty cache. *)
Lemma delitem_returns (i : ident) (c : Cohort) (a : Z) :
  snd (_get_AID i c) = Ok a ->
  __delitem__ i c =
    (with_cache [] (with_db (delete_accession a (_db c)) (fst (_get_AID i c))),
     Ok tt)
  /\ _db (with_db (delete_accession a (_db c)) (fst (_get_AID i c)))
     = delete_accession a (_db c).
Proof.
  intros Hr. unfold __delitem__, invalidates_cache, bind, modify_db.
  destruct (get_AID_frame i c) as [k Hk].
  destruct (_get_AID i c) as [c1 r] eqn:Hg. simpl in *. subst r c1.
  split; reflexivity.
Qed.

Lemma delitem_raises (i : ident) (c : Cohort) (e : exn) :
  snd (_get_AID i c) = Raise e ->
  __delitem__ i c = (fst (_get_AID i c), Raise e).
Proof.
  intros Hr. unfold __delitem__, invalidates_cache, bind.
  destruct (_get_AID i c) as [c1 r]. simpl in *. now subst r.
Qed.

End Resolution.

Section Deletion.
Context `{Env : Environment}.

(** C2, as amended.  When [__delitem__] returns, and when [drop_aliases]
    returns, the identity cache is empty.  After [delete(name)] of a
    name that resolved, on keyed tables and under a cache that agreed
    with them, [resolve(name)] raises [NameError], provided the name is
    not also an alias and is not text that converts to the AID of
    another Accession. *)
Theorem delete_clears_cache (s : string) (a : Z) (c : Cohort) :
  (forall i, snd (__delitem__ i c) = Ok tt ->
             cache (fst (__delitem__ i c)) = [])
  /\ (snd (drop_aliases c) = Ok tt
      /\ cache (fst (drop_aliases c)) = []
      /\ aliases (_db (fst (drop_aliases c))) = [])
  /\ (accessions_keyed (_db c) ->
      cache_coherent c ->
      snd (_get_AID (IStr s) c) = Ok a ->
      select_AID_by_alias s (_db c) = None ->
      (forall n, numeric_of_text s = Some n ->
                 n = a \/ select_AID_by_AID n (_db c) = None) ->
      let c' := fst (__delitem__ (IStr s) c) in
      snd (__delitem__ (IStr s) c) = Ok tt
      /\ cache c' = []
      /\ _get_AID (IStr s) c' = (c', Raise NameError)).
Proof.
  split; [| split].
  - intros i Hok.
    destruct (snd (_get_AID i c)) as [b | e] eqn:Hr.
    + now rewrite (proj1 (delitem_returns i c b Hr)).
    + rewrite (delitem_raises i c e Hr) in Hok. simpl in Hok. congruence.
  - repeat split.
  - intros [_ Hnames] Hcoh Hres Halias Hnum c'.
    pose proof (proj1 (get_AID_coherent (IStr s) c Hcoh)) as Hbody.
    rewrite Hres in Hbody. symmetry in Hbody.
    destruct (delitem_returns (IStr s) c a Hres) as [Hdel _].
    subst c'. rewrite Hdel. simpl.
    split; [reflexivity |]. split; [reflexivity |].
    destruct (get_AID_frame (IStr s) c) as [k Hk]. rewrite Hk.
    unfold _get_AID. simpl.
    assert (Hfresh :
              get_AID_body (IStr s) (delete_accession a (_db c))
              = Raise NameError).
    { unfold get_AID_body in *.
      assert (Hn : select_AID_by_name s (delete_accession a (_db c)) = None).
      { destruct (select_AID_by_name s (_db c)) as [a0 |] eqn:H0.
        - injection Hbody as ->.
          now apply select_AID_by_name_deleted.
        - now apply select_AID_by_name_absent. }
      rewrite Hn.
      replace (select_AID_by_alias s (delete_accession a (_db c)))
        with (select_AID_by_alias s (_db c)) by reflexivity.
      rewrite Halias.
      destruct (numeric_of_text s) as [n |] eqn:Hnt; [| reflexivity].
      rewrite select_AID_by_AID_deleted.
      destruct (Z.eqb_spec n a); [reflexivity |].
      destruct (Hnum n eq_refl) as [-> | H]; [contradiction |].
      now rewrite H. }
    now rewrite Hfresh.
Qed.

(** C10, as amended.  Let the alias [a] map to the AID [x], [a] being no
    Accession name, and let the Accession of AID [x] be deleted.  Then
    the table
    of aliases is as before, with its row [(a, x)]; resolving [a]
    returns [x]; the membership test of [a] is true; getting [a] raises
    [TypeError], not [NameError]. *)
Theorem delete_keeps_aliases (i : ident) (a : string) (x : Z) (c : Cohort) :
  select_AID_by_alias a (_db c) = Some x ->
  select_AID_by_name a (_db c) = None ->
  snd (_get_AID i c) = Ok x ->
  let c' := fst (__delitem__ i c) in
  snd (__delitem__ i c) = Ok tt
  /\ aliases (_db c') = aliases (_db c)
  /\ In (a, x) (aliases (_db c'))
  /\ snd (_get_AID (IStr a) c') = Ok x
  /\ snd (__contains__ (IStr a) c') = Ok true
  /\ snd (__getitem__ (IStr a) c') = Raise TypeError.
Proof.
  intros Halias Hname Hres c'.
  destruct (delitem_returns i c x Hres) as [Hdel _].
  destruct (get_AID_frame i c) as [k Hk].
  subst c'. rewrite Hdel, Hk. simpl.
  assert (Hbody : get_AID_body (IStr a) (delete_accession x (_db c)) = Ok x).
  { unfold get_AID_body.
    rewrite (select_AID_by_name_absent a x (_db c) Hname).
    replace (select_AID_by_alias a (delete_accession x (_db c)))
      with (select_AID_by_alias a (_db c)) by reflexivity.
    now rewrite Halias. }
  assert (Hget : forall c0, cache c0 = [] ->
                   _db c0 = delete_accession x (_db c) ->
                   snd (_get_AID (IStr a) c0) = Ok x
                   /\ _db (fst (_get_AID (IStr a) c0))
                      = delete_accession x (_db c)).
  { intros c0 Hk0 Hd0.
    destruct (get_AID_empty_cache (IStr a) c0 Hk0) as [H1 H2].
    rewrite H1, H2, Hd0. now split. }
  split; [reflexivity |]. split; [reflexivity |]. split.
  { unfold select_AID_by_alias in Halias.
    destruct (find _ (aliases (_db c))) as [[a0 x0] |] eqn:Hf;
      [| discriminate].
    injection Halias as ->. apply find_some in Hf as [Hin Heq].
    simpl in Heq. apply String.eqb_eq in Heq. now subst a0. }
  match goal with
  | |- snd (_get_AID _ ?c0) = _ /\ _ =>
      destruct (Hget c0 eq_refl eq_refl) as [H1 H2]
  end.
  split; [exact H1 |]. split.
  - unfold __contains__.
    match goal with
    | |- snd (match ?g with _ => _ end) = _ =>
        destruct g as [c1 r] eqn:Hg
    end.
    simpl in H1. now subst r.
  - unfold __getitem__, bind, get_db.
    match goal with
    | |- snd (match ?g with _ => _ end) = _ =>
        destruct g as [c1 r] eqn:Hg
    end.
    simpl in H1, H2. subst r. rewrite H2.
    now rewrite select_name_by_AID_deleted.
Qed.

End Deletion.

Lemma cohort_S1_aliased_coherent :
  @cache_coherent reference_env cohort_S1_aliased.
Proof. intros i a []. Qed.

Lemma delete_clears_cache_witness :
  let c := cohort_S1_aliased in
  let c' := fst (@__delitem__ reference_env (IStr "S1") c) in
  accessions_keyed (_db c)
  /\ snd (@_get_AID reference_env (IStr "S1") c) = Ok 1
  /\ cache c' = []
  /\ @_get_AID reference_env (IStr "S1") c' = (c', Raise NameError).
Proof.
  intros c c'.
  assert (Hk : accessions_keyed (_db c)).
  { split; simpl; repeat constructor; simpl; tauto. }
  split; [exact Hk |]. split; [reflexivity |].
  destruct (@delete_clears_cache reference_env "S1" 1 c) as (_ & _ & H).
  refine (proj2 (H Hk cohort_S1_aliased_coherent eq_refl eq_refl _)).
  intros n Hn. discriminate Hn.
Defined.

Lemma delete_keeps_aliases_witness :
  let c := cohort_S1_aliased in
  let c' := fst (@__delitem__ reference_env (IStr "S1") c) in
  select_AID_by_alias "23" (_db c) = Some 1
  /\ aliases (_db c') = [("23", 1)]
  /\ snd (@_get_AID reference_env (IStr "23") c') = Ok 1
  /\ snd (@__contains__ reference_env (IStr "23") c') = Ok true
  /\ snd (@__getitem__ reference_env (IStr "23") c') = Raise TypeError.
Proof.
  intros c c'.
  destruct (@delete_keeps_aliases reference_env (IStr "S1") "23" 1 c
              eq_refl eq_refl eq_refl) as (_ & H1 & _ & H2 & H3 & H4).
  split; [reflexivity |]. split; [exact H1 |].
  split; [exact H2 |]. split; [exact H3 | exact H4].
Defined.

(** C10, as stated, fails: [add_accession] does not look at the
    aliases, so an alias can be the name of another Accession, and
    [_get_AID] looks among the names first.  From the empty catalog:
    add [S1] with [k = abc], make the column [k] aliases, add an
    Accession named [abc].  The alias [abc] maps to the AID 1 of [S1];
    after the deletion of [S1] its row is still there, but [abc]
    resolves to the AID 2, and getting [abc] returns that Accession
    and raises nothing. *)
Lemma delete_alias_resolves_by_name :
  let S1 := Accession.make "S1" ["a.fastq"] [("k", Accession.MText "abc")] in
  let c0 := open_cohort "" "c" "Cohort" empty_db in
  let c1 := fst (@add_accession reference_env S1 c0) in
  let c2 := fst (alias_column "k" 3 c1) in
  let c3 := fst (@add_accession reference_env (Accession.make "abc" [] []) c2) in
  let c4 := fst (@__delitem__ reference_env (IStr "S1") c3) in
  select_AID_by_alias "abc" (_db c3) = Some 1
  /\ select_name_by_AID 1 (_db c3) = Some "S1"
  /\ snd (@_get_AID reference_env (IStr "S1") c3) = Ok 1
  /\ snd (@__delitem__ reference_env (IStr "S1") c3) = Ok tt
  /\ aliases (_db c4) = [("abc", 1)]
  /\ snd (@_get_AID reference_env (IStr "abc") c4) = Ok 2
  /\ snd (@__contains__ reference_env (IStr "abc") c4) = Ok true
  /\ snd (@__getitem__ reference_env (IStr "abc") c4)
     = Ok (Accession.make "abc" [] [("AID", Accession.MInt 2)]).
Proof. repeat split. Qed.

(** C2, as stated, fails.  From the empty catalog: add [S1] with
    [k = abc], make the column [k] aliases, add an Accession named
    [abc].  [alias_column] and [add_accession] leave entries in the
    cache; [abc] resolves to the new Accession, and after its deletion
    to the Accession [S1], through the alias.  Likewise, after the
    deletion of an Accession named [1], the name resolves as the AID 1
    of another one. *)
Lemma delete_then_resolve_finds_alias :
  let S1 := Accession.make "S1" ["a.fastq"] [("k", Accession.MText "abc")] in
  let c0 := open_cohort "" "c" "Cohort" empty_db in
  let c1 := fst (@add_accession reference_env S1 c0) in
  let c2 := fst (alias_column "k" 3 c1) in
  let c3 := fst (@add_accession reference_env (Accession.make "abc" [] []) c2) in
  let c4 := fst (@_get_AID reference_env (IStr "abc") c3) in
  let c5 := fst (@__delitem__ reference_env (IStr "abc") c4) in
  let d := open_cohort "" "c" "Cohort"
             (mkDatabase [] [(1, "S1"); (2, "1")] 2 [] [] [] []) in
  let d1 := fst (@__delitem__ reference_env (IStr "1") d) in
  aliases (_db c2) = [("abc", 1)]
  /\ cache c2 = [(IAcc S1, 1)]
  /\ snd (@_get_AID reference_env (IStr "abc") c3) = Ok 2
  /\ snd (@__delitem__ reference_env (IStr "abc") c4) = Ok tt
  /\ cache c5 = []
  /\ snd (@_get_AID reference_env (IStr "abc") c5) = Ok 1
  /\ snd (@_get_AID reference_env (IStr "1") d) = Ok 2
  /\ snd (@__delitem__ reference_env (IStr "1") d) = Ok tt
  /\ snd (@_get_AID reference_env (IStr "1") d1) = Ok 1.
Proof. vm_compute. repeat split. Qed.

(* ================================================================== *)
(** ** Aliases from a column *)

Lemma dict_set_keys {V : Type} (k : string) (v : V) (d : list (string * V)) :
  dict_keys (dict_set k v d) =
  if existsb (String.eqb k) (dict_keys d) then dict_keys d
  else (dict_keys d ++ [k])%list.
Proof.
  induction d as [| [k' v'] d IH]; simpl; [reflexivity |].
  destruct (String.eqb_spec k k') as [-> | Hne]; simpl; [reflexivity |].
  rewrite IH. unfold dict_keys.
  now destruct (existsb (String.eqb k) (map fst d)).
Qed.

Lemma existsb_eqb_false (k : string) (l : list string) :
  existsb (String.eqb k) l = false <-> ~ In k l.
Proof.
  split.
  - intros H Hin.
    assert (E : existsb (String.eqb k) l = true).
    { apply existsb_exists. exists k. split; [exact Hin |].
      apply String.eqb_refl. }
    congruence.
  - intros H. destruct (existsb (String.eqb k) l) eqn:E; [| reflexivity].
    apply existsb_exists in E as (x & Hx & Heq).
    apply String.eqb_eq in Heq. now subst x.
Qed.

Lemma dict_set_keys_nodup {V : Type} (k : string) (v : V)
  (d : list (string * V)) :
  NoDup (dict_keys d) -> NoDup (dict_keys (dict_set k v d)).
Proof.
  intros Hnd. rewrite dict_set_keys.
  destruct (existsb (String.eqb k) (dict_keys d)) eqn:E; [exact Hnd |].
  apply existsb_eqb_false in E.
  apply NoDup_app; [exact Hnd | repeat constructor; intros [] | ].
  intros x Hx [<- | []]. contradiction.
Qed.

Lemma dict_of_rows_keys_nodup {V : Type} (rows : list (string * V)) :
  NoDup (dict_keys (dict_of_rows rows)).
Proof.
  unfold dict_of_rows.
  assert (H : forall (d : list (string * V)),
             NoDup (dict_keys d) ->
             NoDup (dict_keys
                      (fold_left (fun d kv => dict_set (fst kv) (snd kv) d)
                         rows d))).
  { induction rows as [| r rows IH]; simpl; intros d Hd; [exact Hd |].
    apply IH. now apply dict_set_keys_nodup. }
  apply H. constructor.
Qed.

Lemma dict_get_ones (k : string) (l : list string) :
  ~ In k l -> dict_get k (map (fun x => (x, 1)) l) = None.
Proof.
  induction l as [| x l IH]; simpl; intros H; [reflexivity |].
  destruct (String.eqb_spec k x) as [-> | _]; [tauto |].
  apply IH. tauto.
Qed.

Lemma dict_set_ones (k : string) (l : list string) :
  ~ In k l ->
  dict_set k 1 (map (fun x => (x, 1)) l) = map (fun x => (x, 1)) (l ++ [k]).
Proof.
  induction l as [| x l IH]; simpl; intros H; [reflexivity |].
  destruct (String.eqb_spec k x) as [-> | _]; [tauto |].
  rewrite IH by tauto. reflexivity.
Qed.

Lemma Counter_nodup (l : list string) :
  NoDup l -> Counter l = map (fun x => (x, 1)) l.
Proof.
  unfold Counter.
  assert (H : forall done,
             NoDup (done ++ l) ->
             fold_left
               (fun d k =>
                  dict_set k
                    (1 + match dict_get k d with Some n => n | None => 0 end) d)
               l (map (fun x => (x, 1)) done)
             = map (fun x => (x, 1)) (done ++ l)).
  { induction l as [| k l IH]; simpl; intros done Hnd.
    - now rewrite app_nil_r.
    - assert (Hk : ~ In k done).
      { intros Hin. apply NoDup_remove_2 in Hnd. apply Hnd.
        apply in_or_app. now left. }
      rewrite dict_get_ones by exact Hk. simpl.
      rewrite dict_set_ones by exact Hk.
      rewrite IH; rewrite <- app_assoc; [reflexivity | exact Hnd]. }
  intros Hnd. exact (H [] Hnd).
Qed.

(** C4: what the code does when one value is proposed for two AIDs.
    The candidates are gathered in a dict keyed by the value, so the
    collision count of every candidate is 1 and [count > 1] never holds;
    here [S1] and [S2] both carry [k = abc], and [abc] becomes an alias
    of [S2], the later row, with no warning. *)
Theorem alias_column_keeps_last (rows : list (string * Z)) :
  Counter (dict_keys (dict_of_rows rows))
    = map (fun x => (x, 1)) (dict_keys (dict_of_rows rows))
  /\ (let S1 := Accession.make "S1" [] [("k", Accession.MText "abc")] in
      let S2 := Accession.make "S2" [] [("k", Accession.MText "abc")] in
      let c0 := open_cohort "" "c" "Cohort" empty_db in
      let c1 := fst (@add_accession reference_env S1 c0) in
      let c2 := fst (@add_accession reference_env S2 c1) in
      select_column "k" (_db c2) = [("abc", 1); ("abc", 2)]
      /\ snd (alias_column "k" 3 c2) = Ok tt
      /\ aliases (_db (fst (alias_column "k" 3 c2))) = [("abc", 2)]
      /\ warnings (fst (alias_column "k" 3 c2)) = []).
Proof.
  split.
  - apply Counter_nodup, dict_of_rows_keys_nodup.
  - vm_compute. repeat split.
Qed.

(** The rest of [alias_column], on a catalog where no value is proposed
    twice: a candidate equal to a name and a candidate shorter than the
    minimum are skipped with a warning each, the others are inserted. *)
Lemma alias_column_skips :
  let c := open_cohort "" "c" "Cohort"
             (mkDatabase [] [(1, "S1"); (2, "S2"); (3, "S3")] 3 []
                [(1, "k", "S2"); (2, "k", "ab"); (3, "k", "abc")] [] []) in
  aliases (_db (fst (alias_column "k" 3 c))) = [("abc", 3)]
  /\ warnings (fst (alias_column "k" 3 c)) =
       ["Cannot use S2 as it is not unique";
        "Skipping ab as it is too short (<3)"].
Proof. vm_compute. repeat split. Qed.

(* ================================================================== *)
(** ** Adding an Accession *)

Lemma max_list_ge (x : Z) (l : list Z) : In x l -> x <= max_list l.
Proof.
  induction l as [| y l IH]; simpl; [contradiction |].
  intros [-> | H]; [lia |]. specialize (IH H). lia.
Qed.

Lemma dict_set_fresh {V : Type} (k : string) (v : V) (d : list (string * V)) :
  ~ In k (map fst d) -> dict_set k v d = (d ++ [(k, v)])%list.
Proof.
  induction d as [| [k' v'] d IH]; simpl; intros H; [reflexivity |].
  destruct (String.eqb_spec k k') as [-> | _]; [tauto |].
  rewrite IH by tauto. reflexivity.
Qed.

Lemma dict_of_rows_nodup {V : Type} (rows : list (string * V)) :
  NoDup (map fst rows) -> dict_of_rows rows = rows.
Proof.
  unfold dict_of_rows.
  assert (H : forall done,
             NoDup (map fst (done ++ rows)) ->
             fold_left (fun d kv => dict_set (fst kv) (snd kv) d) rows done
             = (done ++ rows)%list).
  { induction rows as [| [k v] rows IH]; simpl; intros done Hnd.
    - now rewrite app_nil_r.
    - rewrite map_app in Hnd. simpl in Hnd.
      rewrite dict_set_fresh.
      + rewrite IH; rewrite <- app_assoc; [reflexivity |].
        rewrite map_app. exact Hnd.
      + intros Hin. apply NoDup_remove_2 in Hnd. apply Hnd.
        apply in_or_app. now left. }
  intros Hnd. exact (H [] Hnd).
Qed.

Lemma raw_files_frame (files : list string) (d : Database) :
  let d' := fold_left (fun d file => insert_or_ignore_raw_file file d) files d in
  accessions d' = accessions d /\ metadata d' = metadata d
  /\ aliases d' = aliases d /\ aid_files d' = aid_files d.
Proof.
  revert d. induction files as [| f files IH]; simpl; intros d.
  - repeat split.
  - destruct (IH (insert_or_ignore_raw_file f d)) as (H1 & H2 & H3 & H4).
    rewrite H1, H2, H3, H4. unfold insert_or_ignore_raw_file.
    destruct (existsb _ (raw_files d)); repeat split.
Qed.

Lemma filter_all {A : Type} (f : A -> bool) (l : list A) :
  (forall x, In x l -> f x = true) -> filter f l = l.
Proof.
  induction l as [| x l IH]; simpl; intros H; [reflexivity |].
  rewrite (H x (or_introl eq_refl)). f_equal. apply IH.
  intros y Hy. apply H. now right.
Qed.

Lemma filter_nothing {A : Type} (f : A -> bool) (l : list A) :
  (forall x, In x l -> f x = false) -> filter f l = [].
Proof.
  induction l as [| x l IH]; simpl; intros H; [reflexivity |].
  rewrite (H x (or_introl eq_refl)). apply IH.
  intros y Hy. apply H. now right.
Qed.

Lemma metadata_written_from (aid : Z) (d : Database)
  (m : list (string * Accession.mval)) :
  (forall r, In r (metadata d) -> fst (fst r) <> aid) ->
  forall done d0,
    NoDup (map fst (done ++ m)) ->
    metadata d0 = (metadata d ++ metadata_rows aid done)%list ->
    let d' :=
      fold_left
        (fun d kv =>
           insert_or_replace_metadata
             (aid, fst kv, Accession.as_text (snd kv)) d)
        m d0 in
    metadata d' = (metadata d ++ metadata_rows aid (done ++ m))%list
    /\ accessions d' = accessions d0.
Proof.
  intros Hold.
  induction m as [| [k v] m IH]; simpl; intros done d0 Hnd Hd0.
  - rewrite app_nil_r. now split.
  - assert (Hk : ~ In k (map fst done)).
    { rewrite map_app in Hnd. simpl in Hnd.
      apply NoDup_remove_2 in Hnd. intros Hin. apply Hnd.
      apply in_or_app. now left. }
    replace (done ++ (k, v) :: m)%list with ((done ++ [(k, v)]) ++ m)%list
      in * by now rewrite <- app_assoc.
    specialize (IH (done ++ [(k, v)])%list
                  (insert_or_replace_metadata
                     (aid, k, Accession.as_text v) d0) Hnd).
    simpl in IH. destruct IH as [IH1 IH2].
    + rewrite filter_all.
      * rewrite Hd0. unfold metadata_rows.
        rewrite map_app, <- app_assoc. reflexivity.
      * intros [[a' k'] v'] Hin. rewrite Hd0 in Hin.
        unfold metadata_row_eqb. simpl.
        apply in_app_or in Hin as [Hin | Hin].
        -- apply Hold in Hin. simpl in Hin.
           apply Z.eqb_neq in Hin. now rewrite Hin.
        -- unfold metadata_rows in Hin. apply in_map_iff in Hin.
           destruct Hin as ([k0 v0] & [= <- <- <-] & Hin0). simpl.
           destruct (String.eqb_spec k0 k) as [-> | _].
           ++ exfalso. apply Hk.
              now apply (in_map fst done (k, v0)).
           ++ now rewrite andb_false_r.
    + split; [exact IH1 | exact IH2].
Qed.

Lemma metadata_written (aid : Z) (m : list (string * Accession.mval))
  (d : Database) :
  NoDup (map fst m) ->
  (forall r, In r (metadata d) -> fst (fst r) <> aid) ->
  let d' :=
    fold_left
      (fun d kv =>
         insert_or_replace_metadata (aid, fst kv, Accession.as_text (snd kv)) d)
      m d in
  metadata d' = (metadata d ++ metadata_rows aid m)%list
  /\ accessions d' = accessions d.
Proof.
  intros Hnd Hold.
  apply (metadata_written_from aid d m Hold [] d Hnd).
  simpl. now rewrite app_nil_r.
Qed.

Lemma metadata_fold_frame (aid : Z) (m : list (string * Accession.mval))
  (d : Database) :
  let d' :=
    fold_left
      (fun d kv =>
         insert_or_replace_metadata (aid, fst kv, Accession.as_text (snd kv)) d)
      m d in
  aliases d' = aliases d /\ aid_files d' = aid_files d.
Proof.
  revert d. induction m as [| kv m IH]; intros d; simpl; [now split |].
  destruct (IH (insert_or_replace_metadata
                  (aid, fst kv, Accession.as_text (snd kv)) d)) as [H1 H2].
  rewrite H1, H2. now split.
Qed.

Lemma select_AID_by_name_none_existsb (s : string) (d : Database) :
  select_AID_by_name s d = None ->
  existsb (fun r => String.eqb (snd r) s) (accessions d) = false
  /\ find (fun r => String.eqb (snd r) s) (accessions d) = None.
Proof.
  unfold select_AID_by_name. intros H.
  destruct (find _ (accessions d)) eqn:Hf; [discriminate |].
  split; [| reflexivity].
  destruct (existsb _ (accessions d)) eqn:E; [| reflexivity].
  apply existsb_exists in E as (x & Hx & Hs).
  now rewrite (find_none _ _ Hf x Hx) in Hs.
Qed.

Lemma find_AID_fresh (d : Database) :
  find (fun r => Z.eqb (fst r) (next_AID d)) (accessions d) = None.
Proof.
  destruct (find _ (accessions d)) as [[a s] |] eqn:Hf; [| reflexivity].
  apply find_some in Hf as [Hin Heq]. simpl in Heq.
  apply Z.eqb_eq in Heq.
  pose proof (max_list_ge a (map fst (accessions d))
                (in_map fst _ _ Hin)) as Hle.
  unfold next_AID in Heq. simpl in Hle. lia.
Qed.

(** The tables after the block, for a name new to the catalog. *)
Lemma added_new (accession : Accession.t) (d : Database) :
  select_AID_by_name (Accession.name accession) d = None ->
  metadata_assigned d ->
  NoDup (map fst (Accession.metadata accession)) ->
  let d' := added accession (next_AID d) d in
  accessions d' =
    (accessions d ++ [(next_AID d, Accession.name accession)])%list
  /\ metadata d' =
       (metadata d
        ++ metadata_rows (next_AID d) (Accession.metadata accession))%list
  /\ aliases d' = aliases d
  /\ aid_files d' = aid_files d.
Proof.
  intros Hnew Hmeta Hnd. unfold added.
  destruct (select_AID_by_name_none_existsb _ _ Hnew) as [Hex _].
  set (d1 := insert_or_ignore_accession (Accession.name accession) d).
  assert (Hd1 : d1 = mkDatabase (globals d)
                       (accessions d
                        ++ [(next_AID d, Accession.name accession)])
                       (next_AID d) (aliases d) (metadata d) (raw_files d)
                       (aid_files d)).
  { unfold d1, insert_or_ignore_accession. now rewrite Hex. }
  destruct (raw_files_frame (Accession.files accession)
              (fold_left
                 (fun d0 kv =>
                    insert_or_replace_metadata
                      (next_AID d, fst kv, Accession.as_text (snd kv)) d0)
                 (Accession.metadata accession) d1))
    as (H1 & H2 & H3 & H4).
  rewrite H1, H2, H3, H4.
  destruct (metadata_written (next_AID d) (Accession.metadata accession) d1
              Hnd) as [M1 M2].
  { intros r Hr. rewrite Hd1 in Hr. simpl in Hr.
    apply Hmeta in Hr. lia. }
  destruct (metadata_fold_frame (next_AID d) (Accession.metadata accession)
              d1) as [F1 F2].
  rewrite M1, M2, F1, F2, Hd1. simpl. repeat split.
Qed.

Lemma select_metadata_added (accession : Accession.t) (d : Database) :
  select_AID_by_name (Accession.name accession) d = None ->
  metadata_assigned d ->
  NoDup (map fst (Accession.metadata accession)) ->
  select_metadata (next_AID d) (added accession (next_AID d) d) =
  map (fun kv => (fst kv, Accession.as_text (snd kv)))
      (Accession.metadata accession).
Proof.
  intros Hnew Hmeta Hnd.
  destruct (added_new accession d Hnew Hmeta Hnd) as (_ & Hm & _).
  unfold select_metadata. rewrite Hm, filter_app.
  rewrite filter_nothing.
  - rewrite filter_all.
    + unfold metadata_rows. simpl. rewrite map_map. reflexivity.
    + intros r Hr. unfold metadata_rows in Hr.
      apply in_map_iff in Hr as (kv & <- & _). simpl. apply Z.eqb_refl.
  - intros r Hr. apply Hmeta in Hr. apply Z.eqb_neq. lia.
Qed.

Lemma accession_of_added (accession : Accession.t) (d : Database) :
  select_AID_by_name (Accession.name accession) d = None ->
  metadata_assigned d ->
  NoDup (map fst (Accession.metadata accession)) ->
  free_keys (Accession.metadata accession) ->
  accession_of (next_AID d) (added accession (next_AID d) d) =
  Ok (Accession.make (Accession.name accession)
        (select_files (next_AID d) (added accession (next_AID d) d))
        (metadata_read (next_AID d) (Accession.metadata accession))).
Proof.
  intros Hnew Hmeta Hnd Hfree.
  destruct (added_new accession d Hnew Hmeta Hnd) as (Ha & _).
  unfold accession_of.
  assert (Hname : select_name_by_AID (next_AID d)
                    (added accession (next_AID d) d)
                  = Some (Accession.name accession)).
  { unfold select_name_by_AID. rewrite Ha.
    rewrite find_app_none by apply find_AID_fresh.
    simpl. now rewrite Z.eqb_refl. }
  rewrite Hname, (select_metadata_added accession d Hnew Hmeta Hnd).
  rewrite map_map. simpl.
  set (rows := map (fun kv : string * Accession.mval =>
                      (fst kv, Accession.MText (Accession.as_text (snd kv))))
                 (Accession.metadata accession)).
  assert (Hkeys : map fst rows = map fst (Accession.metadata accession)).
  { unfold rows. rewrite map_map. reflexivity. }
  rewrite dict_of_rows_nodup by (rewrite Hkeys; exact Hnd).
  rewrite dict_set_fresh.
  - fold (metadata_read (next_AID d) (Accession.metadata accession)).
    replace (existsb _ _) with false; [reflexivity |].
    symmetry. unfold metadata_read, dict_keys. fold rows.
    rewrite map_app, existsb_app. simpl. rewrite orb_false_r.
    destruct (existsb _ (map fst rows)) eqn:E; [| reflexivity].
    apply existsb_exists in E as (k & Hk & Hres).
    rewrite Hkeys in Hk. destruct (Hfree k Hk) as (H1 & H2 & _).
    apply orb_prop in Hres as [Hres | Hres];
      apply String.eqb_eq in Hres; contradiction.
  - rewrite Hkeys. intros Hin. now destruct (Hfree _ Hin) as (_ & _ & H).
Qed.

Lemma with_db_same (c : Cohort) : with_db (_db c) c = c.
Proof. now destruct c. Qed.

Lemma for_each_modify_db {A : Type} (f : A -> Database -> Database)
  (l : list A) (c : Cohort) :
  for_each (fun x => modify_db (f x)) l c =
  (with_db (fold_left (fun d x => f x d) l (_db c)) c, Ok tt).
Proof.
  revert c. induction l as [| x l IH]; intros c; simpl.
  - unfold ret. now rewrite with_db_same.
  - unfold bind, modify_db at 1. rewrite IH. reflexivity.
Qed.

Lemma stored_bindable (v : Accession.mval) :
  Accession.bindable v = true ->
  Accession.stored v = Ok (Accession.as_text v).
Proof.
  destruct v as [s | n]; simpl; [reflexivity |]. now intros ->.
Qed.

Lemma stored_unbindable (v : Accession.mval) :
  Accession.bindable v = false ->
  Accession.stored v = Raise OverflowError.
Proof.
  destruct v as [s | n]; simpl; [discriminate |]. now intros ->.
Qed.

(** The loop of [executemany] over the metadata: every row is written
    when every value is bound. *)
Lemma for_each_metadata (aid : Z) (m : list (string * Accession.mval))
  (c : Cohort) :
  all_bindable m = true ->
  for_each
    (fun kv =>
       val <- lift (Accession.stored (snd kv)) ;;
       modify_db (insert_or_replace_metadata (aid, fst kv, val))) m c =
  (with_db
     (fold_left
        (fun d kv =>
           insert_or_replace_metadata
             (aid, fst kv, Accession.as_text (snd kv)) d)
        m (_db c)) c, Ok tt).
Proof.
  revert c. induction m as [| kv m IH]; intros c Hb; simpl.
  - unfold ret. now rewrite with_db_same.
  - simpl in Hb. apply andb_prop in Hb as [Hv Hm].
    unfold bind at 1. unfold bind at 1. unfold lift at 1.
    rewrite (stored_bindable _ Hv). unfold modify_db at 1.
    rewrite (IH _ Hm). reflexivity.
Qed.

(** The loop stops at the first value that is not bound: it raises
    [OverflowError] and has written to the tables only. *)
Lemma for_each_metadata_overflow (aid : Z)
  (m : list (string * Accession.mval)) (c : Cohort) :
  all_bindable m = false ->
  exists d',
    for_each
      (fun kv =>
         val <- lift (Accession.stored (snd kv)) ;;
         modify_db (insert_or_replace_metadata (aid, fst kv, val))) m c =
    (with_db d' c, Raise OverflowError).
Proof.
  revert c. induction m as [| kv m IH]; intros c Hb; simpl in Hb;
    [discriminate |].
  simpl. unfold bind at 1. unfold bind at 1. unfold lift at 1.
  destruct (Accession.bindable (snd kv)) eqn:Hv.
  - rewrite (stored_bindable _ Hv). unfold modify_db at 1.
    destruct (IH (with_db
                    (insert_or_replace_metadata
                       (aid, fst kv, Accession.as_text (snd kv)) (_db c)) c)
                Hb) as [d' Hd'].
    rewrite Hd'. exists d'. now destruct c.
  - rewrite (stored_unbindable _ Hv). exists (_db c).
    now rewrite with_db_same.
Qed.

Lemma bulk_transaction_returns {A : Type} (body : M A) (c c2 : Cohort)
  (a : A) :
  savepoints c = [] ->
  body (entered c) = (c2, Ok a) ->
  savepoints c2 = savepoints (entered c) ->
  bulk_transaction body c =
  (with_executed (executed c2 ++ [Release])
     (with_savepoints (savepoints c) c2), Ok a).
Proof.
  intros Hnone Hb Hsp. rewrite (bulk_transaction_entry body c Hnone).
  unfold try_finally, try_except_Exception. rewrite Hb.
  unfold execute. rewrite Hsp. reflexivity.
Qed.

(** A block that raises an exception of class [Exception]: the tables
    are rolled back, the save-point is released, the exception is
    raised again. *)
Lemma bulk_transaction_raises {A : Type} (body : M A) (c c2 : Cohort)
  (e : exn) :
  savepoints c = [] ->
  body (entered c) = (c2, Raise e) ->
  is_Exception e = true ->
  savepoints c2 = savepoints (entered c) ->
  bulk_transaction body c =
  (with_executed (executed c2 ++ [RollbackTo; Release])
     (with_savepoints (savepoints c) (with_db (_db c) c2)), Raise e).
Proof.
  intros Hnone Hb He Hsp. rewrite (bulk_transaction_entry body c Hnone).
  unfold try_finally, try_except_Exception. rewrite Hb, He.
  unfold bind, execute, raise. rewrite Hsp. simpl. rewrite Hsp. simpl.
  rewrite <- app_assoc, Hnone. reflexivity.
Qed.

Lemma cache_find_head (i : ident) (a : Z) (k : list (ident * Z)) :
  cache_find i ((i, a) :: k) = Some a.
Proof.
  unfold cache_find. simpl.
  destruct (ident_eq_dec i i); [reflexivity | contradiction].
Qed.

Lemma cache_find_store (i : ident) (a : Z) (k : list (ident * Z)) :
  cache_find i (cache_store i a k) = Some a.
Proof.
  unfold cache_store. destruct (_ <? _); apply cache_find_head.
Qed.

Lemma cache_find_none (j : ident) (k : list (ident * Z)) :
  (forall b, ~ In (j, b) k) -> cache_find j k = None.
Proof.
  intros H. destruct (cache_find j k) as [b |] eqn:E; [| reflexivity].
  apply cache_find_In in E. now apply H in E.
Qed.

Lemma cache_find_none_In (j : ident) (k : list (ident * Z)) (b : Z) :
  cache_find j k = None -> ~ In (j, b) k.
Proof.
  unfold cache_find. intros H Hin.
  destruct (find _ k) eqn:Hf; [discriminate |].
  pose proof (find_none _ _ Hf _ Hin) as E. simpl in E.
  destruct (ident_eq_dec j j); [discriminate | contradiction].
Qed.

Section Adding.
Context `{Env : Environment}.

Lemma getitem_resolved (i : ident) (c : Cohort) (aid : Z) :
  snd (_get_AID i c) = Ok aid ->
  __getitem__ i c = (fst (_get_AID i c), accession_of aid (_db c)).
Proof.
  intros Hr. unfold __getitem__, bind, get_db.
  destruct (get_AID_frame i c) as [k Hk].
  destruct (_get_AID i c) as [c1 r]. simpl in *. subst r c1. simpl.
  unfold accession_of.
  destruct (select_name_by_AID aid (_db c)); [| reflexivity].
  destruct (existsb _ _); reflexivity.
Qed.

Lemma get_AID_body_added (accession : Accession.t) (d : Database) :
  select_AID_by_name (Accession.name accession) d = None ->
  get_AID_body (IAcc accession)
    (insert_or_ignore_accession (Accession.name accession) d)
  = Ok (next_AID d).
Proof.
  intros Hnew.
  destruct (select_AID_by_name_none_existsb _ _ Hnew) as [Hex Hf].
  unfold get_AID_body, select_AID_by_name, insert_or_ignore_accession.
  rewrite Hex. simpl. rewrite find_app_none by exact Hf.
  simpl. now rewrite String.eqb_refl.
Qed.

Lemma add_accession_block (accession : Accession.t) (c : Cohort) :
  savepoints c = [] ->
  all_bindable (Accession.metadata accession) = true ->
  select_AID_by_name (Accession.name accession) (_db c) = None ->
  cache_find (IAcc accession) (cache c) = None ->
  add_accession accession c =
  __getitem__ (IAcc accession) (after_block accession c).
Proof.
  intros Hnone Hbind Hnew Hmiss. unfold add_accession, _bulk_transaction.
  unfold bind at 1.
  rewrite (bulk_transaction_returns _ c
             (with_cache
                (cache_store (IAcc accession) (next_AID (_db c)) (cache c))
                (with_db (added accession (next_AID (_db c)) (_db c))
                   (entered c)))
             tt Hnone).
  - unfold after_block. destruct c; simpl.
    rewrite <- app_assoc. reflexivity.
  - unfold bind at 1. unfold modify_db at 1.
    unfold bind at 1. unfold _get_AID. simpl cache. rewrite Hmiss.
    simpl _db. rewrite (get_AID_body_added accession (_db c) Hnew).
    unfold bind at 1.
    rewrite (for_each_metadata (next_AID (_db c)) _ _ Hbind).
    rewrite (for_each_modify_db (fun file => insert_or_ignore_raw_file file)).
    reflexivity.
  - reflexivity.
Qed.

(** C1, as amended.  Let no save-point be open, let the name of the
    Accession be new to the catalog and hold no entry in the identity
    cache, let no metadata row carry an AID that was never assigned, and
    let the metadata [M] be a dict whose keys are not [name], [files] or
    [AID] and whose values are text or signed 64-bit integers.  Then
    [add_accession], a following get of the Accession and a following
    get of its name all return the same object: its name is that of the
    Accession and its metadata is [M], each value as the text stored for
    it, followed by the key [AID] bound to the AID the name was given. *)
Theorem add_then_get (accession : Accession.t) (c : Cohort) :
  savepoints c = [] ->
  all_bindable (Accession.metadata accession) = true ->
  select_AID_by_name (Accession.name accession) (_db c) = None ->
  cache_find (IAcc accession) (cache c) = None ->
  cache_find (IStr (Accession.name accession)) (cache c) = None ->
  metadata_assigned (_db c) ->
  NoDup (map fst (Accession.metadata accession)) ->
  free_keys (Accession.metadata accession) ->
  let c' := fst (add_accession accession c) in
  exists files,
    let got :=
      Accession.make (Accession.name accession) files
        (metadata_read (next_AID (_db c)) (Accession.metadata accession)) in
    snd (add_accession accession c) = Ok got
    /\ snd (__getitem__ (IAcc accession) c') = Ok got
    /\ snd (__getitem__ (IStr (Accession.name accession)) c') = Ok got.
Proof.
  intros Hnone Hbind Hnew Hmiss Hmiss' Hmeta Hnd Hfree c'.
  set (aid := next_AID (_db c)).
  set (d' := added accession aid (_db c)).
  exists (select_files aid d').
  pose proof (accession_of_added accession (_db c) Hnew Hmeta Hnd Hfree)
    as Hacc. fold aid d' in Hacc.
  assert (Hdb : _db (after_block accession c) = d') by reflexivity.
  assert (Hhit : snd (_get_AID (IAcc accession) (after_block accession c))
                 = Ok aid).
  { unfold _get_AID. simpl cache. now rewrite cache_find_store. }
  assert (Hadd : add_accession accession c =
                 (fst (_get_AID (IAcc accession) (after_block accession c)),
                  accession_of aid d')).
  { rewrite (add_accession_block accession c Hnone Hbind Hnew Hmiss).
    now rewrite (getitem_resolved _ _ aid Hhit), Hdb. }
  assert (Hc' : exists k,
             c' = with_cache
                    (cache_touch (IAcc accession) aid
                       (cache_store (IAcc accession) aid (cache c)))
                    (after_block accession c)
             /\ k = cache c').
  { eexists. split; [| reflexivity]. subst c'. rewrite Hadd. simpl.
    unfold _get_AID. simpl cache. now rewrite cache_find_store. }
  destruct Hc' as (k & Hc' & _).
  assert (Hdb' : _db c' = d') by (rewrite Hc'; reflexivity).
  split; [| split].
  - now rewrite Hadd, <- Hacc.
  - rewrite (getitem_resolved _ _ aid).
    + simpl. now rewrite Hdb', <- Hacc.
    + unfold _get_AID. rewrite Hc'. simpl cache.
      unfold cache_touch. now rewrite cache_find_head.
  - rewrite (getitem_resolved _ _ aid).
    + simpl. now rewrite Hdb', <- Hacc.
    + unfold _get_AID.
      rewrite cache_find_none.
      * rewrite Hdb'.
        assert (Hb : get_AID_body (IStr (Accession.name accession)) d'
                     = Ok aid).
        { destruct (added_new accession (_db c) Hnew Hmeta Hnd) as (Ha & _).
          destruct (select_AID_by_name_none_existsb _ _ Hnew) as [_ Hf].
          unfold get_AID_body, select_AID_by_name. fold aid d' in Ha.
          rewrite Ha, find_app_none by exact Hf.
          simpl. now rewrite String.eqb_refl. }
        now rewrite Hb.
      * intros b Hin. rewrite Hc' in Hin. simpl in Hin.
        apply cache_touch_In in Hin as [[= ] | Hin].
        apply cache_store_In in Hin as [[= ] | Hin].
        now apply (cache_find_none_In _ _ b Hmiss') in Hin.
Qed.

End Adding.

Lemma add_then_get_witness :
  let c := open_cohort "" "c" "Cohort" empty_db in
  let c' := fst (@add_accession reference_env accession_S1 c) in
  metadata_assigned (_db c)
  /\ free_keys (Accession.metadata accession_S1)
  /\ exists files,
       snd (@__getitem__ reference_env (IStr "S1") c') =
       Ok (Accession.make "S1" files
             [("age", Accession.MText "23"); ("AID", Accession.MInt 1)]).
Proof.
  intros c c'.
  assert (Hm : metadata_assigned (_db c)) by (intros r []).
  assert (Hf : free_keys (Accession.metadata accession_S1)).
  { intros k [<- | []]. repeat split; discriminate. }
  assert (Hnd : NoDup (map fst (Accession.metadata accession_S1))).
  { repeat constructor. intros []. }
  split; [exact Hm |]. split; [exact Hf |].
  destruct (@add_then_get reference_env accession_S1 c
              eq_refl eq_refl eq_refl eq_refl eq_refl Hm Hnd Hf)
    as (files & _ & _ & H).
  exists files. exact H.
Defined.

(** C1, as stated, fails: the object got back for [S1] carries the key
    [AID] in its metadata and no file; the path went to [raw_files] and
    no row links it to the Accession. *)
Lemma add_then_get_differs :
  let c := open_cohort "" "c" "Cohort" empty_db in
  let c' := fst (@add_accession reference_env accession_S1 c) in
  let got := Accession.make "S1" []
               [("age", Accession.MText "23"); ("AID", Accession.MInt 1)] in
  snd (@add_accession reference_env accession_S1 c) = Ok got
  /\ snd (@__getitem__ reference_env (IStr "S1") c') = Ok got
  /\ ~ dict_equal (Accession.metadata got) (Accession.metadata accession_S1)
  /\ ~ same_set (Accession.files got) (Accession.files accession_S1)
  /\ raw_files (_db c') = [(1, "a.fastq")]
  /\ aid_files (_db c') = [].
Proof.
  intros c c' got.
  split; [reflexivity |]. split; [reflexivity |]. split; [| split].
  - intros H. specialize (H "AID"). discriminate H.
  - intros H. destruct (proj2 (H "a.fastq")). now left.
  - split; reflexivity.
Qed.

(* ================================================================== *)
(** ** Sampling *)

Lemma dict_of_rows_keys_in {V : Type} (rows : list (string * V)) (k : string) :
  In k (dict_keys (dict_of_rows rows)) -> In k (map fst rows).
Proof.
  unfold dict_of_rows.
  assert (H : forall d,
             In k (dict_keys
                     (fold_left (fun d kv => dict_set (fst kv) (snd kv) d)
                        rows d)) ->
             In k (dict_keys d) \/ In k (map fst rows)).
  { induction rows as [| [k' v'] rows IH]; simpl; intros d Hin; [now left |].
    apply IH in Hin as [Hin | Hin]; [| now right; right].
    rewrite dict_set_keys in Hin.
    destruct (existsb _ (dict_keys d)); [now left |].
    apply in_app_or in Hin as [Hin | [<- | []]]; [now left |].
    right. now left. }
  intros Hin. now destruct (H [] Hin) as [[] | Hk].
Qed.

Lemma accession_of_readable (aid : Z) (name : string) (d : Database) :
  In (aid, name) (accessions d) -> readable d ->
  exists acc, accession_of aid d = Ok acc.
Proof.
  intros Hin Hread. unfold accession_of.
  destruct (select_name_by_AID aid d) as [n |] eqn:Hn.
  - destruct (existsb _ _) eqn:E; [| eexists; reflexivity].
    exfalso. apply existsb_exists in E as (k & Hk & Hres).
    rewrite dict_set_keys in Hk.
    assert (Hk' : k = "AID"
                  \/ In k (map fst
                             (map (fun kv => (fst kv, Accession.MText (snd kv)))
                                (select_metadata aid d)))).
    { destruct (existsb _ _).
      - right. now apply dict_of_rows_keys_in.
      - apply in_app_or in Hk as [Hk | [<- | []]]; [| now left].
        right. now apply dict_of_rows_keys_in. }
    destruct Hk' as [-> | Hk']; [discriminate Hres |].
    rewrite map_map in Hk'. simpl in Hk'.
    unfold select_metadata in Hk'. rewrite map_map in Hk'. simpl in Hk'.
    apply in_map_iff in Hk' as (r & <- & Hr).
    apply filter_In in Hr as [Hr _].
    destruct (Hread r Hr) as [H1 H2].
    apply orb_prop in Hres as [Hres | Hres];
      apply String.eqb_eq in Hres; contradiction.
  - exfalso. unfold select_name_by_AID in Hn.
    destruct (find _ (accessions d)) eqn:Hf; [discriminate |].
    pose proof (find_none _ _ Hf _ Hin) as E. simpl in E.
    now rewrite Z.eqb_refl in E.
Qed.

Section Sampling.
Context `{Env : Environment}.

Lemma getitem_name (name : string) (c : Cohort) :
  In name (map snd (accessions (_db c))) ->
  cache_coherent c -> readable (_db c) ->
  exists acc,
    snd (__getitem__ (IStr name) c) = Ok acc
    /\ _db (fst (__getitem__ (IStr name) c)) = _db c
    /\ cache_coherent (fst (__getitem__ (IStr name) c)).
Proof.
  intros Hin Hcoh Hread.
  destruct (get_AID_coherent (IStr name) c Hcoh) as [Hres Hcoh'].
  destruct (get_AID_frame (IStr name) c) as [k Hk].
  assert (Hbody : exists aid,
             get_AID_body (IStr name) (_db c) = Ok aid
             /\ In (aid, name) (accessions (_db c))).
  { unfold get_AID_body, select_AID_by_name.
    destruct (find _ (accessions (_db c))) as [[aid s] |] eqn:Hf.
    - exists aid. split; [reflexivity |].
      apply find_some in Hf as [Hrow Heq]. simpl in Heq.
      apply String.eqb_eq in Heq. now subst s.
    - exfalso. apply in_map_iff in Hin as ([aid s] & Hs & Hrow).
      simpl in Hs. subst s.
      pose proof (find_none _ _ Hf _ Hrow) as E. simpl in E.
      now rewrite String.eqb_refl in E. }
  destruct Hbody as (aid & Hbody & Hrow).
  rewrite Hbody in Hres.
  destruct (accession_of_readable aid name (_db c) Hrow Hread) as [acc Hacc].
  exists acc. rewrite (getitem_resolved _ _ aid Hres). simpl.
  split; [exact Hacc |]. split; [| exact Hcoh'].
  rewrite Hk. reflexivity.
Qed.

Lemma random_accession_returns (r : nat) (c : Cohort) :
  accessions (_db c) <> [] ->
  cache_coherent c -> readable (_db c) ->
  exists acc,
    snd (random_accession r c) = Ok acc
    /\ _db (fst (random_accession r c)) = _db c
    /\ cache_coherent (fst (random_accession r c)).
Proof.
  intros Hne Hcoh Hread. unfold random_accession, bind, get_db.
  destruct (accessions (_db c)) as [| row rows] eqn:Hacc; [contradiction |].
  apply getitem_name; [| exact Hcoh | exact Hread].
  rewrite Hacc. apply in_map. apply nth_In.
  apply Nat.mod_upper_bound. discriminate.
Qed.

Lemma consume_draws (rnd : nat -> nat) (ks : list nat) (c : Cohort) :
  accessions (_db c) <> [] ->
  cache_coherent c -> readable (_db c) ->
  exists l,
    snd (consume (map (fun k => random_accession (rnd k)) ks) c) = Ok l
    /\ List.length l = List.length ks.
Proof.
  revert c. induction ks as [| k ks IH]; intros c Hne Hcoh Hread; simpl.
  - exists []. now split.
  - destruct (random_accession_returns (rnd k) c Hne Hcoh Hread)
      as (acc & Hr & Hdb & Hcoh').
    unfold bind at 1.
    destruct (random_accession (rnd k) c) as [c1 r1]. simpl in *. subst r1.
    destruct (IH c1) as (l & Hl & Hlen).
    + now rewrite Hdb.
    + exact Hcoh'.
    + now rewrite Hdb.
    + unfold bind at 1.
      destruct (consume _ c1) as [c2 r2]. simpl in *. subst r2.
      exists (acc :: l). simpl. now rewrite Hlen.
Qed.

(** C5, as amended.  Without replacement, a count above the number of
    Accessions raises [ValueError].  With replacement, the call returns
    a generator for every count; iterating it over a catalog that is not
    empty and can be read, under a cache that agrees with the tables,
    returns as many Accessions as were asked for; over an empty catalog
    the first draw raises [TypeError].  The Accessions drawn may repeat,
    as two draws from a catalog of one Accession do. *)
Theorem random_accessions_bounds (rnd : nat -> nat) (n : Z) (c : Cohort) :
  (__len__ c < n -> random_accessions rnd n false c = (c, Raise ValueError))
  /\ (exists g,
        random_accessions rnd n true c = (c, Ok g)
        /\ (accessions (_db c) <> [] ->
            cache_coherent c -> readable (_db c) ->
            exists l,
              snd (consume g c) = Ok l
              /\ List.length l = Z.to_nat n)
        /\ (accessions (_db c) = [] -> 0 < n ->
            consume g c = (c, Raise TypeError)))
  /\ (exists g a,
        random_accessions rnd 2 true cohort_S1 = (cohort_S1, Ok g)
        /\ snd (consume g cohort_S1) = Ok [a; a]).
Proof.
  split; [| split].
  - intros Hlt. unfold random_accessions. simpl.
    apply Z.ltb_lt in Hlt. now rewrite Hlt.
  - eexists. split; [reflexivity |]. split.
    + intros Hne Hcoh Hread.
      destruct (consume_draws rnd (seq 0 (Z.to_nat n)) c Hne Hcoh Hread)
        as (l & Hl & Hlen).
      exists l. split; [exact Hl |]. now rewrite Hlen, length_seq.
    + intros Hempty Hn.
      destruct (Z.to_nat n) as [| m] eqn:Hm; [lia |].
      rewrite <- cons_seq. simpl map. simpl consume.
      unfold bind at 1. unfold random_accession at 1.
      unfold bind at 1. unfold get_db at 1.
      now rewrite Hempty.
  - eexists. eexists. split; reflexivity.
Qed.

End Sampling.

Lemma cohort_S1_coherent : @cache_coherent reference_env cohort_S1.
Proof. intros i a []. Qed.

Lemma cohort_S1_readable : readable (_db cohort_S1).
Proof.
  intros r [<- | []]. simpl. split; discriminate.
Qed.

(** An instance of C5: three draws with replacement from a catalog of
    one Accession return it three times; two without replacement raise. *)
Lemma random_accessions_bounds_witness :
  let rnd := fun k : nat => k in
  let S1 := Accession.make "S1" []
              [("age", Accession.MText "23"); ("AID", Accession.MInt 1)] in
  __len__ cohort_S1 < 2
  /\ accessions (_db cohort_S1) <> []
  /\ @random_accessions reference_env rnd 2 false cohort_S1
     = (cohort_S1, Raise ValueError)
  /\ (exists g l,
        @random_accessions reference_env rnd 3 true cohort_S1
        = (cohort_S1, Ok g)
        /\ snd (consume g cohort_S1) = Ok l
        /\ List.length l = 3%nat)
  /\ (forall g,
        @random_accessions reference_env rnd 3 true cohort_S1
        = (cohort_S1, Ok g) ->
        snd (consume g cohort_S1) = Ok [S1; S1; S1]).
Proof.
  intros rnd S1.
  assert (Hne : accessions (_db cohort_S1) <> []) by discriminate.
  destruct (@random_accessions_bounds reference_env rnd 2 cohort_S1)
    as [Hraise _].
  destruct (@random_accessions_bounds reference_env rnd 3 cohort_S1)
    as (_ & (g & Hg & Hdraw & _) & _).
  destruct (Hdraw Hne cohort_S1_coherent cohort_S1_readable) as (l & Hl & Hn).
  split; [reflexivity |]. split; [exact Hne |].
  split; [exact (Hraise eq_refl) |]. split.
  - exists g, l. repeat split; assumption.
  - intros g' Hg'. injection Hg' as <-. reflexivity.
Defined.

(** C5, as stated, fails: on the empty catalog the call with replacement
    returns its generator, and the first draw raises [TypeError]. *)
Lemma random_accessions_empty_catalog :
  let c := open_cohort "" "c" "Cohort" empty_db in
  exists g,
    @random_accessions reference_env (fun k => k) 1 true c = (c, Ok g)
    /\ consume g c = (c, Raise TypeError).
Proof. eexists. split; reflexivity. Qed.

(* ================================================================== *)
(** * Further properties *)

(** ** The key-value store, continued *)

Lemma find_app_some_first {A : Type} (f : A -> bool) (l1 l2 : list A) (x : A) :
  find f l1 = Some x -> find f (l1 ++ l2) = Some x.
Proof.
  induction l1 as [| y l1 IH]; simpl; [discriminate |].
  destruct (f y); [trivial | exact IH].
Qed.

Lemma select_global_upsert_other (k k' : string) (v : option string)
  (ty : string) (d : Database) :
  k <> k' ->
  select_global k' (upsert_global (k, v, ty) d) = select_global k' d.
Proof.
  intros Hne. unfold select_global, upsert_global, set_globals; simpl.
  destruct (find (fun r => String.eqb (fst (fst r)) k') (globals d))
    as [r |] eqn:Hf.
  - erewrite find_app_some_first; [reflexivity |].
    rewrite find_filter_same; [exact Hf |].
    intros [[k0 v0] t0] _ Hk. simpl in *.
    apply String.eqb_eq in Hk. subst k0.
    apply negb_true_iff. apply String.eqb_neq. congruence.
  - rewrite find_app_none by now apply find_none_filter.
    simpl. destruct (String.eqb_spec k k'); [contradiction | reflexivity].
Qed.

Lemma map_key_filter (k : string)
  (l : list (string * option string * string)) :
  map (fun r => fst (fst r))
      (filter (fun r => negb (String.eqb (fst (fst r)) k)) l)
  = filter (fun x => negb (String.eqb x k)) (map (fun r => fst (fst r)) l).
Proof.
  induction l as [| r l IH]; simpl; [reflexivity |].
  destruct (negb (String.eqb (fst (fst r)) k)); simpl; now rewrite IH.
Qed.

Section KeyValueMore.
Context `{Env : Environment}.

(** What [set] leaves: the tables with the row of the key replaced, or
    the state as it was when the value is refused. *)
Lemma dict_set_state (key : string) (v : pyval) (c : Cohort) :
  fst (_dict key (Some v) c) = c
  \/ exists t ty,
       fst (_dict key (Some v) c)
       = with_db (upsert_global (key, t, ty) (_db c)) c.
Proof.
  unfold _dict, bind, lift, modify_db, ret, raise.
  destruct (negb _); simpl; [now left |].
  destruct (bind_val v) as [t | e]; simpl.
  - right. now exists t, (guess_type v).
  - left. now destruct e.
Qed.

Lemma dict_get_reads (key : string) (c : Cohort) :
  _dict key None c =
  (c,
   match select_global key (_db c) with
   | None => Raise ValueError
   | Some (valtype, value) =>
       match decode valtype value with
       | Raise TypeError => Raise ValueError
       | r => r
       end
   end).
Proof.
  unfold _dict, bind, get_db, raise, lift.
  destruct (select_global key (_db c)) as [[valtype value] |]; simpl;
    [| reflexivity].
  destruct (decode valtype value) as [r | e]; [reflexivity |].
  now destruct e.
Qed.

(** Setting one key leaves what [get] returns for every other key, and
    [get] leaves the state as it is. *)
Theorem dict_set_other_key (k k' : string) (v : pyval) (c : Cohort) :
  k <> k' ->
  snd (_dict k' None (fst (_dict k (Some v) c))) = snd (_dict k' None c)
  /\ fst (_dict k' None c) = c.
Proof.
  intros Hne. split; [| now rewrite dict_get_reads].
  rewrite !dict_get_reads. simpl.
  destruct (dict_set_state k v c) as [-> | (t & ty & ->)]; [reflexivity |].
  simpl. now rewrite select_global_upsert_other.
Qed.

(** [_dict] keeps one row per key: if the keys of [globals] are distinct
    they stay distinct, whatever is set or got. *)
Theorem dict_keeps_keys_unique (key : string) (val : option pyval)
  (c : Cohort) :
  NoDup (map (fun r => fst (fst r)) (globals (_db c))) ->
  NoDup (map (fun r => fst (fst r))
           (globals (_db (fst (_dict key val c))))).
Proof.
  intros Hnd. destruct val as [v |].
  - destruct (dict_set_state key v c) as [-> | (t & ty & ->)]; [exact Hnd |].
    simpl. rewrite map_app, map_key_filter. simpl.
    apply NoDup_app.
    + now apply NoDup_filter.
    + repeat constructor. intros [].
    + intros x Hx [<- | []].
      apply filter_In in Hx as [_ Hx].
      now rewrite String.eqb_refl in Hx.
  - now rewrite dict_get_reads.
Qed.

End KeyValueMore.

Lemma dict_set_other_key_witness :
  let c := open_cohort "" "c" "Cohort" empty_db in
  let c1 := fst (@_dict reference_env "a" (Some (PyInt 1)) c) in
  "b" <> "a"
  /\ snd (@_dict reference_env "a" None
            (fst (@_dict reference_env "b" (Some (PyStr "x")) c1)))
     = Ok (Some (PyInt 1)).
Proof.
  intros c c1.
  assert (H : "b" <> "a") by discriminate.
  split; [exact H |].
  rewrite (proj1 (@dict_set_other_key reference_env "b" "a" (PyStr "x") c1 H)).
  reflexivity.
Defined.

Lemma dict_keeps_keys_unique_witness :
  let c := open_cohort "" "c" "Cohort" empty_db in
  let c1 := fst (@_dict reference_env "a" (Some (PyInt 1)) c) in
  NoDup (map (fun r => fst (fst r)) (globals (_db c1)))
  /\ globals (_db (fst (@_dict reference_env "a" (Some (PyInt 2)) c1)))
     = [("a", Some "2", "int")].
Proof.
  intros c c1.
  assert (H0 : NoDup (map (fun r : string * option string * string =>
                             fst (fst r)) (globals (_db c))))
    by constructor.
  split; [| reflexivity].
  exact (@dict_keeps_keys_unique reference_env "a" (Some (PyInt 1)) c H0).
Defined.

Lemma contains_dot_app (p s : string) :
  contains "." (p ++ String "." s) = true.
Proof.
  induction p as [| c p IH]; simpl.
  - reflexivity.
  - rewrite IH. apply orb_true_r.
Qed.

Lemma last_component_plain (s : string) :
  contains "." s = false -> last_component s = s.
Proof.
  destruct s as [| c s]; simpl; [reflexivity |].
  intros H. apply orb_false_iff in H as [Hc Hs]. rewrite Hs.
  destruct (Ascii.eqb_spec c ".") as [-> | _]; [| reflexivity].
  simpl in Hc. destruct s; discriminate Hc.
Qed.

Section GuessType.
Context `{Env : Environment}.

(** [guess_type] returns the last component of a dotted class name, and
    a name without a dot as it is. *)
Theorem guess_type_last_component (p s : string) :
  contains "." s = false ->
  guess_type (PyObj (p ++ "." ++ s)) = s
  /\ guess_type (PyObj s) = s.
Proof.
  intros Hs. unfold guess_type. simpl class_name.
  split; [| now apply last_component_plain].
  change ("." ++ s) with (String "." s).
  induction p as [| c p IH].
  - simpl. now rewrite Hs.
  - simpl. now rewrite contains_dot_app.
Qed.

End GuessType.

Lemma guess_type_last_component_witness :
  contains "." "float64" = false
  /\ guess_type (@PyObj reference_env "numpy.float64") = "float64".
Proof.
  split; [reflexivity |].
  exact (proj1 (@guess_type_last_component reference_env "numpy" "float64"
                  eq_refl)).
Defined.

(* ================================================================== *)
(** ** Names *)

Lemma like_percent_more (p t : string) :
  like p t = true -> like (String "%" p) t = true.
Proof. intros H. rewrite like_percent, H. reflexivity. Qed.

Lemma like_percents (t : string) :
  like "%%" t = true /\ like "%%%" t = true.
Proof.
  assert (H2 : like "%%" t = true)
    by apply like_percent_more, like_percent_only.
  split; [exact H2 | now apply like_percent_more].
Qed.

(** The property [names], and the search for the empty string, list
    every Accession name, then every alias. *)
Theorem names_lists_all (c : Cohort) :
  names c = (map snd (accessions (_db c)) ++ map fst (aliases (_db c)))%list
  /\ search_names "" c = names c.
Proof.
  assert (H3 : forall l, filter (like "%%%") l = l).
  { intros l. apply filter_all. intros t _. apply like_percents. }
  assert (H2 : forall l, filter (like "%%") l = l).
  { intros l. apply filter_all. intros t _. apply like_percents. }
  unfold names, search_names. simpl append.
  now rewrite !H3, !H2.
Qed.

(* ================================================================== *)
(** ** Lookups *)

Section Lookups.
Context `{Env : Environment}.

Lemma get_AID_body_raises (i : ident) (d : Database) (e : exn) :
  get_AID_body i d = Raise e ->
  e = if bound i then NameError else OverflowError.
Proof.
  unfold get_AID_body, bound.
  destruct i as [s | n | a]; simpl; try destruct (fits_int64 n);
    repeat match goal with
           | |- context [match ?x with Some _ => _ | None => _ end] =>
               destruct x
           end; congruence.
Qed.

Lemma get_AID_body_unbound (i : ident) (d : Database) :
  bound i = false -> get_AID_body i d = Raise OverflowError.
Proof.
  unfold get_AID_body, bound.
  destruct i as [s | n | a]; simpl; try discriminate. now intros ->.
Qed.

Lemma get_AID_raises (i : ident) (c : Cohort) (e : exn) :
  snd (_get_AID i c) = Raise e ->
  e = (if bound i then NameError else OverflowError)
  /\ _get_AID i c = (c, Raise e).
Proof.
  unfold _get_AID.
  destruct (cache_find i (cache c)); simpl; [discriminate |].
  destruct (get_AID_body i (_db c)) as [a | e'] eqn:Hb; simpl;
    [discriminate |].
  intros [= <-]. now apply get_AID_body_raises in Hb.
Qed.

Lemma getitem_db (i : ident) (c : Cohort) :
  _db (fst (__getitem__ i c)) = _db c.
Proof.
  destruct (snd (_get_AID i c)) as [a | e] eqn:Hr.
  - rewrite (getitem_resolved i c a Hr). simpl.
    destruct (get_AID_frame i c) as [k ->]. reflexivity.
  - destruct (get_AID_raises i c e Hr) as [_ H].
    unfold __getitem__, bind. now rewrite H.
Qed.

(** The membership test leaves the tables as they are.  It returns a
    boolean for every item that the binding takes, an Accession, a
    string or a signed 64-bit integer; under a cache that agrees with
    the tables it is [True] exactly when the item resolves, and an
    integer outside 64 bits raises [OverflowError], which the
    [except NameError] of the method does not catch. *)
Theorem contains_returns_boolean (item : ident) (c : Cohort) :
  _db (fst (__contains__ item c)) = _db c
  /\ (bound item = true -> exists b, snd (__contains__ item c) = Ok b)
  /\ (cache_coherent c ->
      __contains__ item c =
      if bound item then
        (fst (__contains__ item c),
         Ok match get_AID_body item (_db c) with
            | Ok _ => true
            | Raise _ => false
            end)
      else (c, Raise OverflowError)).
Proof.
  set (name := match item with
               | IAcc a => IStr (Accession.name a)
               | other => other
               end).
  assert (Hbody : get_AID_body name (_db c) = get_AID_body item (_db c))
    by now destruct item.
  assert (Hbound : bound name = bound item) by now destruct item.
  assert (Hc : __contains__ item c =
               match _get_AID name c with
               | (c', Ok _) => (c', Ok true)
               | (c', Raise NameError) => (c', Ok false)
               | (c', Raise e) => (c', Raise e)
               end) by reflexivity.
  rewrite Hc. clear Hc.
  destruct (get_AID_frame name c) as [k Hk].
  destruct (snd (_get_AID name c)) as [a | e] eqn:Hr.
  - destruct (_get_AID name c) as [c1 r] eqn:Hg. simpl in *. subst r c1.
    split; [reflexivity |]. split; [now exists true |].
    intros Hcoh.
    pose proof (proj1 (get_AID_coherent name c Hcoh)) as H.
    rewrite Hg in H. simpl in H. rewrite <- Hbody, <- H.
    rewrite <- Hbound.
    destruct (bound name) eqn:Hbn; [reflexivity |].
    rewrite (get_AID_body_unbound name (_db c) Hbn) in H. discriminate H.
  - destruct (get_AID_raises name c e Hr) as [He Hg]. rewrite Hg.
    rewrite Hbound in He. subst e.
    destruct (bound item) eqn:Hbi.
    + split; [reflexivity |]. split; [now exists false |].
      intros Hcoh.
      pose proof (proj1 (get_AID_coherent name c Hcoh)) as H.
      rewrite Hg in H. simpl in H. now rewrite <- Hbody, <- H.
    + split; [reflexivity |]. split; [discriminate |]. reflexivity.
Qed.

(** An identifier that resolves to nothing: [_get_AID], [__getitem__]
    and [__delitem__] raise what the lookup raises and leave the whole
    state as it was, the cache included.  The exception is [NameError]
    for an identifier that the binding takes, and [OverflowError] for
    an integer outside 64 bits. *)
Theorem unresolved_raises (i : ident) (e : exn) (c : Cohort) :
  cache_coherent c ->
  get_AID_body i (_db c) = Raise e ->
  e = (if bound i then NameError else OverflowError)
  /\ _get_AID i c = (c, Raise e)
  /\ __getitem__ i c = (c, Raise e)
  /\ __delitem__ i c = (c, Raise e).
Proof.
  intros Hcoh Hb.
  pose proof (proj1 (get_AID_coherent i c Hcoh)) as Hr.
  rewrite Hb in Hr.
  destruct (get_AID_raises i c e Hr) as [He Hg].
  split; [exact He |]. split; [exact Hg |]. split.
  - unfold __getitem__, bind. now rewrite Hg.
  - rewrite (delitem_raises i c e Hr). now rewrite Hg.
Qed.

(** [__getitem__] never writes to the tables. *)
Lemma getitem_reads_only (i : ident) (c : Cohort) :
  _db (fst (__getitem__ i c)) = _db c
  /\ savepoints (fst (__getitem__ i c)) = savepoints c
  /\ warnings (fst (__getitem__ i c)) = warnings c.
Proof.
  split; [apply getitem_db |].
  destruct (snd (_get_AID i c)) as [a | e] eqn:Hr.
  - rewrite (getitem_resolved i c a Hr). simpl.
    destruct (get_AID_frame i c) as [k ->]. now split.
  - destruct (get_AID_raises i c e Hr) as [_ H].
    unfold __getitem__, bind. rewrite H. now split.
Qed.

End Lookups.

Lemma contains_returns_boolean_witness :
  @cache_coherent reference_env cohort_S1_aliased
  /\ @__contains__ reference_env (IStr "23") cohort_S1_aliased
     = (fst (@__contains__ reference_env (IStr "23") cohort_S1_aliased),
        Ok true)
  /\ @__contains__ reference_env (IStr "S2") cohort_S1_aliased
     = (cohort_S1_aliased, Ok false)
  /\ @__contains__ reference_env (IInt (2 ^ 63)) cohort_S1_aliased
     = (cohort_S1_aliased, Raise OverflowError).
Proof.
  split; [exact cohort_S1_aliased_coherent |]. split; [| split].
  - exact (proj2 (proj2 (@contains_returns_boolean reference_env (IStr "23")
                           cohort_S1_aliased)) cohort_S1_aliased_coherent).
  - exact (proj2 (proj2 (@contains_returns_boolean reference_env (IStr "S2")
                           cohort_S1_aliased)) cohort_S1_aliased_coherent).
  - exact (proj2 (proj2 (@contains_returns_boolean reference_env
                           (IInt (2 ^ 63)) cohort_S1_aliased))
             cohort_S1_aliased_coherent).
Defined.

Lemma unresolved_raises_witness :
  @cache_coherent reference_env cohort_S1_aliased
  /\ @get_AID_body reference_env (IStr "S2") (_db cohort_S1_aliased)
     = Raise NameError
  /\ @__delitem__ reference_env (IStr "S2") cohort_S1_aliased
     = (cohort_S1_aliased, Raise NameError)
  /\ @__getitem__ reference_env (IInt (2 ^ 63)) cohort_S1_aliased
     = (cohort_S1_aliased, Raise OverflowError).
Proof.
  split; [exact cohort_S1_aliased_coherent |]. split; [reflexivity |].
  split.
  - exact (proj2 (proj2 (proj2
             (@unresolved_raises reference_env (IStr "S2") NameError
                cohort_S1_aliased cohort_S1_aliased_coherent eq_refl)))).
  - exact (proj1 (proj2 (proj2
             (@unresolved_raises reference_env (IInt (2 ^ 63)) OverflowError
                cohort_S1_aliased cohort_S1_aliased_coherent eq_refl)))).
Defined.

(* ================================================================== *)
(** ** Deletion, continued *)

Lemma filter_filter_comm {A : Type} (f g : A -> bool) (l : list A) :
  filter f (filter g l) = filter g (filter f l).
Proof.
  induction l as [| x l IH]; simpl; [reflexivity |].
  destruct (f x) eqn:Hf, (g x) eqn:Hg; simpl;
    rewrite ?Hf, ?Hg, IH; reflexivity.
Qed.

Lemma select_metadata_deleted (a x : Z) (d : Database) :
  select_metadata a (delete_accession x d) =
  if Z.eqb a x then [] else select_metadata a d.
Proof.
  unfold select_metadata, delete_accession; simpl.
  destruct (Z.eqb_spec a x) as [-> | Hne].
  - rewrite filter_nothing; [reflexivity |].
    intros r Hr. apply filter_In in Hr as [_ Hr].
    now apply negb_true_iff in Hr.
  - f_equal. rewrite filter_filter_comm. apply filter_all.
    intros r Hr. apply filter_In in Hr as [_ Hr].
    apply Z.eqb_eq in Hr. rewrite Hr.
    apply negb_true_iff. now apply Z.eqb_neq.
Qed.

Lemma select_files_deleted (a x : Z) (d : Database) :
  select_files a (delete_accession x d) =
  if Z.eqb a x then [] else select_files a d.
Proof.
  unfold select_files, delete_accession; simpl.
  induction (aid_files d) as [| l ls IH]; simpl.
  - now destruct (Z.eqb a x).
  - destruct (Z.eqb_spec (fst (fst l)) x) as [Hl | Hl]; simpl.
    + rewrite IH. destruct (Z.eqb_spec a x) as [-> | Hne]; [reflexivity |].
      destruct (Z.eqb_spec (fst (fst l)) a); [congruence | reflexivity].
    + rewrite IH. destruct (Z.eqb_spec a x) as [-> | Hne]; [| reflexivity].
      destruct (Z.eqb_spec (fst (fst l)) x); [contradiction | reflexivity].
Qed.

Lemma select_name_by_AID_kept (a x : Z) (d : Database) :
  a <> x ->
  select_name_by_AID a (delete_accession x d) = select_name_by_AID a d.
Proof.
  intros Hne. unfold select_name_by_AID, delete_accession; simpl.
  rewrite find_filter_same; [reflexivity |].
  intros [b t] _ Hb. simpl in *. apply Z.eqb_eq in Hb. subst b.
  apply negb_true_iff. now apply Z.eqb_neq.
Qed.

Section DeletionMore.
Context `{Env : Environment}.

(** When [__delitem__] resolves its argument to the AID [x], it removes
    the Accession of that AID with its metadata and its file links, and
    nothing of any other Accession; the raw files, the aliases and the
    key-value rows stay. *)
Theorem delitem_removes_one (i : ident) (x : Z) (c : Cohort) :
  snd (_get_AID i c) = Ok x ->
  let d := _db c in
  let d' := _db (fst (__delitem__ i c)) in
  select_name_by_AID x d' = None
  /\ select_metadata x d' = []
  /\ select_files x d' = []
  /\ (forall a, a <> x ->
        select_name_by_AID a d' = select_name_by_AID a d
        /\ select_metadata a d' = select_metadata a d
        /\ select_files a d' = select_files a d)
  /\ raw_files d' = raw_files d
  /\ aliases d' = aliases d
  /\ globals d' = globals d
  /\ aid_seq d' = aid_seq d.
Proof.
  intros Hres d d'.
  destruct (delitem_returns i c x Hres) as [Hdel _].
  destruct (get_AID_frame i c) as [k Hk].
  assert (Hd' : d' = delete_accession x d).
  { subst d'. rewrite Hdel, Hk. reflexivity. }
  rewrite Hd'.
  split; [apply select_name_by_AID_deleted |].
  split; [rewrite select_metadata_deleted; now rewrite Z.eqb_refl |].
  split; [rewrite select_files_deleted; now rewrite Z.eqb_refl |].
  split; [| repeat split].
  intros a Hne.
  rewrite select_name_by_AID_kept by exact Hne.
  rewrite select_metadata_deleted, select_files_deleted.
  apply Z.eqb_neq in Hne. rewrite Hne. repeat split.
Qed.

End DeletionMore.

Lemma delitem_removes_one_witness :
  let d' := _db (fst (@__delitem__ reference_env (IStr "23")
                        cohort_S1_aliased)) in
  snd (@_get_AID reference_env (IStr "23") cohort_S1_aliased) = Ok 1
  /\ select_name_by_AID 1 d' = None
  /\ select_metadata 1 d' = [].
Proof.
  intros d'.
  destruct (@delitem_removes_one reference_env (IStr "23") 1
              cohort_S1_aliased eq_refl) as (H1 & H2 & _).
  split; [reflexivity |]. split; [exact H1 | exact H2].
Defined.

(* ================================================================== *)
(** ** Adding an Accession, continued *)

Lemma metadata_row_eqb_eq (r1 r2 : Z * string * string) :
  metadata_row_eqb r1 r2 = true <-> r1 = r2.
Proof.
  destruct r1 as [[a1 k1] v1], r2 as [[a2 k2] v2].
  unfold metadata_row_eqb; simpl. split.
  - intros H. apply andb_prop in H as [H Hv]. apply andb_prop in H as [Ha Hk].
    apply Z.eqb_eq in Ha. apply String.eqb_eq in Hk, Hv. now subst.
  - intros [= -> -> ->].
    now rewrite Z.eqb_refl, !String.eqb_refl.
Qed.

Lemma In_insert_metadata (r row : Z * string * string) (d : Database) :
  In r (metadata (insert_or_replace_metadata row d))
  <-> r = row \/ In r (metadata d).
Proof.
  unfold insert_or_replace_metadata, set_metadata; simpl.
  rewrite in_app_iff, filter_In. simpl. split.
  - intros [[H _] | [H | []]]; [now right | now left].
  - intros [-> | H]; [right; now left |].
    destruct (metadata_row_eqb r row) eqn:E.
    + apply metadata_row_eqb_eq in E. subst. right; now left.
    + left. now split.
Qed.

Lemma In_metadata_fold (aid : Z) (m : list (string * Accession.mval))
  (d : Database) (r : Z * string * string) :
  In r (metadata
          (fold_left
             (fun d kv =>
                insert_or_replace_metadata
                  (aid, fst kv, Accession.as_text (snd kv)) d)
             m d))
  <-> In r (metadata_rows aid m) \/ In r (metadata d).
Proof.
  revert d. induction m as [| kv m IH]; intros d; simpl.
  - tauto.
  - rewrite IH, In_insert_metadata. unfold metadata_rows. simpl.
    split; intros H; intuition auto.
Qed.

Lemma In_raw_file (f p : string) (d : Database) :
  In p (map snd (raw_files (insert_or_ignore_raw_file f d)))
  <-> p = f \/ In p (map snd (raw_files d)).
Proof.
  unfold insert_or_ignore_raw_file.
  destruct (existsb _ (raw_files d)) eqn:E.
  - split; [now right |]. intros [-> | H]; [| exact H].
    apply existsb_exists in E as ([fid q] & Hin & Hq). simpl in Hq.
    apply String.eqb_eq in Hq. subst q.
    now apply (in_map snd _ (fid, f)).
  - simpl. rewrite map_app, in_app_iff. simpl. split.
    + intros [H | [H | []]]; [now right | now left].
    + intros [-> | H]; [right; now left | now left].
Qed.

Lemma In_raw_files_fold (l : list string) (d : Database) (p : string) :
  In p (map snd
          (raw_files
             (fold_left (fun d file => insert_or_ignore_raw_file file d) l d)))
  <-> In p l \/ In p (map snd (raw_files d)).
Proof.
  revert d. induction l as [| f l IH]; intros d; simpl.
  - tauto.
  - rewrite IH, In_raw_file. split; intros H; intuition auto.
Qed.

Lemma metadata_fold_tables (aid : Z) (m : list (string * Accession.mval))
  (d : Database) :
  let d' :=
    fold_left
      (fun d kv =>
         insert_or_replace_metadata (aid, fst kv, Accession.as_text (snd kv)) d)
      m d in
  accessions d' = accessions d /\ raw_files d' = raw_files d
  /\ aid_seq d' = aid_seq d.
Proof.
  revert d. induction m as [| kv m IH]; intros d; simpl; [now repeat split |].
  destruct (IH (insert_or_replace_metadata
                  (aid, fst kv, Accession.as_text (snd kv)) d))
    as (H1 & H2 & H3).
  rewrite H1, H2, H3. now repeat split.
Qed.

Lemma raw_files_fold_seq (l : list string) (d : Database) :
  aid_seq (fold_left (fun d file => insert_or_ignore_raw_file file d) l d)
  = aid_seq d.
Proof.
  revert d. induction l as [| f l IH]; intros d; simpl; [reflexivity |].
  rewrite IH. unfold insert_or_ignore_raw_file.
  now destruct (existsb _ (raw_files d)).
Qed.

Lemma added_accessions (accession : Accession.t) (aid : Z) (d : Database) :
  accessions (added accession aid d)
  = accessions (insert_or_ignore_accession (Accession.name accession) d).
Proof.
  unfold added.
  destruct (raw_files_frame (Accession.files accession)
              (fold_left
                 (fun d0 kv =>
                    insert_or_replace_metadata
                      (aid, fst kv, Accession.as_text (snd kv)) d0)
                 (Accession.metadata accession)
                 (insert_or_ignore_accession (Accession.name accession) d)))
    as (H1 & _).
  rewrite H1.
  now destruct (metadata_fold_tables aid (Accession.metadata accession)
                  (insert_or_ignore_accession (Accession.name accession) d))
    as (H2 & _).
Qed.

Lemma In_distinct (k : string) (l : list string) :
  In k (distinct l) <-> In k l.
Proof.
  induction l as [| x l IH]; simpl; [tauto |].
  rewrite filter_In, IH. split.
  - intros [H | [H _]]; auto.
  - intros [H | H]; [now left |].
    destruct (String.eqb_spec k x) as [-> | Hne]; [now left |].
    right. split; [exact H | reflexivity].
Qed.

Lemma select_AID_by_name_inserted (name : string) (d : Database) :
  exists aid,
    select_AID_by_name name (insert_or_ignore_accession name d) = Some aid.
Proof.
  unfold select_AID_by_name, insert_or_ignore_accession.
  destruct (existsb _ (accessions d)) eqn:E.
  - apply existsb_exists in E as (r & Hin & Hr).
    destruct (find (fun r => String.eqb (snd r) name) (accessions d))
      as [r' |] eqn:Hf.
    + now exists (fst r').
    + now rewrite (find_none _ _ Hf r Hin) in Hr.
  - simpl.
    destruct (find (fun r => String.eqb (snd r) name) (accessions d))
      as [r' |] eqn:Hf.
    + exists (fst r'). now rewrite (find_app_some_first _ _ _ _ Hf).
    + eexists. rewrite find_app_none by exact Hf.
      simpl. now rewrite String.eqb_refl.
Qed.

Section AddingMore.
Context `{Env : Environment}.

(** Inside the block of [add_accession] the lookup of the Accession
    returns: the name is in the table when [_get_AID] looks for it. *)
Lemma add_accession_resolves (accession : Accession.t) (c : Cohort) :
  exists aid k,
    _get_AID (IAcc accession)
      (with_db (insert_or_ignore_accession (Accession.name accession) (_db c))
         (entered c))
    = (with_cache k
         (with_db
            (insert_or_ignore_accession (Accession.name accession) (_db c))
            (entered c)), Ok aid).
Proof.
  set (d1 := insert_or_ignore_accession (Accession.name accession) (_db c)).
  set (c1 := with_db d1 (entered c)).
  assert (Hres : exists aid, snd (_get_AID (IAcc accession) c1) = Ok aid).
  { unfold _get_AID. destruct (cache_find _ (cache c1)) as [a |]; simpl.
    - now exists a.
    - destruct (select_AID_by_name_inserted (Accession.name accession)
                  (_db c)) as [aid Haid].
      exists aid. unfold get_AID_body.
      change (_db c1) with d1. unfold d1. simpl. now rewrite Haid. }
  destruct Hres as [aid Hres].
  destruct (get_AID_frame (IAcc accession) c1) as [k Hk].
  exists aid, k.
  destruct (_get_AID (IAcc accession) c1) as [c2 r]. simpl in *.
  now subst.
Qed.

(** With no save-point open and every metadata value bound, the block
    of [add_accession] completes. *)
Lemma add_accession_runs (accession : Accession.t) (c : Cohort) :
  savepoints c = [] ->
  all_bindable (Accession.metadata accession) = true ->
  exists aid k,
    add_accession accession c =
    __getitem__ (IAcc accession)
      (with_executed
         (executed c
          ++ [PragmaSynchronousOff; PragmaJournalMemory; Savepoint; Release])
         (with_cache k (with_db (added accession aid (_db c)) c))).
Proof.
  intros Hnone Hbind.
  destruct (add_accession_resolves accession c) as (aid & k & Hg).
  exists aid, k.
  unfold add_accession, _bulk_transaction. unfold bind at 1.
  rewrite (bulk_transaction_returns _ c
             (with_cache k
                (with_db (added accession aid (_db c)) (entered c))) tt
             Hnone).
  - destruct c; simpl. rewrite <- app_assoc. reflexivity.
  - unfold bind at 1. unfold modify_db at 1.
    unfold bind at 1.
    change (_db (entered c)) with (_db c). rewrite Hg.
    unfold bind at 1.
    rewrite (for_each_metadata aid _ _ Hbind).
    rewrite (for_each_modify_db (fun file => insert_or_ignore_raw_file file)).
    reflexivity.
  - reflexivity.
Qed.

(** With a save-point open, [add_accession] fails at the first
    statement of its block. *)
Lemma add_accession_nested (accession : Accession.t) (c : Cohort) :
  savepoints c <> [] ->
  add_accession accession c = (c, Raise SQLError).
Proof.
  intros Hsp. unfold add_accession, _bulk_transaction. unfold bind at 1.
  now rewrite (bulk_transaction_nested _ c Hsp).
Qed.

(** A metadata value that is not bound stops the block, which is rolled
    back; the entry that [_get_AID] cached inside the block stays. *)
Lemma add_accession_overflow (accession : Accession.t) (c : Cohort) :
  savepoints c = [] ->
  all_bindable (Accession.metadata accession) = false ->
  exists k,
    add_accession accession c =
    (with_executed
       (executed c
        ++ [PragmaSynchronousOff; PragmaJournalMemory; Savepoint;
            RollbackTo; Release])
       (with_cache k c), Raise OverflowError).
Proof.
  intros Hnone Hbind.
  destruct (add_accession_resolves accession c) as (aid & k & Hg).
  set (c1 := with_cache k
               (with_db
                  (insert_or_ignore_accession (Accession.name accession)
                     (_db c)) (entered c))) in *.
  destruct (for_each_metadata_overflow aid (Accession.metadata accession)
              c1 Hbind) as [d' Hd'].
  exists k.
  unfold add_accession, _bulk_transaction. unfold bind at 1.
  rewrite (bulk_transaction_raises _ c (with_db d' c1) OverflowError Hnone).
  - destruct c; simpl in *. subst. simpl. rewrite <- app_assoc. reflexivity.
  - unfold bind at 1. unfold modify_db at 1.
    unfold bind at 1.
    change (_db (entered c)) with (_db c). rewrite Hg.
    unfold bind at 1. rewrite Hd'. reflexivity.
  - reflexivity.
  - reflexivity.
Qed.

(** When no save-point is open and every metadata value is text or a
    signed 64-bit integer, [add_accession] leaves the name in
    [accessions], every path of the Accession in [raw_files], and,
    under one AID, every metadata entry in [metadata], so every key
    among the [columns], whether the final get returns or raises; what
    the tables held before is still there, and the stack of save-points
    is as it was. *)
Theorem add_accession_stores (accession : Accession.t) (c : Cohort) :
  savepoints c = [] ->
  all_bindable (Accession.metadata accession) = true ->
  let c' := fst (add_accession accession c) in
  In (Accession.name accession) (map snd (accessions (_db c')))
  /\ (forall f, In f (Accession.files accession) -> In f (files c'))
  /\ (exists aid,
        forall kv, In kv (Accession.metadata accession) ->
          In (aid, fst kv, Accession.as_text (snd kv)) (metadata (_db c')))
  /\ (forall k, In k (map fst (Accession.metadata accession)) ->
        In k (columns c'))
  /\ (forall r, In r (accessions (_db c)) -> In r (accessions (_db c')))
  /\ (forall r, In r (metadata (_db c)) -> In r (metadata (_db c')))
  /\ (forall p, In p (files c) -> In p (files c'))
  /\ savepoints c' = savepoints c.
Proof.
  intros Hnone Hbind c'.
  destruct (add_accession_runs accession c Hnone Hbind) as (aid & k & Hrun).
  assert (Hdb : _db c' = added accession aid (_db c)).
  { subst c'. rewrite Hrun, getitem_db. reflexivity. }
  assert (Hsp : savepoints c' = savepoints c).
  { subst c'. rewrite Hrun.
    now rewrite (proj1 (proj2 (getitem_reads_only _ _))). }
  assert (Hacc : accessions (_db c') =
                 accessions (insert_or_ignore_accession
                               (Accession.name accession) (_db c))).
  { rewrite Hdb. apply added_accessions. }
  assert (Hmeta : forall r,
             In r (metadata (_db c')) <->
             In r (metadata_rows aid (Accession.metadata accession))
             \/ In r (metadata (_db c))).
  { intros r. rewrite Hdb. unfold added.
    destruct (raw_files_frame (Accession.files accession)
                (fold_left
                   (fun d0 kv =>
                      insert_or_replace_metadata
                        (aid, fst kv, Accession.as_text (snd kv)) d0)
                   (Accession.metadata accession)
                   (insert_or_ignore_accession (Accession.name accession)
                      (_db c)))) as (_ & H2 & _).
    rewrite H2, In_metadata_fold.
    unfold insert_or_ignore_accession.
    destruct (existsb _ (accessions (_db c))); reflexivity. }
  assert (Hraw : forall p,
             In p (files c') <->
             In p (Accession.files accession) \/ In p (files c)).
  { intros p. unfold files. rewrite Hdb. unfold added.
    rewrite In_raw_files_fold.
    destruct (metadata_fold_tables aid (Accession.metadata accession)
                (insert_or_ignore_accession (Accession.name accession)
                   (_db c))) as (_ & H2 & _).
    rewrite H2. unfold insert_or_ignore_accession.
    destruct (existsb _ (accessions (_db c))); reflexivity. }
  split.
  { rewrite Hacc.
    destruct (select_AID_by_name_inserted (Accession.name accession) (_db c))
      as [a Ha].
    unfold select_AID_by_name in Ha.
    destruct (find _ _) as [[a' n'] |] eqn:Hf; [| discriminate].
    apply find_some in Hf as [Hin Hn]. simpl in Hn.
    apply String.eqb_eq in Hn. subst n'.
    now apply (in_map snd _ (a', Accession.name accession)). }
  split; [intros f Hf; apply Hraw; now left |].
  split.
  { exists aid. intros kv Hkv. apply Hmeta. left.
    unfold metadata_rows.
    now apply (in_map (fun kv => (aid, fst kv, Accession.as_text (snd kv)))). }
  split.
  { intros key Hk. unfold columns. apply In_distinct.
    apply in_map_iff in Hk as (kv & <- & Hkv).
    apply in_map_iff. exists (aid, fst kv, Accession.as_text (snd kv)).
    split; [reflexivity |]. apply Hmeta. left.
    unfold metadata_rows.
    now apply (in_map (fun kv => (aid, fst kv, Accession.as_text (snd kv)))). }
  split.
  { intros r Hr. rewrite Hacc. unfold insert_or_ignore_accession.
    destruct (existsb _ (accessions (_db c))); [exact Hr |].
    simpl. apply in_or_app. now left. }
  split; [intros r Hr; apply Hmeta; now right |].
  split; [intros p Hp; apply Hraw; now right | exact Hsp].
Qed.

(** [add_accession] adds one row to [accessions] when no save-point is
    open, every metadata value is bound and the name is new; in every
    other case the length of the catalog stays: the name is there
    already, or the block is not entered, or it is rolled back. *)
Theorem add_accession_len (accession : Accession.t) (c : Cohort) :
  __len__ (fst (add_accession accession c)) =
  match savepoints c, all_bindable (Accession.metadata accession),
        select_AID_by_name (Accession.name accession) (_db c) with
  | [], true, None => __len__ c + 1
  | _, _, _ => __len__ c
  end.
Proof.
  destruct (savepoints c) as [| d0 sp] eqn:Hsp.
  2:{ assert (Hopen : savepoints c <> []) by (rewrite Hsp; discriminate).
      now rewrite (add_accession_nested accession c Hopen). }
  destruct (all_bindable (Accession.metadata accession)) eqn:Hbind.
  2:{ destruct (add_accession_overflow accession c Hsp Hbind) as [k ->].
      reflexivity. }
  destruct (add_accession_runs accession c Hsp Hbind) as (aid & k & Hrun).
  unfold __len__. rewrite Hrun, getitem_db. simpl _db.
  rewrite added_accessions. unfold insert_or_ignore_accession.
  destruct (select_AID_by_name (Accession.name accession) (_db c))
    as [a |] eqn:Hsel.
  - unfold select_AID_by_name in Hsel.
    destruct (find _ _) as [r |] eqn:Hf; [| discriminate].
    apply find_some in Hf as [Hin Hn].
    replace (existsb _ _) with true; [reflexivity |].
    symmetry. apply existsb_exists. now exists r.
  - destruct (select_AID_by_name_none_existsb _ _ Hsel) as [-> _].
    simpl. rewrite length_app. simpl. lia.
Qed.

(** [add_accession] stores nothing when it cannot enter its block or
    cannot bind a metadata value: with a save-point open it raises
    [SQLError] and the state is as it was; with a metadata integer
    outside 64 bits it raises [OverflowError] and the tables, rolled
    back, are those of the start, the save-point released. *)
Theorem add_accession_rejected (accession : Accession.t) (c : Cohort) :
  (savepoints c <> [] -> add_accession accession c = (c, Raise SQLError))
  /\ (savepoints c = [] ->
      all_bindable (Accession.metadata accession) = false ->
      let c' := fst (add_accession accession c) in
      snd (add_accession accession c) = Raise OverflowError
      /\ _db c' = _db c
      /\ savepoints c' = []
      /\ warnings c' = warnings c).
Proof.
  split; [apply add_accession_nested |].
  intros Hnone Hbind c'. subst c'.
  destruct (add_accession_overflow accession c Hnone Hbind) as [k ->].
  simpl. repeat split. exact Hnone.
Qed.

End AddingMore.

Lemma insert_new_accession (name : string) (d : Database) :
  select_AID_by_name name d = None ->
  insert_or_ignore_accession name d =
  mkDatabase (globals d) (accessions d ++ [(next_AID d, name)]) (next_AID d)
    (aliases d) (metadata d) (raw_files d) (aid_files d).
Proof.
  intros Hnew. unfold insert_or_ignore_accession.
  now destruct (select_AID_by_name_none_existsb _ _ Hnew) as [-> _].
Qed.

Section AddingEdge.
Context `{Env : Environment}.

(** An Accession whose metadata has the key [files] or [name], and
    values that are all bound, is stored by [add_accession] when no
    save-point is open; [add_accession] then raises [TypeError] when it
    builds the object to return: the block was released, not rolled
    back, so the name and the metadata rows stay. *)
Theorem add_accession_reserved_key (accession : Accession.t) (c : Cohort) :
  savepoints c = [] ->
  all_bindable (Accession.metadata accession) = true ->
  select_AID_by_name (Accession.name accession) (_db c) = None ->
  cache_find (IAcc accession) (cache c) = None ->
  metadata_assigned (_db c) ->
  NoDup (map fst (Accession.metadata accession)) ->
  In "files" (map fst (Accession.metadata accession))
  \/ In "name" (map fst (Accession.metadata accession)) ->
  let c' := fst (add_accession accession c) in
  snd (add_accession accession c) = Raise TypeError
  /\ select_AID_by_name (Accession.name accession) (_db c')
     = Some (next_AID (_db c))
  /\ (forall kv, In kv (Accession.metadata accession) ->
        In (next_AID (_db c), fst kv, Accession.as_text (snd kv))
           (metadata (_db c'))).
Proof.
  intros Hnone Hbind Hnew Hmiss Hmeta Hnd Hkey c'.
  set (aid := next_AID (_db c)).
  set (d' := added accession aid (_db c)).
  assert (Hhit : snd (_get_AID (IAcc accession) (after_block accession c))
                 = Ok aid).
  { unfold _get_AID. simpl cache. now rewrite cache_find_store. }
  assert (Hadd : add_accession accession c =
                 (fst (_get_AID (IAcc accession) (after_block accession c)),
                  accession_of aid d')).
  { rewrite (add_accession_block accession c Hnone Hbind Hnew Hmiss).
    now rewrite (getitem_resolved _ _ aid Hhit). }
  assert (Hdb : _db c' = d').
  { subst c'. rewrite Hadd. simpl.
    destruct (get_AID_frame (IAcc accession) (after_block accession c))
      as [k ->]. reflexivity. }
  destruct (added_new accession (_db c) Hnew Hmeta Hnd) as (Ha & Hm & _).
  fold aid d' in Ha, Hm.
  split; [| split].
  - rewrite Hadd. simpl. unfold accession_of.
    assert (Hname : select_name_by_AID aid d'
                    = Some (Accession.name accession)).
    { unfold select_name_by_AID. rewrite Ha.
      rewrite find_app_none by apply find_AID_fresh.
      simpl. now rewrite Z.eqb_refl. }
    rewrite Hname.
    unfold d', aid.
    rewrite (select_metadata_added accession (_db c) Hnew Hmeta Hnd).
    rewrite map_map. simpl.
    set (rows := map (fun kv : string * Accession.mval =>
                        (fst kv, Accession.MText (Accession.as_text (snd kv))))
                   (Accession.metadata accession)).
    assert (Hkeys : map fst rows = map fst (Accession.metadata accession)).
    { unfold rows. rewrite map_map. reflexivity. }
    rewrite dict_of_rows_nodup by (rewrite Hkeys; exact Hnd).
    replace (existsb _ _) with true; [reflexivity |].
    symmetry. apply existsb_exists.
    assert (Hin : forall k, In k (map fst rows) ->
                    In k (dict_keys
                            (dict_set "AID"
                               (Accession.MInt (next_AID (_db c))) rows))).
    { intros k Hk. rewrite dict_set_keys. unfold dict_keys.
      destruct (existsb _ (map fst rows)); [exact Hk |].
      apply in_or_app. now left. }
    rewrite <- Hkeys in Hkey.
    destruct Hkey as [Hk | Hk].
    + exists "files". split; [now apply Hin | reflexivity].
    + exists "name". split; [now apply Hin | reflexivity].
  - rewrite Hdb.
    destruct (select_AID_by_name_none_existsb _ _ Hnew) as [_ Hf].
    unfold select_AID_by_name. rewrite Ha, find_app_none by exact Hf.
    simpl. now rewrite String.eqb_refl.
  - intros kv Hkv. rewrite Hdb, Hm. apply in_or_app. right.
    unfold metadata_rows.
    now apply (in_map (fun kv => (aid, fst kv, Accession.as_text (snd kv)))).
Qed.

(** After an Accession is deleted, an Accession added under a name that
    is free takes an AID above the deleted one: AUTOINCREMENT does not
    give an AID twice.  No save-point is open, and the metadata values
    of the Accession are all bound, so that the addition is made. *)
Theorem readded_takes_new_AID (i : ident) (x : Z) (accession : Accession.t)
  (c : Cohort) :
  savepoints c = [] ->
  all_bindable (Accession.metadata accession) = true ->
  sequence_ok (_db c) ->
  In x (map fst (accessions (_db c))) ->
  snd (_get_AID i c) = Ok x ->
  let c1 := fst (__delitem__ i c) in
  select_AID_by_name (Accession.name accession) (_db c1) = None ->
  let c2 := fst (add_accession accession c1) in
  select_AID_by_name (Accession.name accession) (_db c2)
    = Some (1 + aid_seq (_db c))
  /\ x < 1 + aid_seq (_db c)
  /\ sequence_ok (_db c2).
Proof.
  intros Hnone Hbind [Hseq0 Hseq] Hx Hres c1 Hnew c2.
  destruct (delitem_returns i c x Hres) as [Hdel _].
  destruct (get_AID_frame i c) as [k Hk].
  assert (Hd1 : _db c1 = delete_accession x (_db c)).
  { subst c1. rewrite Hdel, Hk. reflexivity. }
  assert (Hnone1 : savepoints c1 = []).
  { subst c1. rewrite Hdel, Hk. exact Hnone. }
  assert (Hk1 : cache c1 = []) by (subst c1; now rewrite Hdel).
  assert (Hmax : max_list (map fst (accessions (_db c1))) <= aid_seq (_db c)).
  { rewrite Hd1. simpl.
    assert (H : forall l : list (Z * string),
               (forall a, In a (map fst l) -> a <= aid_seq (_db c)) ->
               max_list (map fst l) <= aid_seq (_db c)).
    { induction l as [| r l IH]; simpl; intros H; [exact Hseq0 |].
      apply Z.max_lub; [apply H; now left | apply IH].
      intros a Ha. apply H. now right. }
    apply H. intros a Ha. apply Hseq.
    apply in_map_iff in Ha as (r & <- & Hr).
    apply filter_In in Hr as [Hr _]. now apply in_map. }
  assert (Hnext : next_AID (_db c1) = 1 + aid_seq (_db c)).
  { unfold next_AID. rewrite Hd1 at 1. simpl aid_seq. lia. }
  destruct (add_accession_runs accession c1 Hnone1 Hbind)
    as (aid & k' & Hrun).
  assert (Hacc : accessions (_db c2) =
                 (accessions (_db c1)
                  ++ [(1 + aid_seq (_db c), Accession.name accession)])%list).
  { subst c2. rewrite Hrun, getitem_db. simpl _db.
    rewrite added_accessions, (insert_new_accession _ _ Hnew).
    simpl accessions. now rewrite Hnext. }
  assert (Hs2 : aid_seq (_db c2) = 1 + aid_seq (_db c)).
  { subst c2. rewrite Hrun, getitem_db. simpl _db. unfold added.
    rewrite raw_files_fold_seq.
    destruct (metadata_fold_tables aid (Accession.metadata accession)
                (insert_or_ignore_accession (Accession.name accession)
                   (_db c1))) as (_ & _ & ->).
    rewrite (insert_new_accession _ _ Hnew).
    simpl aid_seq. exact Hnext. }
  split; [| split].
  - destruct (select_AID_by_name_none_existsb _ _ Hnew) as [_ Hf].
    unfold select_AID_by_name. rewrite Hacc, find_app_none by exact Hf.
    simpl. now rewrite String.eqb_refl.
  - specialize (Hseq x Hx). lia.
  - split; [rewrite Hs2; lia |].
    intros a Ha. rewrite Hacc, map_app in Ha. rewrite Hs2.
    apply in_app_or in Ha as [Ha | [<- | []]]; [| simpl; lia].
    assert (a <= aid_seq (_db c)); [| lia].
    apply Hseq. rewrite Hd1 in Ha. simpl in Ha.
    apply in_map_iff in Ha as (r & <- & Hr).
    apply filter_In in Hr as [Hr _]. now apply in_map.
Qed.

(** Under a cache that agrees with the tables, an Accession is got as
    the same object by its name, by an alias of it that is no name, and
    by its AID when no alias spells that number; the AID is a signed
    64-bit integer, as the engine assigns them, for an integer outside
    that range is not bound and raises [OverflowError]. *)
Theorem getitem_by_name_alias_AID (s a : string) (x : Z) (c : Cohort) :
  cache_coherent c ->
  select_AID_by_name s (_db c) = Some x ->
  select_AID_by_alias a (_db c) = Some x ->
  select_AID_by_name a (_db c) = None ->
  select_AID_by_alias (text_of_int x) (_db c) = None ->
  snd (__getitem__ (IStr s) c) = accession_of x (_db c)
  /\ snd (__getitem__ (IStr a) c) = accession_of x (_db c)
  /\ snd (__getitem__ (IInt x) c)
     = (if fits_int64 x then accession_of x (_db c)
        else Raise OverflowError).
Proof.
  intros Hcoh Hs Ha Han Hax.
  destruct (fits_int64 x) eqn:Hx.
  2:{ assert (Hb : get_AID_body (IInt x) (_db c) = Raise OverflowError)
        by (apply get_AID_body_unbound; exact Hx).
      pose proof (proj1 (get_AID_coherent (IInt x) c Hcoh)) as Hr.
      rewrite Hb in Hr.
      destruct (get_AID_raises (IInt x) c OverflowError Hr) as [_ Hg].
      assert (H3 : snd (__getitem__ (IInt x) c) = Raise OverflowError).
      { unfold __getitem__, bind. now rewrite Hg. }
      assert (H : forall i, get_AID_body i (_db c) = Ok x ->
                            snd (__getitem__ i c) = accession_of x (_db c)).
      { intros i Hbi.
        pose proof (proj1 (get_AID_coherent i c Hcoh)) as Hri.
        rewrite Hbi in Hri. now rewrite (getitem_resolved i c x Hri). }
      split; [| split]; [apply H | apply H | exact H3];
        unfold get_AID_body; simpl.
      - now rewrite Hs.
      - now rewrite Han, Ha. }
  assert (Hrow : select_AID_by_AID x (_db c) = Some x).
  { unfold select_AID_by_name in Hs. unfold select_AID_by_AID.
    destruct (find (fun r => String.eqb (snd r) s) (accessions (_db c)))
      as [[x0 s0] |] eqn:Hf; [| discriminate].
    injection Hs as ->. apply find_some in Hf as [Hin _].
    destruct (find (fun r => Z.eqb (fst r) x) (accessions (_db c)))
      as [[x1 s1] |] eqn:Hg.
    - apply find_some in Hg as [_ Hg]. simpl in Hg.
      apply Z.eqb_eq in Hg. now subst x1.
    - pose proof (find_none _ _ Hg _ Hin) as E. simpl in E.
      now rewrite Z.eqb_refl in E. }
  assert (H : forall i, get_AID_body i (_db c) = Ok x ->
                        snd (__getitem__ i c) = accession_of x (_db c)).
  { intros i Hb.
    pose proof (proj1 (get_AID_coherent i c Hcoh)) as Hr.
    rewrite Hb in Hr. now rewrite (getitem_resolved i c x Hr). }
  split; [| split]; apply H; unfold get_AID_body; simpl.
  - now rewrite Hs.
  - now rewrite Han, Ha.
  - now rewrite Hx, Hax, Hrow.
Qed.

End AddingEdge.

Lemma add_accession_reserved_key_witness :
  let c := open_cohort "" "c" "Cohort" empty_db in
  metadata_assigned (_db c)
  /\ snd (@add_accession reference_env accession_with_files_key c)
     = Raise TypeError
  /\ select_AID_by_name "S9"
       (_db (fst (@add_accession reference_env accession_with_files_key c)))
     = Some 1.
Proof.
  intros c.
  assert (Hm : metadata_assigned (_db c)) by (intros r []).
  assert (Hnd : NoDup (map fst (Accession.metadata accession_with_files_key))).
  { repeat constructor. intros []. }
  destruct (@add_accession_reserved_key reference_env
              accession_with_files_key c eq_refl eq_refl eq_refl eq_refl
              Hm Hnd (or_introl (or_introl eq_refl))) as (H1 & H2 & _).
  split; [exact Hm |]. split; [exact H1 | exact H2].
Defined.

Lemma add_accession_stores_witness :
  let c := open_cohort "" "c" "Cohort" empty_db in
  let c' := fst (@add_accession reference_env accession_S1 c) in
  savepoints c = []
  /\ all_bindable (Accession.metadata accession_S1) = true
  /\ In "S1" (map snd (accessions (_db c')))
  /\ In "a.fastq" (files c')
  /\ In "age" (columns c').
Proof.
  intros c c'.
  destruct (@add_accession_stores reference_env accession_S1 c
              eq_refl eq_refl) as (H1 & H2 & _ & H4 & _).
  split; [reflexivity |]. split; [reflexivity |].
  split; [exact H1 |]. split.
  - apply H2. now left.
  - apply H4. now left.
Defined.

Lemma add_accession_rejected_witness :
  let c := open_cohort "" "c" "Cohort" empty_db in
  savepoints c = []
  /\ all_bindable (Accession.metadata accession_big_int) = false
  /\ snd (@add_accession reference_env accession_big_int c)
     = Raise OverflowError
  /\ _db (fst (@add_accession reference_env accession_big_int c)) = empty_db
  /\ savepoints (entered c) <> []
  /\ @add_accession reference_env accession_S1 (entered c)
     = (entered c, Raise SQLError).
Proof.
  intros c.
  destruct (proj2 (@add_accession_rejected reference_env accession_big_int c)
              eq_refl eq_refl) as (H1 & H2 & _).
  assert (Hopen : savepoints (entered c) <> []) by discriminate.
  split; [reflexivity |]. split; [reflexivity |].
  split; [exact H1 |]. split; [exact H2 |]. split; [exact Hopen |].
  exact (proj1 (@add_accession_rejected reference_env accession_S1
                  (entered c)) Hopen).
Defined.

Lemma cohort_S1_aliased_sequence_ok : sequence_ok (_db cohort_S1_aliased).
Proof.
  split; simpl; [lia |]. intros a [<- | []]. lia.
Qed.

Lemma readded_takes_new_AID_witness :
  let c1 := fst (@__delitem__ reference_env (IStr "S1") cohort_S1_aliased) in
  let c2 := fst (@add_accession reference_env accession_S1 c1) in
  sequence_ok (_db cohort_S1_aliased)
  /\ select_AID_by_name "S1" (_db c1) = None
  /\ select_AID_by_name "S1" (_db c2) = Some 2.
Proof.
  intros c1 c2.
  destruct (@readded_takes_new_AID reference_env (IStr "S1") 1 accession_S1
              cohort_S1_aliased eq_refl eq_refl cohort_S1_aliased_sequence_ok
              (or_introl eq_refl) eq_refl eq_refl) as (H & _).
  split; [exact cohort_S1_aliased_sequence_ok |].
  split; [reflexivity | exact H].
Defined.

Lemma getitem_by_name_alias_AID_witness :
  let S1 := Accession.make "S1" []
              [("age", Accession.MText "23"); ("AID", Accession.MInt 1)] in
  @cache_coherent reference_env cohort_S1_aliased
  /\ select_AID_by_alias "23" (_db cohort_S1_aliased) = Some 1
  /\ snd (@__getitem__ reference_env (IStr "23") cohort_S1_aliased) = Ok S1
  /\ snd (@__getitem__ reference_env (IInt 1) cohort_S1_aliased) = Ok S1.
Proof.
  intros S1.
  destruct (@getitem_by_name_alias_AID reference_env "S1" "23" 1
              cohort_S1_aliased cohort_S1_aliased_coherent
              eq_refl eq_refl eq_refl eq_refl) as (_ & H2 & H3).
  split; [exact cohort_S1_aliased_coherent |]. split; [reflexivity |].
  split; [exact H2 | exact H3].
Defined.

(* ================================================================== *)
(** ** Aliases from a column, continued *)

Lemma names_all (c : Cohort) :
  names c = (map snd (accessions (_db c)) ++ map fst (aliases (_db c)))%list.
Proof.
  unfold names, search_names. simpl append.
  rewrite !filter_all; [reflexivity | |]; intros t _; apply like_percents.
Qed.

Lemma dict_get_In {V : Type} (d : list (string * V)) (k : string) (v : V) :
  NoDup (map fst d) -> In (k, v) d -> dict_get k d = Some v.
Proof.
  induction d as [| [k' v'] d IH]; simpl; intros Hnd Hin; [contradiction |].
  inversion Hnd as [| ? ? Hnin Hnd']; subst.
  destruct Hin as [[= -> ->] | Hin].
  - now rewrite String.eqb_refl.
  - destruct (String.eqb_spec k k') as [-> | _].
    + exfalso. apply Hnin. now apply (in_map fst d (k', v)).
    + now apply IH.
Qed.

Lemma alias_loop (cur_names : list string) (min_alias_length : Z)
  (alias_dict rows : list (string * Z)) :
  (forall r, In r rows -> dict_get (fst r) alias_dict = Some (snd r)) ->
  forall (acc : M (list (string * Z))) (c1 : Cohort) (ws : list string)
         (u : list (string * Z)),
    acc c1 = (with_warnings (warnings c1 ++ ws) c1, Ok u) ->
    fold_left (alias_step cur_names min_alias_length alias_dict)
      (map (fun r => (fst r, 1)) rows) acc c1
    = (with_warnings
         (warnings c1 ++ ws
          ++ flat_map (alias_warn cur_names min_alias_length) rows) c1,
       Ok (u ++ filter (alias_ok cur_names min_alias_length) rows)%list).
Proof.
  induction rows as [| [k aid] rows IH]; intros Hget acc c1 ws u Hacc.
  - simpl. now rewrite !app_nil_r.
  - simpl fold_left. simpl flat_map. simpl filter.
    unfold alias_ok at 1, alias_warn at 1. simpl fst.
    assert (Hk : dict_get k alias_dict = Some aid)
      by (apply (Hget (k, aid)); now left).
    assert (Hrest : forall r, In r rows ->
                      dict_get (fst r) alias_dict = Some (snd r))
      by (intros r Hr; apply Hget; now right).
    destruct (existsb (String.eqb k) cur_names) eqn:Hex.
    + rewrite (IH Hrest _ c1
                 (ws ++ [("Cannot use " ++ k
                            ++ " as it is not unique")%string])%list u).
      * simpl. now rewrite <- !app_assoc.
      * unfold alias_step, bind at 1. rewrite Hacc. simpl.
        rewrite Hex. unfold bind, warning, ret. simpl.
        now rewrite <- app_assoc.
    + destruct (Z.of_nat (String.length k) <? min_alias_length) eqn:Hlen.
      * rewrite (IH Hrest _ c1
                   (ws ++ [("Skipping " ++ k ++ " as it is too short (<"
                              ++ text_of_int min_alias_length
                              ++ ")")%string])%list u).
        -- simpl. now rewrite <- !app_assoc.
        -- unfold alias_step, bind at 1. rewrite Hacc. simpl.
           rewrite Hex, Hlen. unfold bind, warning, ret. simpl.
           now rewrite <- app_assoc.
      * rewrite (IH Hrest _ c1 ws (u ++ [(k, aid)])%list).
        -- simpl. now rewrite <- !app_assoc.
        -- unfold alias_step, bind at 1. rewrite Hacc. simpl.
           rewrite Hex, Hlen, Hk. reflexivity.
Qed.

Lemma insert_aliases_run (u : list (string * Z)) :
  NoDup (map fst u) ->
  forall c2 : Cohort,
    (forall r, In r u -> ~ In (fst r) (map fst (aliases (_db c2)))) ->
    for_each
      (fun row =>
         d <- get_db ;;
         d' <- lift (insert_alias row d) ;;
         modify_db (fun _ => d'))
      u c2
    = (with_db (set_aliases (aliases (_db c2) ++ u) (_db c2)) c2, Ok tt).
Proof.
  induction u as [| row u IH]; intros Hnd c2 Hfresh.
  - simpl. unfold ret. rewrite app_nil_r.
    f_equal. destruct c2 as [? ? ? ? d ? ? ? ? ?]. now destruct d.
  - inversion Hnd as [| ? ? Hnin Hnd']; subst.
    simpl for_each. unfold bind at 1. unfold bind at 1. unfold get_db at 1.
    unfold bind at 1. unfold lift, insert_alias.
    assert (Hex : existsb (fun r => String.eqb (fst r) (fst row))
                    (aliases (_db c2)) = false).
    { destruct (existsb _ (aliases (_db c2))) eqn:E; [| reflexivity].
      exfalso. apply existsb_exists in E as (r & Hr & Heq).
      apply String.eqb_eq in Heq.
      apply (Hfresh row (or_introl eq_refl)).
      rewrite <- Heq. now apply in_map. }
    rewrite Hex. unfold modify_db at 1.
    rewrite IH.
    + simpl. rewrite <- app_assoc. reflexivity.
    + exact Hnd'.
    + intros r Hr Hin. simpl in Hin. rewrite map_app in Hin.
      apply in_app_or in Hin as [Hin | [Hin | []]].
      * apply (Hfresh r (or_intror Hr) Hin).
      * apply Hnin. rewrite Hin. now apply in_map.
Qed.

Lemma accepted_aliases_eq (colname : string) (min_alias_length : Z)
  (c : Cohort) :
  accepted_aliases colname min_alias_length c
  = filter (alias_ok (names c) min_alias_length)
      (dict_of_rows (select_column colname (_db c))).
Proof. reflexivity. Qed.

Lemma alias_warnings_eq (colname : string) (min_alias_length : Z)
  (c : Cohort) :
  alias_warnings colname min_alias_length c
  = flat_map (alias_warn (names c) min_alias_length)
      (dict_of_rows (select_column colname (_db c))).
Proof. reflexivity. Qed.

Lemma accepted_aliases_fresh (colname : string) (min_alias_length : Z)
  (c : Cohort) :
  NoDup (map fst (accepted_aliases colname min_alias_length c))
  /\ forall r, In r (accepted_aliases colname min_alias_length c) ->
       ~ In (fst r) (map snd (accessions (_db c)))
       /\ ~ In (fst r) (map fst (aliases (_db c)))
       /\ min_alias_length <= Z.of_nat (String.length (fst r)).
Proof.
  rewrite accepted_aliases_eq. split.
  - set (d := dict_of_rows (select_column colname (_db c))).
    assert (Hnd : NoDup (map fst d)) by apply dict_of_rows_keys_nodup.
    clearbody d. induction d as [| r d IH]; simpl; [constructor |].
    inversion Hnd as [| ? ? Hnin Hnd']; subst.
    destruct (alias_ok (names c) min_alias_length r); simpl; auto.
    constructor; auto.
    intros Hin. apply Hnin. apply in_map_iff in Hin as (r' & Hr' & Hin).
    apply filter_In in Hin as [Hin _]. rewrite <- Hr'. now apply in_map.
  - intros r Hr. apply filter_In in Hr as [_ Hok].
    unfold alias_ok in Hok. apply andb_prop in Hok as [Hn Hl].
    apply negb_true_iff in Hn, Hl.
    apply existsb_eqb_false in Hn. rewrite names_all in Hn.
    apply Z.ltb_ge in Hl.
    repeat split; [| | exact Hl]; intros Hin; apply Hn;
      apply in_or_app; auto.
Qed.

Lemma alias_column_nested (colname : string) (min_alias_length : Z)
  (c : Cohort) :
  savepoints c <> [] ->
  alias_column colname min_alias_length c = (c, Raise SQLError).
Proof.
  intros Hsp. unfold alias_column, _bulk_transaction.
  now rewrite (bulk_transaction_nested _ c Hsp).
Qed.

Lemma alias_column_run (colname : string) (min_alias_length : Z)
  (c : Cohort) :
  savepoints c = [] ->
  let c' := fst (alias_column colname min_alias_length c) in
  snd (alias_column colname min_alias_length c) = Ok tt
  /\ aliases (_db c')
     = (aliases (_db c) ++ accepted_aliases colname min_alias_length c)%list
  /\ warnings c'
     = (warnings c ++ alias_warnings colname min_alias_length c)%list
  /\ cache c' = cache c
  /\ accessions (_db c') = accessions (_db c)
  /\ metadata (_db c') = metadata (_db c)
  /\ savepoints c' = savepoints c.
Proof.
  intros Hnone.
  set (alias_dict := dict_of_rows (select_column colname (_db c))).
  set (u := accepted_aliases colname min_alias_length c).
  set (ws := alias_warnings colname min_alias_length c).
  assert (Hdef :
    alias_column colname min_alias_length c =
    bulk_transaction
      (d <- get_db ;;
       unique_aliases <-
         fold_left
           (alias_step (names c) min_alias_length
              (dict_of_rows (select_column colname d)))
           (Counter (dict_keys (dict_of_rows (select_column colname d))))
           (ret []) ;;
       for_each
         (fun row =>
            d <- get_db ;;
            d' <- lift (insert_alias row d) ;;
            modify_db (fun _ => d'))
         unique_aliases) c) by reflexivity.
  assert (Hrun :
    alias_column colname min_alias_length c =
    (with_executed
       (executed c
        ++ [PragmaSynchronousOff; PragmaJournalMemory; Savepoint; Release])
       (with_warnings (warnings c ++ ws)
          (with_db (set_aliases (aliases (_db c) ++ u) (_db c)) c)),
     Ok tt)).
  { rewrite Hdef.
    rewrite (bulk_transaction_returns _ c
               (with_db (set_aliases (aliases (_db c) ++ u) (_db c))
                  (with_warnings (warnings c ++ ws) (entered c))) tt Hnone).
    - destruct c; simpl. rewrite <- app_assoc. reflexivity.
    - unfold bind at 1. unfold get_db at 1.
      change (_db (entered c)) with (_db c). fold alias_dict.
      rewrite Counter_nodup by apply dict_of_rows_keys_nodup.
      unfold dict_keys. rewrite map_map.
      unfold bind at 1.
      rewrite (alias_loop (names c) min_alias_length alias_dict alias_dict
                 (fun r Hr =>
                    dict_get_In alias_dict (fst r) (snd r)
                      (dict_of_rows_keys_nodup _)
                      (eq_ind _ (fun x => In x alias_dict) Hr _
                         (surjective_pairing r)))
                 (ret []) (entered c) [] []).
      + simpl app.
        change (flat_map (alias_warn (names c) min_alias_length) alias_dict)
          with ws.
        change (filter (alias_ok (names c) min_alias_length) alias_dict)
          with u.
        destruct (accepted_aliases_fresh colname min_alias_length c)
          as [Hnd Hfresh].
        rewrite (insert_aliases_run u Hnd).
        * reflexivity.
        * intros r Hr. now apply Hfresh.
      + unfold ret. simpl. rewrite app_nil_r.
        now destruct c.
    - reflexivity. }
  rewrite Hrun. simpl. repeat split.
Qed.

(** With a save-point open, [alias_column] raises [SQLError] at the
    first statement of its block and the state is as it was.  With none
    open it returns for every column and every catalog: its [INSERT]
    never meets an alias that is there.  It appends to [aliases] the
    candidates it accepts, logs a warning for each one it skips, and
    leaves the other tables, the stack of save-points and the identity
    cache as they were. *)
Theorem alias_column_effect (colname : string) (min_alias_length : Z)
  (c : Cohort) :
  (savepoints c <> [] ->
   alias_column colname min_alias_length c = (c, Raise SQLError))
  /\ (savepoints c = [] ->
      let c' := fst (alias_column colname min_alias_length c) in
      snd (alias_column colname min_alias_length c) = Ok tt
      /\ aliases (_db c')
         = (aliases (_db c)
            ++ accepted_aliases colname min_alias_length c)%list
      /\ warnings c'
         = (warnings c ++ alias_warnings colname min_alias_length c)%list
      /\ cache c' = cache c
      /\ accessions (_db c') = accessions (_db c)
      /\ metadata (_db c') = metadata (_db c)
      /\ savepoints c' = savepoints c).
Proof.
  split; [apply alias_column_nested | apply alias_column_run].
Qed.

(** [alias_column] keeps the aliases distinct, and every alias it adds
    is the name of no Accession, is no alias already, and is at least
    [min_alias_length] long. *)
Theorem alias_column_keeps_unique (colname : string) (min_alias_length : Z)
  (c : Cohort) :
  NoDup (map fst (aliases (_db c))) ->
  let c' := fst (alias_column colname min_alias_length c) in
  NoDup (map fst (aliases (_db c')))
  /\ forall r, In r (aliases (_db c')) ->
       In r (aliases (_db c))
       \/ (~ In (fst r) (map snd (accessions (_db c')))
           /\ ~ In (fst r) (map fst (aliases (_db c)))
           /\ min_alias_length <= Z.of_nat (String.length (fst r))).
Proof.
  intros Hnd c'.
  destruct (savepoints c) as [| d0 sp] eqn:Hsp.
  2:{ assert (Hopen : savepoints c <> []) by (rewrite Hsp; discriminate).
      subst c'.
      rewrite (alias_column_nested colname min_alias_length c Hopen).
      simpl. split; [exact Hnd | intros r Hr; now left]. }
  destruct (alias_column_run colname min_alias_length c Hsp)
    as (_ & Hal & _ & _ & Hacc & _).
  fold c' in Hal, Hacc.
  destruct (accepted_aliases_fresh colname min_alias_length c)
    as [Hndu Hfresh].
  rewrite Hal, Hacc. split.
  - rewrite map_app. apply NoDup_app; [exact Hnd | exact Hndu |].
    intros k Hk Hku. apply in_map_iff in Hku as (r & <- & Hr).
    destruct (Hfresh r Hr) as (_ & H & _). now apply H.
  - intros r Hr. apply in_app_or in Hr as [Hr | Hr]; [now left |].
    right. now apply Hfresh.
Qed.

(** With no save-point open, a second [alias_column] on the same column
    returns and adds no alias: every candidate is by then an alias, a
    name, or too short. *)
Theorem alias_column_twice (colname : string) (min_alias_length : Z)
  (c : Cohort) :
  savepoints c = [] ->
  let c1 := fst (alias_column colname min_alias_length c) in
  snd (alias_column colname min_alias_length c1) = Ok tt
  /\ aliases (_db (fst (alias_column colname min_alias_length c1)))
     = aliases (_db c1).
Proof.
  intros Hnone c1.
  destruct (alias_column_run colname min_alias_length c Hnone)
    as (_ & Hal & _ & _ & Hacc & Hmeta & Hsp1).
  fold c1 in Hal, Hacc, Hmeta, Hsp1.
  rewrite Hnone in Hsp1.
  destruct (alias_column_run colname min_alias_length c1 Hsp1)
    as (Hok & Hal1 & _).
  split; [exact Hok |].
  rewrite Hal1.
  replace (accepted_aliases colname min_alias_length c1) with
    (@nil (string * Z)); [now rewrite app_nil_r |].
  symmetry. rewrite accepted_aliases_eq.
  assert (Hcol : select_column colname (_db c1)
                 = select_column colname (_db c)).
  { unfold select_column. now rewrite Hmeta. }
  rewrite Hcol. apply filter_nothing. intros r Hr.
  unfold alias_ok.
  destruct (existsb (String.eqb (fst r)) (names c1)) eqn:E1;
    [reflexivity |].
  apply existsb_eqb_false in E1. rewrite names_all, Hal, Hacc in E1.
  destruct (alias_ok (names c) min_alias_length r) eqn:Hok0.
  - exfalso. apply E1. apply in_or_app. right.
    rewrite map_app. apply in_or_app. right.
    apply in_map. rewrite accepted_aliases_eq.
    apply filter_In. now split.
  - unfold alias_ok in Hok0.
    apply andb_false_iff in Hok0 as [Hn | Hl].
    + exfalso. apply negb_false_iff in Hn.
      apply existsb_exists in Hn as (k & Hk & Heq).
      apply String.eqb_eq in Heq. subst k.
      apply E1. rewrite names_all in Hk.
      apply in_app_or in Hk as [Hk | Hk]; apply in_or_app; [now left |].
      right. rewrite map_app. apply in_or_app. now left.
    + simpl. exact Hl.
Qed.

Section DropAliases.
Context `{Env : Environment}.

(** After [drop_aliases] an identifier resolves by name or by AID only:
    one that was an alias and nothing else raises [NameError], although
    it resolved before, and [names] lists the Accession names alone. *)
Theorem drop_aliases_unresolves (s : string) (c : Cohort) :
  select_AID_by_name s (_db c) = None ->
  (forall n, numeric_of_text s = Some n ->
             select_AID_by_AID n (_db c) = None) ->
  let c' := fst (drop_aliases c) in
  _get_AID (IStr s) c' = (c', Raise NameError)
  /\ names c' = map snd (accessions (_db c)).
Proof.
  intros Hname Hnum c'.
  assert (Hc' : c' = with_cache [] (with_db (set_aliases [] (_db c)) c))
    by reflexivity.
  split.
  - rewrite Hc'. unfold _get_AID. simpl cache. simpl cache_find.
    assert (Hb : get_AID_body (IStr s) (set_aliases [] (_db c))
                 = Raise NameError).
    { unfold get_AID_body.
      change (select_AID_by_name s (set_aliases [] (_db c)))
        with (select_AID_by_name s (_db c)).
      rewrite Hname. simpl select_AID_by_alias.
      destruct (numeric_of_text s) as [n |] eqn:Hn; [| reflexivity].
      change (select_AID_by_AID n (set_aliases [] (_db c)))
        with (select_AID_by_AID n (_db c)).
      now rewrite (Hnum n eq_refl). }
    simpl _db. now rewrite Hb.
  - rewrite names_all, Hc'. simpl. now rewrite app_nil_r.
Qed.

End DropAliases.

Lemma alias_column_keeps_unique_witness :
  let c' := fst (alias_column "age" 1 cohort_S1) in
  NoDup (map fst (aliases (_db cohort_S1)))
  /\ aliases (_db c') = [("23", 1)]
  /\ NoDup (map fst (aliases (_db c'))).
Proof.
  intros c'.
  assert (H : NoDup (map fst (aliases (_db cohort_S1)))) by constructor.
  split; [exact H |]. split; [reflexivity |].
  exact (proj1 (alias_column_keeps_unique "age" 1 cohort_S1 H)).
Defined.

Lemma alias_column_effect_witness :
  savepoints cohort_S1 = []
  /\ snd (alias_column "age" 1 cohort_S1) = Ok tt
  /\ aliases (_db (fst (alias_column "age" 1 cohort_S1))) = [("23", 1)]
  /\ savepoints (entered cohort_S1) <> []
  /\ alias_column "age" 1 (entered cohort_S1)
     = (entered cohort_S1, Raise SQLError).
Proof.
  destruct (proj2 (alias_column_effect "age" 1 cohort_S1) eq_refl)
    as (H1 & H2 & _).
  assert (Hopen : savepoints (entered cohort_S1) <> []) by discriminate.
  split; [reflexivity |]. split; [exact H1 |]. split; [exact H2 |].
  split; [exact Hopen |].
  exact (proj1 (alias_column_effect "age" 1 (entered cohort_S1)) Hopen).
Defined.

Lemma alias_column_twice_witness :
  let c1 := fst (alias_column "age" 1 cohort_S1) in
  savepoints cohort_S1 = []
  /\ aliases (_db c1) = [("23", 1)]
  /\ snd (alias_column "age" 1 c1) = Ok tt
  /\ aliases (_db (fst (alias_column "age" 1 c1))) = [("23", 1)].
Proof.
  intros c1.
  destruct (alias_column_twice "age" 1 cohort_S1 eq_refl) as (H1 & H2).
  split; [reflexivity |]. split; [reflexivity |].
  split; [exact H1 | exact H2].
Defined.

Lemma drop_aliases_unresolves_witness :
  let c' := fst (drop_aliases cohort_S1_aliased) in
  select_AID_by_name "23" (_db cohort_S1_aliased) = None
  /\ snd (@_get_AID reference_env (IStr "23") cohort_S1_aliased) = Ok 1
  /\ @_get_AID reference_env (IStr "23") c' = (c', Raise NameError).
Proof.
  intros c'.
  split; [reflexivity |]. split; [reflexivity |].
  refine (proj1 (@drop_aliases_unresolves reference_env "23"
                   cohort_S1_aliased eq_refl _)).
  intros n Hn. injection Hn as <-. reflexivity.
Defined.

(* ================================================================== *)
(** ** Iteration and sampling without replacement *)

Lemma unique_AID_row (l : list (Z * string)) (a : Z) (s s' : string) :
  NoDup (map fst l) -> In (a, s) l -> In (a, s') l -> s = s'.
Proof.
  induction l as [| [b t] l IH]; simpl; intros Hnd H1 H2; [contradiction |].
  inversion Hnd as [| ? ? Hnin Hnd']; subst.
  destruct H1 as [H1 | H1], H2 as [H2 | H2].
  - congruence.
  - injection H1 as -> ->. exfalso. apply Hnin.
    now apply (in_map fst l (a, s')).
  - injection H2 as -> ->. exfalso. apply Hnin.
    now apply (in_map fst l (a, s)).
  - now apply IH.
Qed.

Lemma pick_permutation {A : Type} (i : nat) (l : list A) (x : A) :
  (i < List.length l)%nat ->
  Permutation (nth i l x :: firstn i l ++ skipn (S i) l) l.
Proof.
  revert l. induction i as [| i IH]; intros [| y l] Hlt; simpl in *;
    try lia.
  - apply Permutation_refl.
  - assert (Hi : (i < List.length l)%nat) by lia.
    specialize (IH l Hi).
    apply perm_trans with (y :: nth i l x :: firstn i l ++ skipn (S i) l).
    + apply perm_swap.
    + now apply perm_skip.
Qed.

Lemma pick_length {A : Type} (i : nat) (l : list A) :
  (i < List.length l)%nat ->
  S (List.length (firstn i l ++ skipn (S i) l)) = List.length l.
Proof.
  intros Hlt. rewrite length_app, length_firstn, length_skipn. lia.
Qed.

Lemma In_firstn_list {A : Type} (n : nat) (l : list A) (x : A) :
  In x (firstn n l) -> In x l.
Proof.
  intros H. rewrite <- (firstn_skipn n l). apply in_or_app. now left.
Qed.

Lemma NoDup_firstn_list {A : Type} (n : nat) (l : list A) :
  NoDup l -> NoDup (firstn n l).
Proof.
  intros H. rewrite <- (firstn_skipn n l) in H.
  now apply NoDup_app_remove_r in H.
Qed.

Section SamplingMore.
Context `{Env : Environment}.

Lemma shuffle_permutation {A : Type} (rnd : nat -> nat) (fuel : nat) :
  forall (k : nat) (l : list A),
    List.length l = fuel -> Permutation (shuffle rnd k fuel l) l.
Proof.
  induction fuel as [| fuel IH]; intros k l Hlen.
  - destruct l; [apply Permutation_refl | discriminate].
  - destruct l as [| x l]; [discriminate |].
    simpl shuffle.
    set (i := Nat.modulo (rnd k) (List.length (x :: l))).
    assert (Hi : (i < List.length (x :: l))%nat)
      by (apply Nat.mod_upper_bound; discriminate).
    apply perm_trans
      with (nth i (x :: l) x
              :: firstn i (x :: l) ++ skipn (S i) (x :: l)).
    + apply perm_skip. apply IH.
      pose proof (pick_length i (x :: l) Hi) as H. rewrite Hlen in H. lia.
    + now apply pick_permutation.
Qed.

Lemma getitem_named (name : string) (c : Cohort) :
  In name (map snd (accessions (_db c))) ->
  accessions_keyed (_db c) -> cache_coherent c -> readable (_db c) ->
  exists acc,
    snd (__getitem__ (IStr name) c) = Ok acc
    /\ Accession.name acc = name
    /\ _db (fst (__getitem__ (IStr name) c)) = _db c
    /\ cache_coherent (fst (__getitem__ (IStr name) c)).
Proof.
  intros Hin [Hkey _] Hcoh Hread.
  destruct (get_AID_coherent (IStr name) c Hcoh) as [Hres Hcoh'].
  destruct (get_AID_frame (IStr name) c) as [k Hk].
  assert (Hbody : exists aid,
             get_AID_body (IStr name) (_db c) = Ok aid
             /\ In (aid, name) (accessions (_db c))).
  { unfold get_AID_body, select_AID_by_name.
    destruct (find _ (accessions (_db c))) as [[aid s] |] eqn:Hf.
    - exists aid. split; [reflexivity |].
      apply find_some in Hf as [Hrow Heq]. simpl in Heq.
      apply String.eqb_eq in Heq. now subst s.
    - exfalso. apply in_map_iff in Hin as ([aid s] & Hs & Hrow).
      simpl in Hs. subst s.
      pose proof (find_none _ _ Hf _ Hrow) as E. simpl in E.
      now rewrite String.eqb_refl in E. }
  destruct Hbody as (aid & Hbody & Hrow).
  rewrite Hbody in Hres.
  destruct (accession_of_readable aid name (_db c) Hrow Hread) as [acc Hacc].
  exists acc. rewrite (getitem_resolved _ _ aid Hres). simpl.
  split; [exact Hacc |]. split; [| split; [| exact Hcoh']].
  - unfold accession_of in Hacc.
    destruct (select_name_by_AID aid (_db c)) as [n |] eqn:Hn;
      [| discriminate].
    destruct (existsb _ _); [discriminate |].
    injection Hacc as <-. simpl.
    unfold select_name_by_AID in Hn.
    destruct (find _ (accessions (_db c))) as [[a' n'] |] eqn:Hf;
      [| discriminate].
    injection Hn as ->. apply find_some in Hf as [Hrow' Ha].
    simpl in Ha. apply Z.eqb_eq in Ha. subst a'.
    exact (unique_AID_row _ _ _ _ Hkey Hrow' Hrow).
  - rewrite Hk. reflexivity.
Qed.

Lemma consume_named (ns : list string) :
  forall c : Cohort,
    incl ns (map snd (accessions (_db c))) ->
    accessions_keyed (_db c) -> cache_coherent c -> readable (_db c) ->
    exists l,
      snd (consume (map (fun name => __getitem__ (IStr name)) ns) c) = Ok l
      /\ map Accession.name l = ns.
Proof.
  induction ns as [| n ns IH]; intros c Hincl Hkey Hcoh Hread; simpl.
  - exists []. now split.
  - destruct (getitem_named n c (Hincl n (or_introl eq_refl)) Hkey Hcoh Hread)
      as (acc & Hr & Hname & Hdb & Hcoh').
    unfold bind at 1.
    destruct (__getitem__ (IStr n) c) as [c1 r1]. simpl in *. subst r1.
    destruct (IH c1) as (l & Hl & Hmap).
    + rewrite Hdb. intros x Hx. apply Hincl. now right.
    + now rewrite Hdb.
    + exact Hcoh'.
    + now rewrite Hdb.
    + unfold bind at 1.
      destruct (consume _ c1) as [c2 r2]. simpl in *. subst r2.
      exists (acc :: l). simpl. now rewrite Hname, Hmap.
Qed.

(** Iterating the catalog yields every Accession, each once, when the
    tables are keyed, every Accession can be built and the cache agrees
    with the tables; nothing is said of the order. *)
Theorem iter_yields_all (c : Cohort) :
  accessions_keyed (_db c) -> cache_coherent c -> readable (_db c) ->
  exists l,
    snd (consume (__iter__ c) c) = Ok l
    /\ Permutation (map Accession.name l) (map snd (accessions (_db c)))
    /\ NoDup (map Accession.name l)
    /\ Z.of_nat (List.length l) = __len__ c.
Proof.
  intros Hkey Hcoh Hread.
  destruct (consume_named (map snd (accessions (_db c))) c
              (incl_refl _) Hkey Hcoh Hread) as (l & Hl & Hmap).
  exists l. split; [exact Hl |]. split; [now rewrite Hmap |].
  split; [rewrite Hmap; apply Hkey |].
  unfold __len__. f_equal.
  rewrite <- (length_map Accession.name), Hmap. apply length_map.
Qed.

(** Sampling without replacement with a count between zero and the
    number of Accessions, a signed 64-bit integer, yields that many
    Accessions of the catalog, with pairwise different names, whatever
    the random order is, when the tables are keyed, every Accession can
    be built and the cache agrees with the tables. *)
Theorem random_accessions_distinct (rnd : nat -> nat) (n : Z) (c : Cohort) :
  0 <= n <= __len__ c ->
  fits_int64 n = true ->
  accessions_keyed (_db c) -> cache_coherent c -> readable (_db c) ->
  exists g l,
    random_accessions rnd n false c = (c, Ok g)
    /\ snd (consume g c) = Ok l
    /\ List.length l = Z.to_nat n
    /\ NoDup (map Accession.name l)
    /\ incl (map Accession.name l) (map snd (accessions (_db c))).
Proof.
  intros [Hn0 Hn] Hfit Hkey Hcoh Hread.
  set (names0 := map snd (accessions (_db c))).
  set (rows := limit n (shuffle rnd 0 (List.length (accessions (_db c)))
                          names0)).
  assert (Hperm : Permutation
                    (shuffle rnd 0 (List.length (accessions (_db c))) names0)
                    names0).
  { apply shuffle_permutation. unfold names0. apply length_map. }
  assert (Hrows : rows = firstn (Z.to_nat n)
                           (shuffle rnd 0 (List.length (accessions (_db c)))
                              names0)).
  { unfold rows, limit. destruct (Z.ltb_spec n 0); [lia | reflexivity]. }
  assert (Hincl : incl rows names0).
  { rewrite Hrows. intros x Hx. apply In_firstn_list in Hx.
    now apply (Permutation_in _ Hperm). }
  assert (Hnd : NoDup rows).
  { rewrite Hrows. apply NoDup_firstn_list.
    apply (Permutation_NoDup (Permutation_sym Hperm)). apply Hkey. }
  assert (Hlen : List.length rows = Z.to_nat n).
  { rewrite Hrows, length_firstn, (Permutation_length Hperm).
    unfold names0. rewrite length_map. unfold __len__ in Hn. lia. }
  destruct (consume_named rows c Hincl Hkey Hcoh Hread) as (l & Hl & Hmap).
  exists (map (fun name => __getitem__ (IStr name)) rows), l.
  split.
  { unfold random_accessions. simpl negb. cbv iota.
    destruct (Z.ltb_spec (__len__ c) n); [lia |].
    rewrite Hfit. reflexivity. }
  split; [exact Hl |].
  split; [rewrite <- (length_map Accession.name), Hmap; exact Hlen |].
  rewrite Hmap. now split.
Qed.

(** A negative count is no limit to the engine.  Sampling without
    replacement with a negative count below the signed 64-bit range
    raises [OverflowError] at the call, when the count is bound; with
    one in the range it yields every Accession of the catalog, each
    once, when the tables are keyed, every Accession can be built and
    the cache agrees with the tables. *)
Theorem random_accessions_negative (rnd : nat -> nat) (n : Z) (c : Cohort) :
  n < 0 ->
  (fits_int64 n = false ->
   random_accessions rnd n false c = (c, Raise OverflowError))
  /\ (fits_int64 n = true ->
      accessions_keyed (_db c) -> cache_coherent c -> readable (_db c) ->
      exists g l,
        random_accessions rnd n false c = (c, Ok g)
        /\ snd (consume g c) = Ok l
        /\ Permutation (map Accession.name l) (map snd (accessions (_db c)))).
Proof.
  intros Hn.
  assert (H0 : 0 <= __len__ c) by (unfold __len__; lia).
  split.
  { intros Hfit. unfold random_accessions. simpl negb. cbv iota.
    destruct (Z.ltb_spec (__len__ c) n); [lia |].
    rewrite Hfit. reflexivity. }
  intros Hfit Hkey Hcoh Hread.
  set (names0 := map snd (accessions (_db c))).
  set (rows := shuffle rnd 0 (List.length (accessions (_db c))) names0).
  assert (Hperm : Permutation rows names0).
  { apply shuffle_permutation. unfold names0. apply length_map. }
  assert (Hincl : incl rows names0).
  { intros x Hx. now apply (Permutation_in _ Hperm). }
  destruct (consume_named rows c Hincl Hkey Hcoh Hread) as (l & Hl & Hmap).
  exists (map (fun name => __getitem__ (IStr name)) rows), l.
  split.
  { unfold random_accessions. simpl negb. cbv iota.
    destruct (Z.ltb_spec (__len__ c) n); [lia |].
    rewrite Hfit. simpl negb. cbv iota.
    unfold limit. destruct (Z.ltb_spec n 0); [reflexivity | lia]. }
  split; [exact Hl | now rewrite Hmap].
Qed.

End SamplingMore.

Lemma cohort_S1_keyed : accessions_keyed (_db cohort_S1).
Proof. split; simpl; repeat constructor; simpl; tauto. Qed.

Lemma iter_yields_all_witness :
  accessions_keyed (_db cohort_S1)
  /\ exists l,
       snd (consume (@__iter__ reference_env cohort_S1) cohort_S1) = Ok l
       /\ Permutation (map Accession.name l) ["S1"].
Proof.
  split; [exact cohort_S1_keyed |].
  destruct (@iter_yields_all reference_env cohort_S1 cohort_S1_keyed
              cohort_S1_coherent cohort_S1_readable) as (l & H1 & H2 & _).
  exists l. split; [exact H1 | exact H2].
Defined.

Lemma random_accessions_distinct_witness :
  0 <= 1 <= __len__ cohort_S1
  /\ exists g l,
       @random_accessions reference_env (fun k => k) 1 false cohort_S1
       = (cohort_S1, Ok g)
       /\ snd (consume g cohort_S1) = Ok l
       /\ List.length l = 1%nat.
Proof.
  assert (H : 0 <= 1 <= __len__ cohort_S1) by (unfold __len__; simpl; lia).
  split; [exact H |].
  destruct (@random_accessions_distinct reference_env (fun k => k) 1
              cohort_S1 H eq_refl cohort_S1_keyed cohort_S1_coherent
              cohort_S1_readable) as (g & l & H1 & H2 & H3 & _).
  exists g, l. repeat split; assumption.
Defined.

Lemma random_accessions_negative_witness :
  -1 < 0
  /\ (exists g l,
        @random_accessions reference_env (fun k => k) (-1) false cohort_S1
        = (cohort_S1, Ok g)
        /\ snd (consume g cohort_S1) = Ok l
        /\ Permutation (map Accession.name l) ["S1"])
  /\ - 2 ^ 63 - 1 < 0
  /\ @random_accessions reference_env (fun k => k) (- 2 ^ 63 - 1) false
       cohort_S1
     = (cohort_S1, Raise OverflowError).
Proof.
  assert (H : -1 < 0) by lia.
  assert (H' : - 2 ^ 63 - 1 < 0) by lia.
  split; [exact H |]. split; [| split; [exact H' |]].
  - destruct (proj2 (@random_accessions_negative reference_env (fun k => k)
                       (-1) cohort_S1 H)
                eq_refl cohort_S1_keyed cohort_S1_coherent
                cohort_S1_readable) as (g & l & H1 & H2 & H3).
    exists g, l. repeat split; assumption.
  - exact (proj1 (@random_accessions_negative reference_env (fun k => k)
                    (- 2 ^ 63 - 1) cohort_S1 H') eq_refl).
Defined.

(* ================================================================== *)
(** ** The columnar store, continued *)

Lemma has_idx_after_assign (col : column) (cols : list column) :
  cname col = "idx" ->
  existsb (fun c => String.eqb (cname c) "idx") (DataFrame.assign col cols)
  = true.
Proof.
  intros Hn. induction cols as [| c0 cols IH]; simpl.
  - now rewrite Hn.
  - rewrite Hn. destruct (String.eqb (cname c0) "idx") eqn:E; simpl.
    + now rewrite Hn.
    + rewrite E. exact IH.
Qed.

Lemma no_idx_after_filter (cols : list column) :
  existsb (fun c => String.eqb (cname c) "idx")
    (filter (fun c' => negb (String.eqb (cname c') "idx")) cols) = false.
Proof.
  induction cols as [| c0 cols IH]; simpl; [reflexivity |].
  destruct (String.eqb (cname c0) "idx") eqn:E; simpl; [exact IH |].
  now rewrite E.
Qed.

Lemma find_idx_after_assign (col : column) (cols : list column) :
  cname col = "idx" ->
  find (fun c => String.eqb (cname c) "idx") (DataFrame.assign col cols)
  = Some col.
Proof.
  intros Hn. induction cols as [| c0 cols IH]; simpl.
  - now rewrite Hn.
  - rewrite Hn. destruct (String.eqb (cname c0) "idx") eqn:E; simpl.
    + now rewrite Hn.
    + rewrite E. exact IH.
Qed.

Lemma filter_idx_after_assign (col : column) (cols : list column) :
  cname col = "idx" ->
  filter (fun c => negb (String.eqb (cname c) "idx"))
    (DataFrame.assign col cols)
  = filter (fun c => negb (String.eqb (cname c) "idx")) cols.
Proof.
  intros Hn. induction cols as [| c0 cols IH]; simpl.
  - now rewrite Hn.
  - rewrite Hn. destruct (String.eqb (cname c0) "idx") eqn:E; simpl.
    + now rewrite Hn.
    + rewrite E. simpl. now rewrite IH.
Qed.

Lemma loaded_with_idx (cols : list column) :
  payload_len (CTable cols) <> 0%nat ->
  existsb (fun c => String.eqb (cname c) "idx") cols = true ->
  DataFrame.has_column "idx" (loaded_frame (CTable cols)) = false
  /\ DataFrame.index_name (loaded_frame (CTable cols)) = None
  /\ DataFrame.columns (loaded_frame (CTable cols))
     = filter (fun c => negb (String.eqb (cname c) "idx")) cols
  /\ exists col,
       find (fun c => String.eqb (cname c) "idx") cols = Some col
       /\ DataFrame.index (loaded_frame (CTable cols)) = cvalues col
       /\ DataFrame.index_dtype (loaded_frame (CTable cols)) = cdtype col.
Proof.
  intros Hlen Hidx. unfold loaded_frame.
  destruct (Nat.eqb (payload_len (CTable cols)) 0) eqn:E;
    [apply Nat.eqb_eq in E; contradiction |].
  assert (Hh : DataFrame.has_column "idx" (todataframe (CTable cols)) = true)
    by exact Hidx.
  rewrite Hh.
  unfold DataFrame.set_index_unnamed.
  change (DataFrame.columns (todataframe (CTable cols))) with cols.
  destruct (find (fun c => String.eqb (cname c) "idx") cols) as [col |] eqn:Hf.
  - unfold DataFrame.has_column. simpl.
    split; [apply no_idx_after_filter |]. split; [reflexivity |].
    split; [reflexivity |]. now exists col.
  - exfalso. apply existsb_exists in Hidx as (x & Hx & Hn).
    now rewrite (find_none _ _ Hf x Hx) in Hn.
Qed.

Section ColumnStoreMore.
Context `{Env : Environment}.

Lemma bcolz_put_get (tblname : string) (d : DataFrame.t) (c : Cohort) :
  snd (_bcolz tblname None (fst (_bcolz tblname (Some d) c)))
  = Ok (Some (loaded_frame (stored_payload d))).
Proof.
  rewrite bcolz_put. simpl fst.
  erewrite bcolz_get; [reflexivity |].
  simpl. now rewrite String.eqb_refl.
Qed.

(** Writing is a full replace: what is read after two writes under one
    name is what is read after the second alone. *)
Theorem bcolz_second_put_wins (tblname : string) (d1 d2 : DataFrame.t)
  (c : Cohort) :
  snd (_bcolz tblname None
         (fst (_bcolz tblname (Some d2)
                 (fst (_bcolz tblname (Some d1) c)))))
  = snd (_bcolz tblname None (fst (_bcolz tblname (Some d2) c))).
Proof. now rewrite !bcolz_put_get. Qed.

(** An empty frame, whatever its columns and its index, is read back
    as [pd.DataFrame()]. *)
Theorem bcolz_empty_frame (tblname : string) (d : DataFrame.t) (c : Cohort) :
  DataFrame.empty d = true ->
  snd (_bcolz tblname None (fst (_bcolz tblname (Some d) c)))
  = Ok (Some DataFrame.new).
Proof.
  intros He. rewrite bcolz_put_get. unfold stored_payload. now rewrite He.
Qed.

(** A column named [idx] does not survive: a frame that has one, and is
    not empty, is read back without it, with its other columns, and
    under an unnamed index.  When the index of the frame is of dtype
    [int64], the index read back is the first column [idx] of the
    frame; otherwise it is the index of the frame, which the setter
    wrote over that column. *)
Theorem bcolz_idx_column_taken (tblname : string) (d : DataFrame.t)
  (c : Cohort) :
  well_formed d ->
  DataFrame.empty d = false ->
  DataFrame.has_column "idx" d = true ->
  exists d',
    snd (_bcolz tblname None (fst (_bcolz tblname (Some d) c)))
    = Ok (Some d')
    /\ DataFrame.has_column "idx" d' = false
    /\ DataFrame.index_name d' = None
    /\ DataFrame.columns d'
       = filter (fun c => negb (String.eqb (cname c) "idx"))
           (DataFrame.columns d)
    /\ (DataFrame.index_dtype d = "int64" ->
        exists col,
          find (fun c => String.eqb (cname c) "idx") (DataFrame.columns d)
          = Some col
          /\ DataFrame.index d' = cvalues col
          /\ DataFrame.index_dtype d' = cdtype col)
    /\ (DataFrame.index_dtype d <> "int64" ->
        DataFrame.index d' = DataFrame.index d
        /\ DataFrame.index_dtype d' = DataFrame.index_dtype d).
Proof.
  intros Hwf Hne Hidx.
  exists (loaded_frame (stored_payload d)).
  split; [apply bcolz_put_get |].
  unfold stored_payload. rewrite Hne.
  destruct d as [idx dty nm cols]. simpl in *.
  unfold DataFrame.empty in Hne. simpl in Hne.
  destruct idx as [| i0 idx]; [discriminate |].
  destruct cols as [| col0 cols]; [discriminate |].
  assert (Hlen0 : List.length (cvalues col0) = S (List.length idx)).
  { unfold well_formed in Hwf. simpl in Hwf. now inversion Hwf. }
  unfold DataFrame.has_column in Hidx. simpl in Hidx.
  destruct (String.eqb_spec dty "int64") as [Hd | Hd].
  - destruct (loaded_with_idx (col0 :: cols)) as (H1 & H2 & H3 & H4).
    + simpl. rewrite Hlen0. discriminate.
    + exact Hidx.
    + split; [exact H1 |]. split; [exact H2 |]. split; [exact H3 |].
      split; [intros _; exact H4 | intros Hno; contradiction].
  - set (icol := mkColumn "idx" dty (i0 :: idx)).
    destruct (loaded_with_idx (DataFrame.assign icol (col0 :: cols)))
      as (H1 & H2 & H3 & col & Hf & H4 & H5).
    + simpl. destruct (String.eqb (cname col0) "idx"); simpl;
        [discriminate | rewrite Hlen0; discriminate].
    + now apply has_idx_after_assign.
    + rewrite (find_idx_after_assign icol (col0 :: cols) eq_refl) in Hf.
      injection Hf as <-.
      split; [exact H1 |]. split; [exact H2 |].
      split; [rewrite H3; now apply filter_idx_after_assign |].
      split; [intros Hyes; contradiction | intros _; now split].
Qed.

End ColumnStoreMore.

Lemma bcolz_empty_frame_witness :
  let c := open_cohort "" "c" "Cohort" empty_db in
  DataFrame.empty frame_no_rows = true
  /\ snd (@_bcolz reference_env "t" None
            (fst (@_bcolz reference_env "t" (Some frame_no_rows) c)))
     = Ok (Some DataFrame.new)
  /\ frame_no_rows <> DataFrame.new.
Proof.
  intros c. split; [reflexivity |]. split.
  - exact (@bcolz_empty_frame reference_env "t" frame_no_rows c eq_refl).
  - discriminate.
Defined.

Lemma bcolz_idx_column_taken_witness :
  let c := open_cohort "" "c" "Cohort" empty_db in
  well_formed frame_with_idx
  /\ snd (@_bcolz reference_env "t" None
            (fst (@_bcolz reference_env "t" (Some frame_with_idx) c)))
     = Ok (Some (DataFrame.make [CInt 7; CInt 8] "int64" None
                   [mkColumn "x" "int64" [CInt 1; CInt 2]]))
  /\ well_formed frame_named_with_idx
  /\ snd (@_bcolz reference_env "t" None
            (fst (@_bcolz reference_env "t" (Some frame_named_with_idx) c)))
     = Ok (Some (DataFrame.make [CText "a"; CText "b"] "object" None
                   [mkColumn "x" "int64" [CInt 1; CInt 2]])).
Proof.
  intros c.
  assert (Hwf : well_formed frame_with_idx) by (repeat constructor).
  assert (Hwf' : well_formed frame_named_with_idx) by (repeat constructor).
  split; [exact Hwf |]. split; [| split; [exact Hwf' |]].
  - destruct (@bcolz_idx_column_taken reference_env "t" frame_with_idx c
                Hwf eq_refl eq_refl) as (d' & H & _).
    reflexivity.
  - destruct (@bcolz_idx_column_taken reference_env "t" frame_named_with_idx
                c Hwf' eq_refl eq_refl) as (d' & H & _).
    reflexivity.
Defined.
